(** * Execution orchestration of the NNAPI runtime: a shallow embedding of
      [runtime/ExecutionBuilder.cpp] and the properties of its argument
      binding, result queries, shape reconciliation and fallback walker. *)

From Stdlib Require Import ZArith Lia String.
From stdpp Require Import base option list.

Local Open Scope Z_scope.

(* ===================================================================== *)
(** * Part I -- Data model                                                *)
(* ===================================================================== *)

(** Machine integers are [Z]; [uint32_t] and [uint64_t] wrap-around is
    written out where the source converts or multiplies. *)
Definition UINT32_MODULUS : Z := 2 ^ 32.
Definition UINT64_MODULUS : Z := 2 ^ 64.
Definition UINT64_MAX : Z := 2 ^ 64 - 1.

(** NDK result codes ([int]); the values are those of [NeuralNetworks.h]. *)
Definition ANEURALNETWORKS_NO_ERROR : Z := 0.
Definition ANEURALNETWORKS_BAD_DATA : Z := 4.
Definition ANEURALNETWORKS_BAD_STATE : Z := 6.
Definition ANEURALNETWORKS_OUTPUT_INSUFFICIENT_SIZE : Z := 8.

(** Duration codes of [ANeuralNetworksExecution_getDuration]. *)
Definition ANEURALNETWORKS_DURATION_ON_HARDWARE : Z := 0.
Definition ANEURALNETWORKS_DURATION_IN_DRIVER : Z := 1.

(** [enum class ErrorStatus] of [nnapi/Types.h]. *)
Inductive ErrorStatus : Type :=
| NONE
| DEVICE_UNAVAILABLE
| GENERAL_FAILURE
| OUTPUT_INSUFFICIENT_SIZE
| INVALID_ARGUMENT
| MISSED_DEADLINE_TRANSIENT
| MISSED_DEADLINE_PERSISTENT
| RESOURCE_EXHAUSTED_TRANSIENT
| RESOURCE_EXHAUSTED_PERSISTENT
| DEAD_OBJECT.

#[export] Instance ErrorStatus_eq_dec : EqDecision ErrorStatus.
Proof. solve_decision. Defined.

(** [struct OutputShape]. *)
Record OutputShape : Type := mkOutputShape {
  os_dimensions : list Z;
  os_isSufficient : bool
}.

(** [struct Timing]; [kNoTiming] is the "not measured" sentinel. *)
Record Timing : Type := mkTiming {
  timeOnDevice : Z;
  timeInDriver : Z
}.

Definition kNoTiming : Timing :=
  {| timeOnDevice := UINT64_MAX; timeInDriver := UINT64_MAX |}.

(** [ModelArgumentInfo::state]. *)
Inductive ArgState : Type := POINTER | MEMORY | HAS_NO_VALUE | UNSPECIFIED.

(** [DataLocation]. *)
Record DataLocation : Type := mkDataLocation {
  poolIndex : Z;
  offset : Z;
  length_ : Z
}.

(** [ModelArgumentInfo]: one per declared input or output. *)
Record ModelArgumentInfo : Type := mkArg {
  state : ArgState;
  dimensions : list Z;
  isSufficient : bool;
  buffer : Z;
  locationAndLength : DataLocation
}.

(** A default-constructed [ModelArgumentInfo]. *)
Definition defaultArg : ModelArgumentInfo :=
  {| state := UNSPECIFIED; dimensions := []; isSufficient := true;
     buffer := 0; locationAndLength := mkDataLocation 0 0 0 |}.

(** The part of [Operand] the execution layer reads. *)
Record Operand : Type := mkOperand {
  op_type : Z;
  op_dimensions : list Z
}.

(** [ANeuralNetworksOperandType]; [dimensionCount] is the length of
    [ot_dimensions]. *)
Record OperandType : Type := mkOperandType {
  ot_type : Z;
  ot_dimensions : list Z
}.

(** Handles: a [Memory] object and a prepared model are identified by
    their address; the devices are the software (CPU) device and the
    drivers. *)
Definition Memory : Type := nat.
Definition PreparedModel : Type := nat.
Definition ModelHandle : Type := nat.

Inductive Device : Type := CpuDevice | Driver (id : nat).

#[export] Instance Device_eq_dec : EqDecision Device.
Proof. solve_decision. Defined.

(** [CompilationBuilder], as far as the execution reads it. *)
Record CompilationBuilder : Type := mkCompilation {
  mExplicitDeviceList : bool;
  mDevices : list Device;
  mPartitioning : Z;
  inputOperands : list Operand;
  outputOperands : list Operand
}.

(** [ExecutionBuilder]. *)
Record ExecutionBuilder : Type := mkExecution {
  mCompilation : CompilationBuilder;
  mInputs : list ModelArgumentInfo;
  mOutputs : list ModelArgumentInfo;
  mMemories : list Memory;
  mMeasureTiming : bool;
  mTiming : Timing;
  mStarted : bool;
  mFinished : bool
}.

(** Field updates, written as the assignments of the source. *)
Definition set_mInputs (v : list ModelArgumentInfo) (e : ExecutionBuilder) :=
  mkExecution (mCompilation e) v (mOutputs e) (mMemories e)
    (mMeasureTiming e) (mTiming e) (mStarted e) (mFinished e).
Definition set_mOutputs (v : list ModelArgumentInfo) (e : ExecutionBuilder) :=
  mkExecution (mCompilation e) (mInputs e) v (mMemories e)
    (mMeasureTiming e) (mTiming e) (mStarted e) (mFinished e).
Definition set_mMemories (v : list Memory) (e : ExecutionBuilder) :=
  mkExecution (mCompilation e) (mInputs e) (mOutputs e) v
    (mMeasureTiming e) (mTiming e) (mStarted e) (mFinished e).
Definition set_mMeasureTiming (v : bool) (e : ExecutionBuilder) :=
  mkExecution (mCompilation e) (mInputs e) (mOutputs e) (mMemories e)
    v (mTiming e) (mStarted e) (mFinished e).
Definition set_mTiming (v : Timing) (e : ExecutionBuilder) :=
  mkExecution (mCompilation e) (mInputs e) (mOutputs e) (mMemories e)
    (mMeasureTiming e) v (mStarted e) (mFinished e).
Definition set_mStarted (v : bool) (e : ExecutionBuilder) :=
  mkExecution (mCompilation e) (mInputs e) (mOutputs e) (mMemories e)
    (mMeasureTiming e) (mTiming e) v (mFinished e).
Definition set_mFinished (v : bool) (e : ExecutionBuilder) :=
  mkExecution (mCompilation e) (mInputs e) (mOutputs e) (mMemories e)
    (mMeasureTiming e) (mTiming e) (mStarted e) v.

(** [ExecutionBuilder::ExecutionBuilder]: one default binding per declared
    input and output, nothing started. *)
Definition newExecution (c : CompilationBuilder) : ExecutionBuilder :=
  {| mCompilation := c;
     mInputs := replicate (length (inputOperands c)) defaultArg;
     mOutputs := replicate (length (outputOperands c)) defaultArg;
     mMemories := [];
     mMeasureTiming := false;
     mTiming := kNoTiming;
     mStarted := false;
     mFinished := false |}.

(* ===================================================================== *)
(** * Part II -- Shape reconciliation                                     *)
(* ===================================================================== *)

(** The loop of [isUpdatable]: positions are visited in order and the
    first one with [to[i] != from[i]] and [to[i] != 0] makes the check
    fail ([NN_RET_CHECK] returns [false]). *)
Fixpoint isUpdatable_loop (to from : list Z) : bool :=
  match to, from with
  | t :: to', f :: from' =>
      if (t =? f) || (t =? 0) then isUpdatable_loop to' from' else false
  | _, _ => true
  end.

(** [isUpdatable(to, from)]. *)
Definition isUpdatable (to from : list Z) : bool :=
  if (length to =? 0)%nat then true
  else if negb (length to =? length from)%nat then false
  else isUpdatable_loop to from.

(** First loop of [ExecutionBuilder::updateOutputShapes]: every stored
    output must be updatable by the proposed shape at the same index. *)
Fixpoint outputs_updatable (outs : list ModelArgumentInfo)
                           (shapes : list OutputShape) : bool :=
  match outs, shapes with
  | o :: outs', s :: shapes' =>
      if isUpdatable (dimensions o) (os_dimensions s)
      then outputs_updatable outs' shapes'
      else false
  | _, _ => true
  end.

(** Second loop: overwrite dimensions and sufficiency of every output. *)
Fixpoint outputs_assign (outs : list ModelArgumentInfo)
                        (shapes : list OutputShape) : list ModelArgumentInfo :=
  match outs, shapes with
  | o :: outs', s :: shapes' =>
      mkArg (state o) (os_dimensions s) (os_isSufficient s) (buffer o)
            (locationAndLength o)
      :: outputs_assign outs' shapes'
  | _, _ => outs
  end.

(** [ExecutionBuilder::updateOutputShapes]: the result flag and the
    execution afterwards. *)
Definition updateOutputShapes (outputShapes : list OutputShape)
                              (e : ExecutionBuilder) : bool * ExecutionBuilder :=
  if (length outputShapes =? 0)%nat then (true, e)
  else if negb (length outputShapes =? length (mOutputs e))%nat then (false, e)
  else if negb (outputs_updatable (mOutputs e) outputShapes) then (false, e)
  else (true, set_mOutputs (outputs_assign (mOutputs e) outputShapes) e).

(** What the validation pass of [updateOutputShapes] establishes, as a
    relation between the stored outputs and the proposed shapes. *)
Definition all_updatable (outs : list ModelArgumentInfo)
                         (shapes : list OutputShape) : Prop :=
  Forall2 (fun o s => isUpdatable (dimensions o) (os_dimensions s) = true)
          outs shapes.

(** [ExecutionBuilder::initializeOutputShapes]. *)
Definition initializeOutputShapes (e : ExecutionBuilder) : list OutputShape :=
  map (fun o => mkOutputShape (dimensions o) true) (mOutputs e).

(** Mapped branch of [StepExecutor::updateOutputShapes]: entry [i] of the
    step's shapes goes to slot [indexMapping[i]] of the table.  The table
    is updated as the loop goes, so a failing check leaves the earlier
    assignments in place. *)
Fixpoint step_update_mapped (indexMapping : list nat) (from : list OutputShape)
                            (to : list OutputShape) : bool * list OutputShape :=
  match indexMapping, from with
  | toIndex :: mapping', f :: from' =>
      match to !! toIndex with
      | None => (false, to)
      | Some t =>
          if isUpdatable (os_dimensions t) (os_dimensions f)
          then step_update_mapped mapping' from' (<[toIndex := f]> to)
          else (false, to)
      end
  | _, _ => (true, to)
  end.

(** Unmapped branch: slot [i] receives entry [i]. *)
Fixpoint step_update_direct (i : nat) (from : list OutputShape)
                            (to : list OutputShape) : bool * list OutputShape :=
  match from with
  | f :: from' =>
      match to !! i with
      | None => (false, to)
      | Some t =>
          if isUpdatable (os_dimensions t) (os_dimensions f)
          then step_update_direct (S i) from' (<[i := f]> to)
          else (false, to)
      end
  | [] => (true, to)
  end.

(* ===================================================================== *)
(** * Part III -- Argument binding and result queries                     *)
(* ===================================================================== *)

(** Collaborators of the binding calls that live outside
    [ExecutionBuilder.cpp] ([TypeManager], [validateOperandType],
    [Memory], [ModelArgumentInfo::setFrom...]); they are parameters of the
    embedding. *)
Record Binder : Type := mkBinder {
  isExtensionOperandType : Z -> bool;
  getExtensionOperandTypeInfo : Z -> option nat;
  validateOperandType : OperandType -> option nat -> bool -> Z;
  isTensorType : Z -> bool;
  tensorHasUnspecifiedDimensions : Operand -> bool;
  hidlMemoryName : Memory -> string;
  validateSize : Memory -> Z -> Z -> bool;
  setFromPointer :
    Operand -> option OperandType -> Z -> Z -> ModelArgumentInfo ->
    Z * ModelArgumentInfo;
  setFromMemory :
    Operand -> option OperandType -> Z -> Z -> Z -> ModelArgumentInfo ->
    Z * ModelArgumentInfo
}.

(** The dimension loop of [checkDimensionInfo]: a fixed (non-zero) operand
    dimension may not be overridden by a different value. *)
Fixpoint overrides_fixed_dimension (operandDims newDims : list Z) : bool :=
  match operandDims, newDims with
  | d :: ds, n :: ns =>
      if negb (d =? n) && negb (d =? 0) then true
      else overrides_fixed_dimension ds ns
  | _, _ => false
  end.

(** [checkDimensionInfo(operand, newType, tag, allowUnspecified)]. *)
Definition checkDimensionInfo (b : Binder) (operand : Operand)
    (newType : option OperandType) (allowUnspecified : bool) : bool :=
  match newType with
  | Some nt =>
      let lookup :=
        if isExtensionOperandType b (op_type operand)
        then match getExtensionOperandTypeInfo b (op_type operand) with
             | Some info => Some (Some info)
             | None => None
             end
        else Some None in
      match lookup with
      | None => false
      | Some info =>
          if negb (validateOperandType b nt info allowUnspecified
                   =? ANEURALNETWORKS_NO_ERROR) then false
          else if (length (op_dimensions operand) =? 0)%nat then true
          else if negb (length (op_dimensions operand)
                        =? length (ot_dimensions nt))%nat then false
          else negb (overrides_fixed_dimension (op_dimensions operand)
                                               (ot_dimensions nt))
      end
  | None =>
      if negb allowUnspecified && isTensorType b (op_type operand)
         && tensorHasUnspecifiedDimensions b operand
      then false else true
  end.

(** Modelled from the spec: [mMemories.add] (the pool table is declared
    outside this file).  The table is an ordered, de-duplicated
    collection; [add] returns the stable index of the pool, appending it
    when it is not registered yet. *)
Fixpoint memories_find (m : Memory) (l : list Memory) (i : nat) : option nat :=
  match l with
  | [] => None
  | x :: l' => if (x =? m)%nat then Some i else memories_find m l' (S i)
  end.

Definition memories_add (m : Memory) (l : list Memory) : Z * list Memory :=
  match memories_find m l 0 with
  | Some i => (Z.of_nat i, l)
  | None => (Z.of_nat (length l), l ++ [m])
  end.

(** [static_cast<uint32_t>(v.size())]. *)
Definition count32 {A : Type} (v : list A) : Z :=
  Z.of_nat (length v) mod UINT32_MODULUS.

(** [getInputOperand(index)] / [getOutputOperand(index)]; the calls below
    are only reached with an index below the count. *)
Definition operandAt (ops : list Operand) (index : Z) : Operand :=
  default (mkOperand 0 []) (ops !! Z.to_nat index).

Definition argAt (args : list ModelArgumentInfo) (index : Z) : ModelArgumentInfo :=
  default defaultArg (args !! Z.to_nat index).

(** [ExecutionBuilder::setInput]; a null [buffer] is [0]. *)
Definition setInput (b : Binder) (index : Z) (type : option OperandType)
    (buffer : Z) (length : Z) (e : ExecutionBuilder) : Z * ExecutionBuilder :=
  if mStarted e then (ANEURALNETWORKS_BAD_STATE, e)
  else
    let count := count32 (mInputs e) in
    if count <=? index then (ANEURALNETWORKS_BAD_DATA, e)
    else
      let operand := operandAt (inputOperands (mCompilation e)) index in
      if negb (checkDimensionInfo b operand type (buffer =? 0))
      then (ANEURALNETWORKS_BAD_DATA, e)
      else if 4294967295 <? length then (ANEURALNETWORKS_BAD_DATA, e)
      else
        let l := length mod UINT32_MODULUS in
        let '(n, info) :=
          setFromPointer b operand type buffer l (argAt (mInputs e) index) in
        (n, set_mInputs (<[Z.to_nat index := info]> (mInputs e)) e).

(** [ExecutionBuilder::setInputFromMemory].  [offset] and [length] are
    [size_t]: the hardware-buffer test reads them as they are, while
    [validateSize] and [setFromMemory] take [uint32_t] arguments, so the
    values are narrowed at those calls. *)
Definition setInputFromMemory (b : Binder) (index : Z)
    (type : option OperandType) (memory : Memory) (offset length : Z)
    (e : ExecutionBuilder) : Z * ExecutionBuilder :=
  if mStarted e then (ANEURALNETWORKS_BAD_STATE, e)
  else
    let count := count32 (mInputs e) in
    if count <=? index then (ANEURALNETWORKS_BAD_DATA, e)
    else
      let operand := operandAt (inputOperands (mCompilation e)) index in
      if negb (checkDimensionInfo b operand type false)
      then (ANEURALNETWORKS_BAD_DATA, e)
      else if String.eqb (hidlMemoryName b memory) "hardware_buffer"
              && (negb (offset =? 0) || negb (length =? 0))
      then (ANEURALNETWORKS_BAD_DATA, e)
      else if negb (validateSize b memory (offset mod UINT32_MODULUS)
                                 (length mod UINT32_MODULUS))
      then (ANEURALNETWORKS_BAD_DATA, e)
      else
        let '(poolIndex, memories) := memories_add memory (mMemories e) in
        let '(n, info) :=
          setFromMemory b operand type poolIndex (offset mod UINT32_MODULUS)
                        (length mod UINT32_MODULUS)
                        (argAt (mInputs e) index) in
        (n, set_mInputs (<[Z.to_nat index := info]> (mInputs e))
              (set_mMemories memories e)).

(** [ExecutionBuilder::setOutput]. *)
Definition setOutput (b : Binder) (index : Z) (type : option OperandType)
    (buffer : Z) (length : Z) (e : ExecutionBuilder) : Z * ExecutionBuilder :=
  if mStarted e then (ANEURALNETWORKS_BAD_STATE, e)
  else
    let count := count32 (mOutputs e) in
    if count <=? index then (ANEURALNETWORKS_BAD_DATA, e)
    else
      let operand := operandAt (outputOperands (mCompilation e)) index in
      if negb (checkDimensionInfo b operand type true)
      then (ANEURALNETWORKS_BAD_DATA, e)
      else if 4294967295 <? length then (ANEURALNETWORKS_BAD_DATA, e)
      else
        let l := length mod UINT32_MODULUS in
        let '(n, info) :=
          setFromPointer b operand type buffer l (argAt (mOutputs e) index) in
        (n, set_mOutputs (<[Z.to_nat index := info]> (mOutputs e)) e).

(** [ExecutionBuilder::setOutputFromMemory], with the same narrowing of
    [offset] and [length] at the calls of [validateSize] and
    [setFromMemory]. *)
Definition setOutputFromMemory (b : Binder) (index : Z)
    (type : option OperandType) (memory : Memory) (offset length : Z)
    (e : ExecutionBuilder) : Z * ExecutionBuilder :=
  if mStarted e then (ANEURALNETWORKS_BAD_STATE, e)
  else
    let count := count32 (mOutputs e) in
    if count <=? index then (ANEURALNETWORKS_BAD_DATA, e)
    else
      let operand := operandAt (outputOperands (mCompilation e)) index in
      if negb (checkDimensionInfo b operand type true)
      then (ANEURALNETWORKS_BAD_DATA, e)
      else if String.eqb (hidlMemoryName b memory) "hardware_buffer"
              && (negb (offset =? 0) || negb (length =? 0))
      then (ANEURALNETWORKS_BAD_DATA, e)
      else if negb (validateSize b memory (offset mod UINT32_MODULUS)
                                 (length mod UINT32_MODULUS))
      then (ANEURALNETWORKS_BAD_DATA, e)
      else
        let '(poolIndex, memories) := memories_add memory (mMemories e) in
        let '(n, info) :=
          setFromMemory b operand type poolIndex (offset mod UINT32_MODULUS)
                        (length mod UINT32_MODULUS)
                        (argAt (mOutputs e) index) in
        (n, set_mOutputs (<[Z.to_nat index := info]> (mOutputs e))
              (set_mMemories memories e)).

(** [ExecutionBuilder::setMeasureTiming]. *)
Definition setMeasureTiming (measure : bool) (e : ExecutionBuilder)
    : Z * ExecutionBuilder :=
  if negb (mExplicitDeviceList (mCompilation e))
     || negb (length (mDevices (mCompilation e)) =? 1)%nat
  then (ANEURALNETWORKS_BAD_DATA, e)
  else if mStarted e then (ANEURALNETWORKS_BAD_STATE, e)
  else (ANEURALNETWORKS_NO_ERROR, set_mMeasureTiming measure e).

(** A call that either returns or trips a [CHECK] (which aborts the
    process). *)
Inductive Checked (A : Type) : Type :=
| Returns (a : A)
| CheckFailed.
Arguments Returns {A} a.
Arguments CheckFailed {A}.

Definition kNanoPerMicro : Z := 1000.

(** [ExecutionBuilder::getDuration]: the result code and the value of
    [*duration] afterwards ([duration] is its value before the call). *)
Definition getDuration (durationCode : Z) (duration : Z) (e : ExecutionBuilder)
    : Checked (Z * Z) :=
  if negb (mFinished e) then Returns (ANEURALNETWORKS_BAD_STATE, duration)
  else if negb (mMeasureTiming e)
  then Returns (ANEURALNETWORKS_BAD_STATE, UINT64_MAX)
  else
    let convert (microDuration : Z) :=
      Returns (ANEURALNETWORKS_NO_ERROR,
               if microDuration =? UINT64_MAX then UINT64_MAX
               else (kNanoPerMicro * microDuration) mod UINT64_MODULUS) in
    if durationCode =? ANEURALNETWORKS_DURATION_ON_HARDWARE
    then convert (timeOnDevice (mTiming e))
    else if durationCode =? ANEURALNETWORKS_DURATION_IN_DRIVER
    then convert (timeInDriver (mTiming e))
    else CheckFailed.

(** The recorded duration a valid [durationCode] selects. *)
Definition recordedMicros (durationCode : Z) (e : ExecutionBuilder) : Z :=
  if durationCode =? ANEURALNETWORKS_DURATION_ON_HARDWARE
  then timeOnDevice (mTiming e)
  else timeInDriver (mTiming e).

(** "Compiled against exactly one explicitly chosen device". *)
Definition singleExplicitDevice (c : CompilationBuilder) : Prop :=
  mExplicitDeviceList c = true /\ length (mDevices c) = 1%nat.

(** [std::copy(dims.begin(), dims.end(), dimensions)]: the first
    [dims.size()] cells of the caller's buffer are overwritten.  (The
    caller must provide at least that many cells.) *)
Definition copy_into (dims : list Z) (dimensionsBuf : list Z) : list Z :=
  dims ++ drop (length dims) dimensionsBuf.

(** [ExecutionBuilder::getOutputOperandDimensions]: the result code and
    the caller's buffer afterwards. *)
Definition getOutputOperandDimensions (index : Z) (dimensionsBuf : list Z)
    (e : ExecutionBuilder) : Z * list Z :=
  if negb (mFinished e) then (ANEURALNETWORKS_BAD_STATE, dimensionsBuf)
  else
    let count := count32 (mOutputs e) in
    if count <=? index then (ANEURALNETWORKS_BAD_DATA, dimensionsBuf)
    else
      let dims := dimensions (argAt (mOutputs e) index) in
      if (length dims =? 0)%nat then (ANEURALNETWORKS_BAD_DATA, dimensionsBuf)
      else
        (if isSufficient (argAt (mOutputs e) index)
         then ANEURALNETWORKS_NO_ERROR
         else ANEURALNETWORKS_OUTPUT_INSUFFICIENT_SIZE,
         copy_into dims dimensionsBuf).

(** [ExecutionBuilder::getOutputOperandRank]: the result code and [*rank]
    afterwards. *)
Definition getOutputOperandRank (index : Z) (rank : Z) (e : ExecutionBuilder)
    : Z * Z :=
  if negb (mFinished e) then (ANEURALNETWORKS_BAD_STATE, rank)
  else
    let count := count32 (mOutputs e) in
    if count <=? index then (ANEURALNETWORKS_BAD_DATA, rank)
    else
      (if isSufficient (argAt (mOutputs e) index)
       then ANEURALNETWORKS_NO_ERROR
       else ANEURALNETWORKS_OUTPUT_INSUFFICIENT_SIZE,
       count32 (dimensions (argAt (mOutputs e) index))).

(** [ExecutionBuilder::finish]: [CHECK(!mFinished)], then the execution is
    marked finished and the final shapes are reconciled. *)
Definition finish (outputShapes : list OutputShape) (e : ExecutionBuilder)
    : Checked (ErrorStatus * ExecutionBuilder) :=
  if mFinished e then CheckFailed
  else
    let '(ok, e') := updateOutputShapes outputShapes (set_mFinished true e) in
    Returns (if ok then NONE else GENERAL_FAILURE, e').

(* ===================================================================== *)
(** * Part IV -- Step executors, the plan walker and fallback             *)
(* ===================================================================== *)

(** What an [ExecutionCallback] holds once it has been notified. *)
Record ExecutionCallback : Type := mkCallback {
  cb_status : ErrorStatus;
  cb_outputShapes : list OutputShape;
  cb_timing : Timing
}.

(** [StepExecutor]: [mExecutionStep] is [None] for an executor of the
    whole model, and otherwise carries the step's
    [getOutputIndexSubModelToFromModel()] mapping. *)
Record StepExecutor : Type := mkStepExecutor {
  mExecutionStep : option (list nat);
  mModel : ModelHandle;
  mDevice : Device;
  mPreparedModel : option PreparedModel
}.

(** The collaborators of the walker: the plan ([next], [fallback],
    [isSimple], [isSimpleCpu], [makeController]) over a controller state
    [C], the devices ([execute], [prepareModel]), the status conversions
    and the callback object.  [plan_next] and [plan_fallback] return the
    result code, the executor (null is [None]) and the controller
    afterwards. *)
Record Runtime (C : Type) : Type := mkRuntime {
  plan_next : C -> Z * option StepExecutor * C;
  plan_fallback : C -> Z * option StepExecutor * C;
  plan_isSimple : bool;
  plan_isSimpleCpu : bool;
  plan_makeController : ExecutionBuilder -> C;
  execute : StepExecutor -> Z * list OutputShape * Timing;
  prepareModel : Device -> ModelHandle -> Z * option PreparedModel;
  convertResultCodeToErrorStatus : Z -> ErrorStatus;
  convertErrorStatusToResultCode : ErrorStatus -> Z;
  callback_notify : ErrorStatus -> list OutputShape -> Timing -> ExecutionCallback;
  callback_finished : ExecutionCallback -> ErrorStatus -> ErrorStatus;
  partitioningAllowsFallback : Z -> bool;
  syncExecRuntime : bool;
  getModel : ModelHandle
}.
Arguments plan_next {C} _ _.
Arguments plan_fallback {C} _ _.
Arguments plan_isSimple {C} _.
Arguments plan_isSimpleCpu {C} _.
Arguments plan_makeController {C} _ _.
Arguments execute {C} _ _.
Arguments prepareModel {C} _ _ _.
Arguments convertResultCodeToErrorStatus {C} _ _.
Arguments convertErrorStatusToResultCode {C} _ _.
Arguments callback_notify {C} _ _ _ _.
Arguments callback_finished {C} _ _ _.
Arguments partitioningAllowsFallback {C} _ _.
Arguments syncExecRuntime {C} _.
Arguments getModel {C} _.

(** What the walker does, in order: a device run started by
    [StepExecutor::startCompute] (which reports its timing to the
    execution), the entry into either fallback routine, and the
    notification of the completion callback. *)
Inductive Event : Type :=
| EvExecute (executor : StepExecutor) (timing : Timing)
| EvPartialFallback
| EvFullFallback
| EvNotify (status : ErrorStatus) (outputShapes : list OutputShape)
           (timing : Timing).

(** How a run of the walker ends: it returned, a [CHECK] or a null
    executor stopped the process, or the model ran out of iterations. *)
Inductive Outcome : Type :=
| Completed (trace : list Event)
| Crashed (trace : list Event)
| OutOfFuel (trace : list Event).

Definition trace_of (o : Outcome) : list Event :=
  match o with Completed t | Crashed t | OutOfFuel t => t end.

Definition after (evs : list Event) (o : Outcome) : Outcome :=
  match o with
  | Completed t => Completed (evs ++ t)
  | Crashed t => Crashed (evs ++ t)
  | OutOfFuel t => OutOfFuel (evs ++ t)
  end.

(** Recognisers of the two kinds of fallback attempt, and the number of
    events of a kind in a trace. *)
Definition isPartialFallback (ev : Event) : bool :=
  match ev with EvPartialFallback => true | _ => false end.

Definition isFullFallback (ev : Event) : bool :=
  match ev with EvFullFallback => true | _ => false end.

Fixpoint count_events (p : Event -> bool) (tr : list Event) : nat :=
  match tr with
  | [] => O
  | ev :: tr' => ((if p ev then 1 else 0) + count_events p tr')%nat
  end.

Definition isNotify (ev : Event) : bool :=
  match ev with EvNotify _ _ _ => true | _ => false end.

(** The trace ends with the one notification of the completion
    callback. *)
Definition ends_with_notify (tr : list Event) : Prop :=
  exists tr0 status shapes timing,
    tr = tr0 ++ [EvNotify status shapes timing]
    /\ count_events isNotify tr0 = O.

(** No fallback of either kind is attempted in the trace. *)
Definition no_fallback (tr : list Event) : Prop :=
  count_events isPartialFallback tr = O /\ count_events isFullFallback tr = O.

(** [StepExecutor::isCpu]. *)
Definition isCpu (ex : StepExecutor) : bool :=
  bool_decide (mDevice ex = CpuDevice).

(** [StepExecutor::updateOutputShapes(from, to)]: the result flag and the
    table [*to] afterwards. *)
Definition StepExecutor_updateOutputShapes (ex : StepExecutor)
    (from : list OutputShape) (to : list OutputShape)
    : bool * list OutputShape :=
  if (length from =? 0)%nat then (true, to)
  else
    match mExecutionStep ex with
    | Some indexMapping =>
        if negb (length indexMapping <=? length from)%nat then (false, to)
        else step_update_mapped indexMapping from to
    | None =>
        if negb (length from =? length to)%nat then (false, to)
        else step_update_direct 0 from to
    end.

(** Result of [startCompute]: the [CHECK] on the prepared model failed,
    an error code was returned, or a notified callback was handed back
    (with [ANEURALNETWORKS_NO_ERROR]). *)
Inductive Started : Type :=
| StartCheckFailed
| StartError (n : Z)
| StartOk (stepCallback : ExecutionCallback).

(** [StepExecutor::startCompute]. *)
Definition startCompute {C} (rt : Runtime C) (ex : StepExecutor)
    : Started * list Event :=
  match mPreparedModel ex with
  | None => (StartCheckFailed, [])
  | Some _ =>
      let '(n, outputShapes, timing) := execute rt ex in
      if negb (n =? ANEURALNETWORKS_NO_ERROR)
         && negb (n =? ANEURALNETWORKS_OUTPUT_INSUFFICIENT_SIZE)
      then (StartError n, [EvExecute ex timing])
      else
        (StartOk (callback_notify rt (convertResultCodeToErrorStatus rt n)
                                  outputShapes timing),
         [EvExecute ex timing])
  end.

(** [StepExecutor::startComputeOnCpuFallback]: the executor is re-bound
    to the software device and the model is compiled for it. *)
Definition startComputeOnCpuFallback {C} (rt : Runtime C) (ex : StepExecutor)
    : Started * list Event :=
  let '(n, preparedModel) := prepareModel rt CpuDevice (mModel ex) in
  let ex' := mkStepExecutor (mExecutionStep ex) (mModel ex) CpuDevice
                            preparedModel in
  if negb (n =? ANEURALNETWORKS_NO_ERROR) then (StartError n, [])
  else startCompute rt ex'.

(** [cpuFallbackFull]: the whole model on the software device; the
    completion callback is notified on every path that returns. *)
Definition cpuFallbackFull {C} (rt : Runtime C) : Outcome :=
  let executor := mkStepExecutor None (getModel rt) CpuDevice None in
  match startComputeOnCpuFallback rt executor with
  | (StartCheckFailed, evs) => Crashed (EvFullFallback :: evs)
  | (StartError n, evs) =>
      Completed (EvFullFallback :: evs ++
                 [EvNotify (convertResultCodeToErrorStatus rt n) [] kNoTiming])
  | (StartOk fallbackCallback, evs) =>
      Completed (EvFullFallback :: evs ++
                 [EvNotify (cb_status fallbackCallback)
                           (cb_outputShapes fallbackCallback)
                           (cb_timing fallbackCallback)])
  end.

(** The status of a step after its shapes have been reconciled into the
    table (lines "status = getStatus(); if (!updateOutputShapes(...))
    status = GENERAL_FAILURE", which the loop and [cpuFallbackPartial]
    share), with the table afterwards. *)
Definition reconcile (ex : StepExecutor) (cb : ExecutionCallback)
    (outputShapes : list OutputShape) : ErrorStatus * list OutputShape :=
  let '(ok, shapes) :=
    StepExecutor_updateOutputShapes ex (cb_outputShapes cb) outputShapes in
  (if ok then cb_status cb else GENERAL_FAILURE, shapes).

(** Result of [cpuFallbackPartial]: [true] with the controller and the
    table afterwards, or [false] (or a crash) with everything that
    happened up to the end of the run. *)
Inductive PartialResult (C : Type) : Type :=
| StepRecovered (controller : C) (outputShapes : list OutputShape)
                (trace : list Event)
| RunEnded (o : Outcome).
Arguments StepRecovered {C} _ _ _.
Arguments RunEnded {C} _.

(** [cpuFallbackPartial]. *)
Definition cpuFallbackPartial {C} (rt : Runtime C) (controller : C)
    (outputShapes : list OutputShape) : PartialResult C :=
  let '(n, executor, controller') := plan_fallback rt controller in
  if negb (n =? ANEURALNETWORKS_NO_ERROR)
  then RunEnded (after [EvPartialFallback] (cpuFallbackFull rt))
  else
    match executor with
    | None => RunEnded (Crashed [EvPartialFallback])
    | Some ex =>
        if isCpu ex
        then RunEnded (after [EvPartialFallback] (cpuFallbackFull rt))
        else
          match startComputeOnCpuFallback rt ex with
          | (StartCheckFailed, evs) =>
              RunEnded (Crashed (EvPartialFallback :: evs))
          | (StartError _, evs) =>
              RunEnded (after (EvPartialFallback :: evs) (cpuFallbackFull rt))
          | (StartOk fallbackCallback, evs) =>
              let '(status, shapes) :=
                reconcile ex fallbackCallback outputShapes in
              if negb (bool_decide (status = NONE)) then
                if plan_isSimple rt
                   || bool_decide (status = OUTPUT_INSUFFICIENT_SIZE)
                then RunEnded (Completed (EvPartialFallback :: evs ++
                                          [EvNotify status shapes kNoTiming]))
                else RunEnded (after (EvPartialFallback :: evs)
                                     (cpuFallbackFull rt))
              else StepRecovered controller' shapes (EvPartialFallback :: evs)
          end
    end.

(** The three ways in which [cpuFallbackPartial] ends the run: it hands
    over to full-model fallback, it delivers the status of the re-run step
    itself, or the process stops on a missing executor or prepared
    model. *)
Inductive partial_failure {C : Type} (rt : Runtime C) (o : Outcome) : Prop :=
| Escalated (evs : list Event) :
    no_fallback evs ->
    o = after (EvPartialFallback :: evs) (cpuFallbackFull rt) ->
    partial_failure rt o
| Surfaced (evs : list Event) (status : ErrorStatus)
           (shapes : list OutputShape) :
    no_fallback evs ->
    status <> NONE ->
    plan_isSimple rt = true \/ status = OUTPUT_INSUFFICIENT_SIZE ->
    o = Completed (EvPartialFallback :: evs ++ [EvNotify status shapes kNoTiming]) ->
    partial_failure rt o
| NoExecutor (evs : list Event) :
    no_fallback evs ->
    o = Crashed (EvPartialFallback :: evs) ->
    partial_failure rt o.

(** The variables of the step loop. *)
Record Walker (C : Type) : Type := mkWalker {
  w_controller : C;
  w_outputShapes : list OutputShape;
  w_timing : Timing
}.
Arguments mkWalker {C} _ _ _.
Arguments w_controller {C} _.
Arguments w_outputShapes {C} _.
Arguments w_timing {C} _.

(** One pass through the body of [while (true)]: either [continue] (or
    fall through) with the new loop variables, or [return]. *)
Inductive Iteration (C : Type) : Type :=
| Continue (w : Walker C) (trace : list Event)
| Return (o : Outcome).
Arguments Continue {C} _ _.
Arguments Return {C} _.

(** "if (cpuFallbackPartial(...)) continue; else return;", which the loop
    has on the two paths that fall back for one step; [evs] is what the
    iteration did before. *)
Definition viaPartialFallback {C} (rt : Runtime C) (controller : C)
    (outputShapes : list OutputShape) (timing : Timing) (evs : list Event)
    : Iteration C :=
  match cpuFallbackPartial rt controller outputShapes with
  | StepRecovered controller' shapes tr =>
      Continue (mkWalker controller' shapes timing) (evs ++ tr)
  | RunEnded o => Return (after evs o)
  end.

(** The body of the loop of [asyncStartComputePartitioned]. *)
Definition loopBody {C} (rt : Runtime C) (allowFallback : bool) (w : Walker C)
    : Iteration C :=
  let '(n, executor, controller) := plan_next rt (w_controller w) in
  if negb (n =? ANEURALNETWORKS_NO_ERROR) then
    if allowFallback then Return (cpuFallbackFull rt)
    else Return (Completed
                   [EvNotify (convertResultCodeToErrorStatus rt n) [] kNoTiming])
  else
    match executor with
    | None =>
        Return (Completed [EvNotify NONE (w_outputShapes w) (w_timing w)])
    | Some ex =>
        match startCompute rt ex with
        | (StartCheckFailed, evs) => Return (Crashed evs)
        | (StartError n, evs) =>
            if allowFallback
            then viaPartialFallback rt controller (w_outputShapes w)
                                    (w_timing w) evs
            else Return (Completed
                           (evs ++ [EvNotify (convertResultCodeToErrorStatus rt n)
                                             [] kNoTiming]))
        | (StartOk stepCallback, evs) =>
            let '(status, shapes) :=
              reconcile ex stepCallback (w_outputShapes w) in
            if bool_decide (status = NONE)
            then Continue (mkWalker controller shapes (cb_timing stepCallback))
                          evs
            else if allowFallback
                    && negb (bool_decide (status = OUTPUT_INSUFFICIENT_SIZE))
            then viaPartialFallback rt controller shapes (w_timing w) evs
            else if bool_decide (status = OUTPUT_INSUFFICIENT_SIZE)
            then Return (Completed (evs ++ [EvNotify status shapes kNoTiming]))
            else Return (Completed (evs ++ [EvNotify status [] kNoTiming]))
        end
    end.

(** The loop itself; [fuel] bounds the number of iterations. *)
Fixpoint stepLoop {C} (rt : Runtime C) (allowFallback : bool) (fuel : nat)
    (w : Walker C) : Outcome :=
  match fuel with
  | O => OutOfFuel []
  | S fuel' =>
      match loopBody rt allowFallback w with
      | Continue w' evs => after evs (stepLoop rt allowFallback fuel' w')
      | Return o => o
      end
  end.

(** [asyncStartComputePartitioned]. *)
Definition asyncStartComputePartitioned {C} (rt : Runtime C)
    (e : ExecutionBuilder) (controller : C) (allowFallback : bool)
    (fuel : nat) : Outcome :=
  let allowFallback := allowFallback && negb (plan_isSimpleCpu rt) in
  stepLoop rt allowFallback fuel
           (mkWalker controller (initializeOutputShapes e) kNoTiming).

(* ===================================================================== *)
(** * Part V -- [compute]                                                 *)
(* ===================================================================== *)

(** Modelled from the spec: [ExecutionBuilder::reportTiming] (declared in
    the header, which is not part of this file): starting a step
    "forwards timing to the parent Execution". *)
Definition reportTiming (timing : Timing) (e : ExecutionBuilder)
    : ExecutionBuilder :=
  set_mTiming timing e.

(** The effect of the walker's events on the execution: a device run
    reports its timing, and the notification of the completion callback
    runs the [finish] handler installed by [compute] ([setOnFinish]). The
    second component is the notified callback. *)
Definition applyEvent {C} (rt : Runtime C) (ev : Event)
    (s : ExecutionBuilder * option ExecutionCallback)
    : Checked (ExecutionBuilder * option ExecutionCallback) :=
  match ev with
  | EvExecute _ timing => Returns (reportTiming timing (fst s), snd s)
  | EvNotify status outputShapes timing =>
      let cb := callback_notify rt status outputShapes timing in
      match finish (cb_outputShapes cb) (fst s) with
      | CheckFailed => CheckFailed
      | Returns (finished, e') =>
          Returns (e', Some (mkCallback (callback_finished rt cb finished)
                                        (cb_outputShapes cb) (cb_timing cb)))
      end
  | EvPartialFallback | EvFullFallback => Returns s
  end.

Fixpoint applyEvents {C} (rt : Runtime C) (tr : list Event)
    (s : ExecutionBuilder * option ExecutionCallback)
    : Checked (ExecutionBuilder * option ExecutionCallback) :=
  match tr with
  | [] => Returns s
  | ev :: tr' =>
      match applyEvent rt ev s with
      | CheckFailed => CheckFailed
      | Returns s' => applyEvents rt tr' s'
      end
  end.

(** How a call of [compute] ends. *)
Inductive ComputeResult : Type :=
| ComputeReturns (n : Z) (e : ExecutionBuilder)
| ComputeCrashed
| ComputeDiverges.

Definition isUnspecified (p : ModelArgumentInfo) : bool :=
  match state p with UNSPECIFIED => true | _ => false end.

(** [ExecutionBuilder::compute].  [synchronous] is
    [synchronizationCallback == nullptr].  On the asynchronous path with a
    worker thread the call returns as soon as the thread is created; the
    walker then runs beside the caller and its effects are not part of the
    state returned here. *)
Definition compute {C} (rt : Runtime C) (synchronous : bool) (fuel : nat)
    (e : ExecutionBuilder) : ComputeResult :=
  if mStarted e then ComputeReturns ANEURALNETWORKS_BAD_STATE e
  else if existsb isUnspecified (mInputs e)
  then ComputeReturns ANEURALNETWORKS_BAD_DATA e
  else if existsb isUnspecified (mOutputs e)
  then ComputeReturns ANEURALNETWORKS_BAD_DATA e
  else
    let e1 := set_mStarted true e in
    let allowFallback :=
      partitioningAllowsFallback rt (mPartitioning (mCompilation e1)) in
    let controller := plan_makeController rt e1 in
    let walk :=
      asyncStartComputePartitioned rt e1 controller allowFallback fuel in
    if synchronous then
      match walk with
      | Completed tr =>
          match applyEvents rt tr (e1, None) with
          | Returns (e2, Some cb) =>
              ComputeReturns
                (convertErrorStatusToResultCode rt (cb_status cb))
                (if mMeasureTiming e2 then set_mTiming (cb_timing cb) e2
                 else e2)
          | Returns (_, None) => ComputeDiverges
          | CheckFailed => ComputeCrashed
          end
      | Crashed _ => ComputeCrashed
      | OutOfFuel _ => ComputeDiverges
      end
    else if syncExecRuntime rt then
      match walk with
      | Completed tr =>
          match applyEvents rt tr (e1, None) with
          | Returns (e2, _) => ComputeReturns ANEURALNETWORKS_NO_ERROR e2
          | CheckFailed => ComputeCrashed
          end
      | Crashed _ => ComputeCrashed
      | OutOfFuel _ => ComputeDiverges
      end
    else ComputeReturns ANEURALNETWORKS_NO_ERROR e1.

(* ===================================================================== *)
(** * Part VI -- Concrete configurations used by the examples             *)
(* ===================================================================== *)

(** A compilation for one explicitly chosen driver with one input and one
    output, both of shape 2x3. *)
Definition compilation_one_device : CompilationBuilder :=
  {| mExplicitDeviceList := true;
     mDevices := [Driver 1];
     mPartitioning := 0;
     inputOperands := [mkOperand 3 [2; 3]];
     outputOperands := [mkOperand 3 [2; 3]] |}.

(** A compilation over the device list chosen by the runtime. *)
Definition compilation_any_device : CompilationBuilder :=
  {| mExplicitDeviceList := false;
     mDevices := [Driver 1; CpuDevice];
     mPartitioning := 2;
     inputOperands := [mkOperand 3 [2; 3]];
     outputOperands := [mkOperand 3 [2; 3]] |}.

Definition boundArg (dims : list Z) (sufficient : bool) : ModelArgumentInfo :=
  {| state := POINTER; dimensions := dims; isSufficient := sufficient;
     buffer := 4096; locationAndLength := mkDataLocation 0 0 24 |}.

(** An execution whose single input and output are bound. *)
Definition execution_bound (c : CompilationBuilder) : ExecutionBuilder :=
  {| mCompilation := c;
     mInputs := [boundArg [2; 3] true];
     mOutputs := [boundArg [2; 0] true];
     mMemories := [];
     mMeasureTiming := false;
     mTiming := kNoTiming;
     mStarted := false;
     mFinished := false |}.

(** The same execution once started, and once finished. *)
Definition execution_started : ExecutionBuilder :=
  set_mStarted true (execution_bound compilation_one_device).

Definition execution_finished (outs : list ModelArgumentInfo) (measure : bool)
    (timing : Timing) : ExecutionBuilder :=
  {| mCompilation := compilation_one_device;
     mInputs := [boundArg [2; 3] true];
     mOutputs := outs;
     mMemories := [];
     mMeasureTiming := measure;
     mTiming := timing;
     mStarted := true;
     mFinished := true |}.

(** Collaborators of the binding calls that accept everything and record
    the pointer or the pool in the binding. *)
Definition binder_accepting : Binder :=
  {| isExtensionOperandType := fun _ => false;
     getExtensionOperandTypeInfo := fun _ => None;
     validateOperandType := fun _ _ _ => ANEURALNETWORKS_NO_ERROR;
     isTensorType := fun _ => true;
     tensorHasUnspecifiedDimensions :=
       fun o => existsb (fun d => d =? 0) (op_dimensions o);
     hidlMemoryName := fun _ => "ashmem"%string;
     validateSize := fun _ _ _ => true;
     setFromPointer := fun o _ buf len a =>
       (ANEURALNETWORKS_NO_ERROR,
        mkArg POINTER (op_dimensions o) (isSufficient a) buf
              (mkDataLocation 0 0 len));
     setFromMemory := fun o _ pool off len a =>
       (ANEURALNETWORKS_NO_ERROR,
        mkArg MEMORY (op_dimensions o) (isSufficient a) 0
              (mkDataLocation pool off len)) |}.

(** The status conversion of the runtime on the codes used below. *)
Definition convert_code (n : Z) : ErrorStatus :=
  if n =? 0 then NONE
  else if n =? 8 then OUTPUT_INSUFFICIENT_SIZE
  else if n =? 9 then DEVICE_UNAVAILABLE
  else if (n =? 4) || (n =? 3) then INVALID_ARGUMENT
  else GENERAL_FAILURE.

Definition convert_status (s : ErrorStatus) : Z :=
  match s with
  | NONE => 0
  | DEVICE_UNAVAILABLE => 9
  | OUTPUT_INSUFFICIENT_SIZE => 8
  | INVALID_ARGUMENT => 4
  | _ => 5
  end.

(** A two-step plan over a three-output model: the controller is the
    index of the next step; step [k] runs on driver [k+1] and writes the
    outputs given by its index mapping. *)
Definition step_executor (k : nat) : StepExecutor :=
  {| mExecutionStep := Some (if (k =? 0)%nat then [0%nat; 1%nat] else [2%nat]);
     mModel := S k;
     mDevice := Driver (S k);
     mPreparedModel := Some (10 + k)%nat |}.

Definition two_step_next (c : nat) : Z * option StepExecutor * nat :=
  if (c <? 2)%nat then (0, Some (step_executor c), S c) else (0, None, c).

Definition two_step_fallback (c : nat) : Z * option StepExecutor * nat :=
  match c with
  | O => (5, None, c)
  | S k => (0, Some (step_executor k), c)
  end.

(** A runtime over the two-step plan; [dev] is what the devices answer
    to each executor. *)
Definition runtime_two_steps (simple : bool)
    (dev : StepExecutor -> Z * list OutputShape * Timing) : Runtime nat :=
  {| plan_next := two_step_next;
     plan_fallback := two_step_fallback;
     plan_isSimple := simple;
     plan_isSimpleCpu := false;
     plan_makeController := fun _ => O;
     execute := dev;
     prepareModel := fun _ m => (0, Some (100 + m)%nat);
     convertResultCodeToErrorStatus := convert_code;
     convertErrorStatusToResultCode := convert_status;
     callback_notify := mkCallback;
     callback_finished := fun cb s =>
       if bool_decide (s = NONE) then cb_status cb else s;
     partitioningAllowsFallback := fun p => Z.odd p;
     syncExecRuntime := true;
     getModel := O |}.

Definition shape (dims : list Z) : OutputShape := mkOutputShape dims true.

(** What the drivers and the software device answer in the two-step
    plan: [driver0] and [driver1] are the answers of the drivers to the
    two steps, [cpu0] and [cpu1] those of the software device to the same
    steps, and [cpuFull] its answer to the whole model. *)
Definition devices (driver0 driver1 cpu0 cpu1 cpuFull : Z * list OutputShape * Timing)
    (ex : StepExecutor) : Z * list OutputShape * Timing :=
  match mDevice ex, mModel ex with
  | Driver _, 1%nat => driver0
  | Driver _, _ => driver1
  | CpuDevice, 1%nat => cpu0
  | CpuDevice, 2%nat => cpu1
  | CpuDevice, _ => cpuFull
  end.

(** A compilation of a model with one input and three outputs, to be run
    by the two-step plan, and an execution of it with every slot bound. *)
Definition compilation_partitioned : CompilationBuilder :=
  {| mExplicitDeviceList := false;
     mDevices := [Driver 1; Driver 2; CpuDevice];
     mPartitioning := 1;
     inputOperands := [mkOperand 3 [2; 3]];
     outputOperands := [mkOperand 3 [2; 0]; mkOperand 3 [0]; mkOperand 3 [6]] |}.

Definition execution_partitioned : ExecutionBuilder :=
  {| mCompilation := compilation_partitioned;
     mInputs := [boundArg [2; 3] true];
     mOutputs := [boundArg [2; 0] true; boundArg [0] true; boundArg [6] true];
     mMemories := [];
     mMeasureTiming := false;
     mTiming := kNoTiming;
     mStarted := false;
     mFinished := false |}.

(** Answers of devices that work: step 0 produces outputs 0 and 1, step 1
    produces output 2. *)
Definition answer_step0 : Z * list OutputShape * Timing :=
  (0, [shape [2; 3]; shape [4]], mkTiming 50 70).
Definition answer_step1 : Z * list OutputShape * Timing :=
  (0, [shape [6]], mkTiming 10 20).
Definition answer_full : Z * list OutputShape * Timing :=
  (0, [shape [2; 3]; shape [4]; shape [6]], kNoTiming).

Definition devices_working : StepExecutor -> Z * list OutputShape * Timing :=
  devices answer_step0 answer_step1 answer_step0 answer_step1 answer_full.

(** Step 0 runs, but its second output does not fit the caller's buffer. *)
Definition answer_step0_insufficient : Z * list OutputShape * Timing :=
  (8, [shape [2; 3]; mkOutputShape [4] false], kNoTiming).

(** Step 0 answers with a first output of shape 5x3, against the bound
    2x?. *)
Definition answer_step0_incompatible : Z * list OutputShape * Timing :=
  (8, [shape [5; 3]; shape [4]], kNoTiming).

(** The driver of a step is gone. *)
Definition answer_unavailable : Z * list OutputShape * Timing :=
  (9, [], kNoTiming).

(** The software device ran the step and reports a general failure. *)
Definition callback_general_failure : ExecutionCallback :=
  mkCallback GENERAL_FAILURE [] kNoTiming.

(** Step [k] once re-bound to the software device by
    [startComputeOnCpuFallback]. *)
Definition step_executor_on_cpu (k : nat) : StepExecutor :=
  {| mExecutionStep := mExecutionStep (step_executor k);
     mModel := S k;
     mDevice := CpuDevice;
     mPreparedModel := Some (100 + S k)%nat |}.

(** The whole model on the software device, as [cpuFallbackFull] runs
    it. *)
Definition full_executor_on_cpu : StepExecutor :=
  {| mExecutionStep := None;
     mModel := O;
     mDevice := CpuDevice;
     mPreparedModel := Some 100%nat |}.

(** Runtimes over the two-step plan: step 0 does not fit the caller's
    buffer on its driver; and the driver of step 0 is gone while the
    software device finds the buffer too small. *)
Definition runtime_insufficient : Runtime nat :=
  runtime_two_steps false
    (devices answer_step0_insufficient answer_step1
             answer_step0 answer_step1 answer_full).

Definition runtime_insufficient_on_cpu : Runtime nat :=
  runtime_two_steps false
    (devices answer_unavailable answer_step1
             answer_step0_insufficient answer_step1 answer_full).

(** The driver of step 0 is gone and the software device answers the
    step with a first output of shape 5x3 (against the bound 2x?), in a
    plan that is compound ([simple = false]) or simple. *)
Definition answer_step0_wrong_shape : Z * list OutputShape * Timing :=
  (0, [shape [5; 3]; shape [4]], kNoTiming).

Definition runtime_wrong_shape_on_cpu (simple : bool) : Runtime nat :=
  runtime_two_steps simple
    (devices answer_unavailable answer_step1
             answer_step0_wrong_shape answer_step1 answer_full).

(** The table after step 0 has reported its two outputs. *)
Definition table_after_step0 : list OutputShape :=
  [shape [2; 3]; mkOutputShape [4] false; shape [6]].

(** The walker's variables at the start of a run of the two-step plan. *)
Definition walker_start : Walker nat :=
  mkWalker O (initializeOutputShapes execution_partitioned) kNoTiming.

(** A finished execution with two outputs: a 2x? tensor still to be
    refined and a vector of fixed length 3. *)
Definition two_outputs : ExecutionBuilder :=
  execution_finished [boundArg [2; 0] true; boundArg [3] true] false kNoTiming.

(* ===================================================================== *)
(** * Part VI-b -- Relations and configurations for the further results   *)
(* ===================================================================== *)

(** Slot by slot, the dimensions of [new] are an update of those of
    [old]. *)
Definition shapes_refine (old new : list OutputShape) : Prop :=
  Forall2 (fun a b => isUpdatable (os_dimensions a) (os_dimensions b) = true)
          old new.

(** The extension information [checkDimensionInfo] hands to
    [validateOperandType]: none for a type that is not an extension type,
    the registered one otherwise; the outer [None] is a failed lookup. *)
Definition typeInformation (b : Binder) (operand : Operand)
    : option (option nat) :=
  if isExtensionOperandType b (op_type operand)
  then match getExtensionOperandTypeInfo b (op_type operand) with
       | Some info => Some (Some info)
       | None => None
       end
  else Some None.

(** A binding with everything but the dimensions and the sufficiency
    flag, which [updateOutputShapes] overwrites. *)
Definition sameBinding (a a' : ModelArgumentInfo) : Prop :=
  state a' = state a /\ buffer a' = buffer a
  /\ locationAndLength a' = locationAndLength a.

(** What a notification of the completion callback carries in a run
    that stays within the plan, relative to the table [T0] the walker
    started with: no shapes or an update of [T0]; and a timing only with
    success. *)
Definition notification_ok (T0 : list OutputShape) (ev : Event) : Prop :=
  match ev with
  | EvNotify status shapes timing =>
      (shapes = [] \/ shapes_refine T0 shapes)
      /\ (timing <> kNoTiming -> status = NONE)
  | _ => True
  end.

(** The run came to an end within the iterations it was given. *)
Definition ended (o : Outcome) : Prop :=
  match o with
  | OutOfFuel _ => False
  | _ => True
  end.


(** ** The operation resolver ([common/OperationResolver.cpp]) *)

(** [OperationRegistration], as far as the resolver reads it: [reg_type]
    is the [int32_t] value of the registration's [OperationType]. *)
Record OperationRegistration : Type := mkRegistration {
  reg_type : Z;
  reg_name : string
}.

(** [OperationResolver::findOperation] over the table [mRegistrations],
    which has one cell per operation type below
    [kNumberOfOperationTypes]; a null cell is [None]. *)
Definition findOperation (kNumberOfOperationTypes : Z) (operationType : Z)
    (mRegistrations : list (option OperationRegistration))
    : option OperationRegistration :=
  let index := operationType in
  if (index <? 0) || (kNumberOfOperationTypes <=? index) then None
  else match mRegistrations !! Z.to_nat index with
       | Some cell => cell
       | None => None
       end.

(** [OperationResolver::registerOperation]: the four [CHECK]s, then the
    assignment; a null registration is [None]. *)
Definition registerOperation (kNumberOfOperationTypes : Z)
    (operationRegistration : option OperationRegistration)
    (mRegistrations : list (option OperationRegistration))
    : Checked (list (option OperationRegistration)) :=
  match operationRegistration with
  | None => CheckFailed
  | Some r =>
      let index := reg_type r in
      if negb (0 <=? index) then CheckFailed
      else if negb (index <? kNumberOfOperationTypes) then CheckFailed
      else match mRegistrations !! Z.to_nat index with
           | Some (Some _) => CheckFailed
           | _ => Returns (<[Z.to_nat index := Some r]> mRegistrations)
           end
  end.

(** The calls of [registerOperation] that the constructor
    [OperationResolver::OperationResolver] makes one after the other;
    [registrations] are the results of [register_ABS()],
    [register_AXIS_ALIGNED_BBOX_TRANSFORM()], ... in that order. *)
Fixpoint registerOperations (kNumberOfOperationTypes : Z)
    (registrations : list (option OperationRegistration))
    (mRegistrations : list (option OperationRegistration))
    : Checked (list (option OperationRegistration)) :=
  match registrations with
  | [] => Returns mRegistrations
  | r :: registrations' =>
      match registerOperation kNumberOfOperationTypes r mRegistrations with
      | Returns mRegistrations' =>
          registerOperations kNumberOfOperationTypes registrations'
                             mRegistrations'
      | CheckFailed => CheckFailed
      end
  end.

(** The table of a resolver before any registration. *)
Definition noRegistrations (kNumberOfOperationTypes : Z)
    : list (option OperationRegistration) :=
  replicate (Z.to_nat kNumberOfOperationTypes) None.

(** Three of the registrations of the constructor, with the type codes
    of [OperationTypes.h]. *)
Definition registration_ABS : OperationRegistration := mkRegistration 38 "ABS".
Definition registration_EQUAL : OperationRegistration := mkRegistration 48 "EQUAL".
Definition registration_SQRT : OperationRegistration := mkRegistration 88 "SQRT".


(** The operation types of a list of registrations, nulls left out. *)
Definition registeredTypes (registrations : list (option OperationRegistration))
    : list Z :=
  omap (fun x : option OperationRegistration => reg_type <$> x) registrations.

(** A registration that [registerOperation] can accept at all: not null
    and of a type below [kNumberOfOperationTypes]. *)
Definition registrable (kNumberOfOperationTypes : Z)
    (x : option OperationRegistration) : Prop :=
  exists r, x = Some r /\ 0 <= reg_type r < kNumberOfOperationTypes.


(** Step 0 reports an insufficient output on its driver together with a
    shape that does not reconcile (5x3 against the bound 2x?), and the
    software device runs the step well. *)
Definition runtime_insufficient_wrong_shape : Runtime nat :=
  runtime_two_steps false
    (devices answer_step0_incompatible answer_step1
             answer_step0 answer_step1 answer_full).

(** A new execution of the one-device compilation: nothing is bound. *)
Definition execution_unbound : ExecutionBuilder :=
  newExecution compilation_one_device.

(* ===================================================================== *)
(** * Part VII -- Properties of shape reconciliation                      *)
(* ===================================================================== *)

Section Reconciliation.

Implicit Types to from : list Z.

(** The loop accepts exactly the pairs in which every fixed position of
    [to] is repeated by [from]. *)
Lemma isUpdatable_loop_true to :
  forall from, length to = length from ->
    isUpdatable_loop to from = true <->
    (forall (i : nat) (t : Z), to !! i = Some t -> t <> 0 -> from !! i = Some t).
Proof.
  induction to as [|t to IH]; intros [|f from] Hlen; simpl in Hlen; try lia.
  - split; [intros _ i t H | reflexivity]. destruct i; discriminate H.
  - simpl. destruct (Z.eqb_spec t f) as [->|Hne]; simpl.
    + rewrite IH by lia. split.
      * intros H [|i] u Hu Hnz; [exact Hu | exact (H i u Hu Hnz)].
      * intros H i u Hu Hnz. exact (H (S i) u Hu Hnz).
    + destruct (Z.eqb_spec t 0) as [->|Hnz].
      * rewrite IH by lia. split.
        -- intros H [|i] u Hu Hu0; simpl in *.
           ++ congruence.
           ++ exact (H i u Hu Hu0).
        -- intros H i u Hu Hu0. exact (H (S i) u Hu Hu0).
      * split; [discriminate|]. intros H.
        specialize (H O t eq_refl Hnz). simpl in H. congruence.
Qed.

Lemma isUpdatable_empty from : isUpdatable [] from = true.
Proof. reflexivity. Qed.

End Reconciliation.

(** C1. For dimension vectors [to] and [from] of equal rank,
    [isUpdatable to from] is [true] if and only if every position [i] with
    [to[i] != 0] has [to[i] = from[i]]; and when [to] is empty the result is
    [true] for every [from], whatever its rank. *)
Theorem isUpdatable_iff (to from : list Z) :
  length to = length from ->
  (isUpdatable to from = true <->
   forall (i : nat) (t : Z), to !! i = Some t -> t <> 0 -> from !! i = Some t)
  /\ (forall from' : list Z, isUpdatable [] from' = true).
Proof.
  intros Hlen. split; [|intros from'; reflexivity].
  unfold isUpdatable. destruct to as [|t to].
  - simpl. split; [intros _ i u H | reflexivity]. destruct i; discriminate H.
  - replace (length (t :: to) =? 0)%nat with false by reflexivity.
    rewrite Hlen, Nat.eqb_refl. simpl negb. cbv iota.
    apply isUpdatable_loop_true. exact Hlen.
Qed.

Lemma isUpdatable_iff_witness :
  length [2; 0; 5] = length [2; 7; 5] /\
  ((isUpdatable [2; 0; 5] [2; 7; 5] = true <->
    forall (i : nat) (t : Z),
      [2; 0; 5] !! i = Some t -> t <> 0 -> [2; 7; 5] !! i = Some t)
   /\ (forall from' : list Z, isUpdatable [] from' = true)).
Proof.
  split; [reflexivity | apply (isUpdatable_iff [2; 0; 5] [2; 7; 5]); reflexivity].
Defined.

(** A fixed dimension that differs is rejected, an unspecified one is
    refined. *)
Example isUpdatable_rejects : isUpdatable [2; 3] [2; 4] = false.
Proof. reflexivity. Qed.

Example isUpdatable_refines : isUpdatable [2; 0] [2; 4] = true.
Proof. reflexivity. Qed.

Section UpdateOutputShapes.

Implicit Types (e : ExecutionBuilder) (shapes : list OutputShape).

Lemma outputs_updatable_true outs :
  forall shapes, length outs = length shapes ->
    outputs_updatable outs shapes = true <-> all_updatable outs shapes.
Proof.
  unfold all_updatable.
  induction outs as [|o outs IH]; intros [|s shapes] Hlen;
    simpl in Hlen; try lia; simpl.
  - split; [constructor | reflexivity].
  - destruct (isUpdatable (dimensions o) (os_dimensions s)) eqn:Hu.
    + rewrite IH by lia. split.
      * intros H. constructor; assumption.
      * intros H. inversion H; subst; assumption.
    + split; [discriminate|]. intros H. inversion H; subst. congruence.
Qed.

End UpdateOutputShapes.

(** C8. [ExecutionBuilder::updateOutputShapes] is atomic.  A non-empty
    proposal succeeds exactly when it has as many shapes as there are
    outputs and every stored dimension vector is updatable by the proposed
    one; then every output takes the proposed dimensions and sufficiency.
    Whenever the call returns [false] the execution is the one it was
    called on, and an empty proposal returns [true] and changes nothing. *)
Theorem updateOutputShapes_atomic (shapes : list OutputShape) (e : ExecutionBuilder) :
  (fst (updateOutputShapes shapes e) = false ->
   snd (updateOutputShapes shapes e) = e)
  /\ (shapes = [] -> updateOutputShapes shapes e = (true, e))
  /\ (shapes <> [] ->
      (fst (updateOutputShapes shapes e) = true <->
       length shapes = length (mOutputs e) /\ all_updatable (mOutputs e) shapes))
  /\ (shapes <> [] -> fst (updateOutputShapes shapes e) = true ->
      snd (updateOutputShapes shapes e)
      = set_mOutputs (outputs_assign (mOutputs e) shapes) e).
Proof.
  unfold updateOutputShapes.
  destruct shapes as [|s shapes].
  - simpl. repeat split; intros; try reflexivity; congruence.
  - replace (length (s :: shapes) =? 0)%nat with false by reflexivity.
    destruct (Nat.eqb_spec (length (s :: shapes)) (length (mOutputs e)))
      as [Hlen|Hlen]; simpl negb; cbv iota.
    + pose proof (outputs_updatable_true (mOutputs e) (s :: shapes)
                    (eq_sym Hlen)) as Hiff.
      destruct (outputs_updatable (mOutputs e) (s :: shapes));
        simpl negb; cbv iota; simpl fst; simpl snd.
      * split; [discriminate|]. split; [discriminate|].
        split; [|reflexivity].
        intros _. split; [intros _; split; [exact Hlen | apply Hiff; reflexivity]
                         | reflexivity].
      * split; [reflexivity|]. split; [discriminate|].
        split; [|discriminate].
        intros _. split; [discriminate|].
        intros [_ H]. apply Hiff in H. discriminate H.
    + simpl fst; simpl snd.
      split; [reflexivity|]. split; [discriminate|].
      split; [|discriminate].
      intros _. split; [discriminate|].
      intros [H _]. contradiction.
Qed.

(** A proposal that would change the fixed dimension 3 of the second
    output is rejected, and the first output is not refined either. *)
Lemma updateOutputShapes_atomic_witness :
  fst (updateOutputShapes [shape [2; 4]; shape [9]] two_outputs) = false /\
  snd (updateOutputShapes [shape [2; 4]; shape [9]] two_outputs) = two_outputs /\
  updateOutputShapes [] two_outputs = (true, two_outputs) /\
  snd (updateOutputShapes [shape [2; 4]; shape [3]] two_outputs)
  = set_mOutputs
      (outputs_assign (mOutputs two_outputs) [shape [2; 4]; shape [3]])
      two_outputs.
Proof.
  pose proof (updateOutputShapes_atomic [shape [2; 4]; shape [9]] two_outputs)
    as (Hfalse & _).
  pose proof (updateOutputShapes_atomic [] two_outputs) as (_ & Hempty & _).
  pose proof (updateOutputShapes_atomic [shape [2; 4]; shape [3]] two_outputs)
    as (_ & _ & _ & Hassign).
  split; [reflexivity|].
  split; [apply Hfalse; reflexivity|].
  split; [apply Hempty; reflexivity|].
  apply Hassign; [discriminate | reflexivity].
Defined.

(* ===================================================================== *)
(** * Part VIII -- Properties of the binding calls and result queries     *)
(* ===================================================================== *)

Section StartedExecution.

Context {C : Type} (rt : Runtime C) (b : Binder).






(** Nothing the walker does to the execution clears [mStarted]. *)
Lemma updateOutputShapes_mStarted shapes e :
  mStarted (snd (updateOutputShapes shapes e)) = mStarted e.
Proof.
  unfold updateOutputShapes.
  repeat match goal with |- context [if ?c then _ else _] => destruct c end;
    reflexivity.
Qed.




End StartedExecution.




(** The first [compute] above returns success with the outputs refined to
    the shapes the two steps reported. *)
Example compute_two_steps :
  exists e' : ExecutionBuilder,
    compute (runtime_two_steps false devices_working) true 3
            execution_partitioned
    = ComputeReturns ANEURALNETWORKS_NO_ERROR e'
    /\ map dimensions (mOutputs e') = [[2; 3]; [4]; [6]]
    /\ mFinished e' = true.
Proof. eexists. split; [vm_compute; reflexivity|]. split; reflexivity. Qed.

(** A [compute] rejected for an unbound slot does not start the
    execution. *)
Example compute_unbound_slot :
  compute (runtime_two_steps false devices_working) true 3
          (newExecution compilation_partitioned)
  = ComputeReturns ANEURALNETWORKS_BAD_DATA
                   (newExecution compilation_partitioned).
Proof. reflexivity. Qed.

(** The truncated count never exceeds the number of slots. *)
Lemma count32_le {A : Type} (v : list A) : count32 v <= Z.of_nat (length v).
Proof.
  unfold count32, UINT32_MODULUS. apply Z.mod_le; lia.
Qed.

Lemma count32_leb {A : Type} (v : list A) (index : Z) :
  Z.of_nat (length v) <= index -> (count32 v <=? index) = true.
Proof. intros H. pose proof (count32_le v). apply Z.leb_le. lia. Qed.

(** C5, as the code has it.  A binding call on an execution that has not
    started, with a slot index at or beyond the number of declared inputs
    (outputs), returns [ANEURALNETWORKS_BAD_DATA] -- the code of every
    other invalid argument -- and leaves the execution as it was; after
    the execution has finished, [getOutputOperandDimensions] and
    [getOutputOperandRank] with an output index out of range return
    [ANEURALNETWORKS_BAD_DATA] too and write nothing. *)
Theorem out_of_range_index_is_bad_data (b : Binder) (e : ExecutionBuilder)
    (index : Z) :
  (mStarted e = false -> Z.of_nat (length (mInputs e)) <= index ->
   (forall type buffer length,
       setInput b index type buffer length e = (ANEURALNETWORKS_BAD_DATA, e))
   /\ (forall type memory offset length,
          setInputFromMemory b index type memory offset length e
          = (ANEURALNETWORKS_BAD_DATA, e)))
  /\ (mStarted e = false -> Z.of_nat (length (mOutputs e)) <= index ->
      (forall type buffer length,
          setOutput b index type buffer length e = (ANEURALNETWORKS_BAD_DATA, e))
      /\ (forall type memory offset length,
             setOutputFromMemory b index type memory offset length e
             = (ANEURALNETWORKS_BAD_DATA, e)))
  /\ (mFinished e = true -> Z.of_nat (length (mOutputs e)) <= index ->
      (forall dimensionsBuf,
          getOutputOperandDimensions index dimensionsBuf e
          = (ANEURALNETWORKS_BAD_DATA, dimensionsBuf))
      /\ (forall rank,
             getOutputOperandRank index rank e = (ANEURALNETWORKS_BAD_DATA, rank))).
Proof.
  split; [|split]; intros Hs Hidx; apply count32_leb in Hidx; split; intros.
  - unfold setInput. rewrite Hs, Hidx. reflexivity.
  - unfold setInputFromMemory. rewrite Hs, Hidx. reflexivity.
  - unfold setOutput. rewrite Hs, Hidx. reflexivity.
  - unfold setOutputFromMemory. rewrite Hs, Hidx. reflexivity.
  - unfold getOutputOperandDimensions. rewrite Hs, Hidx. reflexivity.
  - unfold getOutputOperandRank. rewrite Hs, Hidx. reflexivity.
Qed.

Lemma out_of_range_index_is_bad_data_witness :
  setInput binder_accepting 1 None 4096 24
           (execution_bound compilation_one_device)
  = (ANEURALNETWORKS_BAD_DATA, execution_bound compilation_one_device)
  /\ setOutputFromMemory binder_accepting 1 None 7%nat 0 24
                         (execution_bound compilation_one_device)
     = (ANEURALNETWORKS_BAD_DATA, execution_bound compilation_one_device)
  /\ getOutputOperandDimensions 2 [0; 0] two_outputs
     = (ANEURALNETWORKS_BAD_DATA, [0; 0])
  /\ getOutputOperandRank 2 0 two_outputs = (ANEURALNETWORKS_BAD_DATA, 0).
Proof.
  pose proof (out_of_range_index_is_bad_data binder_accepting
                (execution_bound compilation_one_device) 1) as (Hin & Hout & _).
  pose proof (out_of_range_index_is_bad_data binder_accepting two_outputs 2)
    as (_ & _ & Hq).
  destruct (Hin eq_refl ltac:(simpl; lia)) as [Hi _].
  destruct (Hout eq_refl ltac:(simpl; lia)) as [_ Ho].
  destruct (Hq eq_refl ltac:(simpl; lia)) as [Hd Hr].
  split; [apply Hi|]. split; [apply Ho|]. split; [apply Hd | apply Hr].
Defined.

(** C5, as stated, fails: the signal for a slot index out of range is not
    distinct from the one for bad data.  Binding input 1 of an execution
    with a single input returns [ANEURALNETWORKS_BAD_DATA], and so do the
    two output queries of a finished execution with two outputs at
    index 2. *)
Lemma out_of_range_index_not_distinct :
  ~ (fst (setInput binder_accepting 1 None 4096 24
                   (execution_bound compilation_one_device))
     <> ANEURALNETWORKS_BAD_DATA)
  /\ ~ (fst (getOutputOperandDimensions 2 [0; 0] two_outputs)
        <> ANEURALNETWORKS_BAD_DATA)
  /\ ~ (fst (getOutputOperandRank 2 0 two_outputs) <> ANEURALNETWORKS_BAD_DATA).
Proof.
  repeat split; intros H; apply H; reflexivity.
Qed.

(** C6. [setMeasureTiming] on an execution that was not compiled for
    exactly one explicitly chosen device returns
    [ANEURALNETWORKS_BAD_DATA], started or not; on one that was, it
    returns [ANEURALNETWORKS_BAD_STATE] once the execution has started and
    otherwise succeeds and records the flag.  So it succeeds only before
    the start and with a single explicit device, and the device check comes
    first. *)
Theorem setMeasureTiming_cases (measure : bool) (e : ExecutionBuilder) :
  (~ singleExplicitDevice (mCompilation e) ->
   setMeasureTiming measure e = (ANEURALNETWORKS_BAD_DATA, e))
  /\ (singleExplicitDevice (mCompilation e) -> mStarted e = true ->
      setMeasureTiming measure e = (ANEURALNETWORKS_BAD_STATE, e))
  /\ (singleExplicitDevice (mCompilation e) -> mStarted e = false ->
      setMeasureTiming measure e
      = (ANEURALNETWORKS_NO_ERROR, set_mMeasureTiming measure e))
  /\ (fst (setMeasureTiming measure e) = ANEURALNETWORKS_NO_ERROR <->
      mStarted e = false /\ singleExplicitDevice (mCompilation e)).
Proof.
  unfold setMeasureTiming, singleExplicitDevice.
  destruct (mExplicitDeviceList (mCompilation e)) eqn:Hx;
    destruct (Nat.eqb_spec (length (mDevices (mCompilation e))) 1) as [Hl|Hl];
    destruct (mStarted e) eqn:Hs; simpl;
    repeat split; intros;
    repeat match goal with
           | H : _ /\ _ |- _ => destruct H
           | H : ~ (_ /\ _) |- _ => try (exfalso; apply H; split; congruence)
           end;
    try reflexivity; try congruence; try discriminate.
Qed.

Lemma setMeasureTiming_cases_witness :
  setMeasureTiming true (execution_bound compilation_any_device)
  = (ANEURALNETWORKS_BAD_DATA, execution_bound compilation_any_device)
  /\ setMeasureTiming true (set_mStarted true (execution_bound compilation_any_device))
     = (ANEURALNETWORKS_BAD_DATA,
        set_mStarted true (execution_bound compilation_any_device))
  /\ setMeasureTiming true execution_started
     = (ANEURALNETWORKS_BAD_STATE, execution_started)
  /\ setMeasureTiming true (execution_bound compilation_one_device)
     = (ANEURALNETWORKS_NO_ERROR,
        set_mMeasureTiming true (execution_bound compilation_one_device)).
Proof.
  assert (~ singleExplicitDevice compilation_any_device) as Hany.
  { intros [H _]. discriminate H. }
  assert (singleExplicitDevice compilation_one_device) as Hone.
  { split; reflexivity. }
  split; [|split; [|split]].
  - apply (setMeasureTiming_cases true (execution_bound compilation_any_device)).
    exact Hany.
  - apply (setMeasureTiming_cases true
             (set_mStarted true (execution_bound compilation_any_device))).
    exact Hany.
  - apply (setMeasureTiming_cases true execution_started);
      [exact Hone | reflexivity].
  - apply (setMeasureTiming_cases true (execution_bound compilation_one_device));
      [exact Hone | reflexivity].
Defined.

(** C9. On a finished execution, [getOutputOperandDimensions] for an
    output whose recorded dimension vector is empty (a scalar) returns
    [ANEURALNETWORKS_BAD_DATA] and leaves the caller's buffer as it was,
    whether or not the output was reported sufficient. *)
Theorem getOutputOperandDimensions_scalar (e : ExecutionBuilder) (index : Z)
    (dimensionsBuf : list Z) (out : ModelArgumentInfo) :
  mFinished e = true ->
  mOutputs e !! Z.to_nat index = Some out ->
  dimensions out = [] ->
  getOutputOperandDimensions index dimensionsBuf e
  = (ANEURALNETWORKS_BAD_DATA, dimensionsBuf).
Proof.
  intros Hf Hout Hdims. unfold getOutputOperandDimensions, argAt.
  rewrite Hf, Hout. simpl. rewrite Hdims. simpl.
  destruct (count32 (mOutputs e) <=? index); reflexivity.
Qed.

Lemma getOutputOperandDimensions_scalar_witness :
  getOutputOperandDimensions 1 [7; 7]
    (execution_finished [boundArg [2; 3] true; boundArg [] true] false kNoTiming)
  = (ANEURALNETWORKS_BAD_DATA, [7; 7]).
Proof.
  apply (getOutputOperandDimensions_scalar
           (execution_finished [boundArg [2; 3] true; boundArg [] true]
                               false kNoTiming)
           1 [7; 7] (boundArg [] true)); reflexivity.
Defined.

(** A tensor output of the same execution is copied to the buffer. *)
Example getOutputOperandDimensions_tensor :
  getOutputOperandDimensions 0 [7; 7; 7]
    (execution_finished [boundArg [2; 3] true; boundArg [] true] false kNoTiming)
  = (ANEURALNETWORKS_NO_ERROR, [2; 3; 7]).
Proof. reflexivity. Qed.

(** C10. On a finished execution with timing requested, [getDuration]
    with a valid duration code returns [ANEURALNETWORKS_NO_ERROR] and
    stores: the sentinel [UINT64_MAX] itself when the recorded duration [d]
    is the sentinel, and otherwise the [uint64_t] product [1000 * d], which
    is the exact product whenever that fits 64 bits.  The stored value is
    the sentinel only if the recorded one is or the wrapped product happens
    to be; the sentinel is never multiplied. *)
Theorem getDuration_conversion (e : ExecutionBuilder) (durationCode : Z)
    (duration : Z) :
  mFinished e = true ->
  mMeasureTiming e = true ->
  durationCode = ANEURALNETWORKS_DURATION_ON_HARDWARE
  \/ durationCode = ANEURALNETWORKS_DURATION_IN_DRIVER ->
  let d := recordedMicros durationCode e in
  (d = UINT64_MAX ->
   getDuration durationCode duration e
   = Returns (ANEURALNETWORKS_NO_ERROR, UINT64_MAX))
  /\ (d <> UINT64_MAX ->
      getDuration durationCode duration e
      = Returns (ANEURALNETWORKS_NO_ERROR, (1000 * d) mod UINT64_MODULUS))
  /\ (0 <= d -> 1000 * d <= UINT64_MAX ->
      getDuration durationCode duration e
      = Returns (ANEURALNETWORKS_NO_ERROR, 1000 * d)).
Proof.
  intros Hf Hm Hcode d.
  assert (getDuration durationCode duration e
          = Returns (ANEURALNETWORKS_NO_ERROR,
                     if d =? UINT64_MAX then UINT64_MAX
                     else (kNanoPerMicro * d) mod UINT64_MODULUS)) as Hget.
  { unfold getDuration, d, recordedMicros. rewrite Hf, Hm. simpl.
    destruct Hcode as [-> | ->]; reflexivity. }
  rewrite Hget. unfold kNanoPerMicro.
  split; [|split].
  - intros ->. rewrite Z.eqb_refl. reflexivity.
  - intros Hne. apply Z.eqb_neq in Hne. rewrite Hne. reflexivity.
  - intros H0 Hfit.
    assert (d <> UINT64_MAX) as Hne by (unfold UINT64_MAX in *; lia).
    apply Z.eqb_neq in Hne. rewrite Hne.
    rewrite Z.mod_small; [reflexivity|].
    unfold UINT64_MODULUS, UINT64_MAX in *. lia.
Qed.

Lemma getDuration_conversion_witness :
  getDuration ANEURALNETWORKS_DURATION_ON_HARDWARE 0
    (execution_finished [boundArg [2; 3] true] true (mkTiming 50 UINT64_MAX))
  = Returns (ANEURALNETWORKS_NO_ERROR, 50000)
  /\ getDuration ANEURALNETWORKS_DURATION_IN_DRIVER 0
       (execution_finished [boundArg [2; 3] true] true (mkTiming 50 UINT64_MAX))
     = Returns (ANEURALNETWORKS_NO_ERROR, UINT64_MAX).
Proof.
  pose proof (getDuration_conversion
                (execution_finished [boundArg [2; 3] true] true
                                    (mkTiming 50 UINT64_MAX))
                ANEURALNETWORKS_DURATION_ON_HARDWARE 0 eq_refl eq_refl
                (or_introl eq_refl)) as (_ & _ & Hexact).
  pose proof (getDuration_conversion
                (execution_finished [boundArg [2; 3] true] true
                                    (mkTiming 50 UINT64_MAX))
                ANEURALNETWORKS_DURATION_IN_DRIVER 0 eq_refl eq_refl
                (or_intror eq_refl)) as (Hsentinel & _).
  split.
  - apply Hexact; vm_compute; discriminate.
  - apply Hsentinel. reflexivity.
Defined.

(** Had the sentinel been multiplied, the result would be another value. *)
Example sentinel_times_1000 :
  (kNanoPerMicro * UINT64_MAX) mod UINT64_MODULUS = UINT64_MAX - 999.
Proof. reflexivity. Qed.

(** Without timing requested the sentinel is stored and the call fails;
    an unknown duration code trips the [CHECK]. *)
Example getDuration_not_measured :
  getDuration ANEURALNETWORKS_DURATION_ON_HARDWARE 0
    (execution_finished [boundArg [2; 3] true] false (mkTiming 50 60))
  = Returns (ANEURALNETWORKS_BAD_STATE, UINT64_MAX).
Proof. reflexivity. Qed.

Example getDuration_unexpected_code :
  getDuration 2 0
    (execution_finished [boundArg [2; 3] true] true (mkTiming 50 60))
  = CheckFailed.
Proof. reflexivity. Qed.

(* ===================================================================== *)
(** * Part IX -- Properties of the plan walker and of fallback            *)
(* ===================================================================== *)

Section Walker.

Context {C : Type} (rt : Runtime C).
Implicit Types (w : Walker C) (ex : StepExecutor) (cb : ExecutionCallback)
               (tr evs : list Event) (o : Outcome).

Lemma count_events_app p tr1 tr2 :
  count_events p (tr1 ++ tr2) = (count_events p tr1 + count_events p tr2)%nat.
Proof. induction tr1 as [|ev tr1 IH]; simpl; [reflexivity | rewrite IH; lia]. Qed.

Lemma trace_of_after evs o : trace_of (after evs o) = evs ++ trace_of o.
Proof. destruct o; reflexivity. Qed.

Lemma no_fallback_nil : no_fallback [].
Proof. split; reflexivity. Qed.

(** Starting a step, on its device or on the software device, is not a
    fallback attempt in itself. *)
Lemma startCompute_no_fallback ex : no_fallback (snd (startCompute rt ex)).
Proof.
  unfold startCompute. destruct (mPreparedModel ex); [|apply no_fallback_nil].
  destruct (execute rt ex) as [[n shapes] t].
  destruct (_ && _); split; reflexivity.
Qed.

Lemma startComputeOnCpuFallback_no_fallback ex :
  no_fallback (snd (startComputeOnCpuFallback rt ex)).
Proof.
  unfold startComputeOnCpuFallback.
  destruct (prepareModel rt CpuDevice (mModel ex)) as [n pm].
  destruct (negb _); [apply no_fallback_nil | apply startCompute_no_fallback].
Qed.

(** Full-model fallback is entered once and never re-enters partial
    fallback. *)
Lemma cpuFallbackFull_counts :
  count_events isFullFallback (trace_of (cpuFallbackFull rt)) = 1%nat
  /\ count_events isPartialFallback (trace_of (cpuFallbackFull rt)) = O.
Proof.
  unfold cpuFallbackFull.
  pose proof (startComputeOnCpuFallback_no_fallback
                (mkStepExecutor None (getModel rt) CpuDevice None)) as [Hp Hf].
  destruct (startComputeOnCpuFallback rt _) as [[| n | cb] evs];
    simpl in *; rewrite ?count_events_app; simpl; lia.
Qed.

(** The status used for classification is the generic failure whenever
    the shapes do not reconcile, and the reported one otherwise. *)
Lemma reconcile_failed ex cb shapes shapes' :
  StepExecutor_updateOutputShapes ex (cb_outputShapes cb) shapes
  = (false, shapes') ->
  reconcile ex cb shapes = (GENERAL_FAILURE, shapes').
Proof. intros H. unfold reconcile. rewrite H. reflexivity. Qed.

Lemma reconcile_ok ex cb shapes shapes' :
  StepExecutor_updateOutputShapes ex (cb_outputShapes cb) shapes
  = (true, shapes') ->
  reconcile ex cb shapes = (cb_status cb, shapes').
Proof. intros H. unfold reconcile. rewrite H. reflexivity. Qed.

(** An iteration that returns ends the loop, whatever fuel is left. *)
Lemma stepLoop_return allowFallback fuel w o :
  loopBody rt allowFallback w = Return o ->
  stepLoop rt allowFallback (S fuel) w = o.
Proof. intros H. simpl. rewrite H. reflexivity. Qed.

End Walker.

(** C7. In the step loop, when the shapes a step reported do not
    reconcile into the running table ([StepExecutor::updateOutputShapes]
    returns [false]), the status that is classified is
    [GENERAL_FAILURE], whatever status the step reported: with fallback
    allowed the iteration goes to partial fallback, and otherwise the
    callback is notified with [GENERAL_FAILURE], no shapes and no
    timing.  The step is never taken for a success or for an insufficient
    output. *)
Theorem failed_reconciliation_downgrades {C : Type} (rt : Runtime C)
    (allowFallback : bool) (w : Walker C) (ex : StepExecutor) (controller : C)
    (stepCallback : ExecutionCallback) (evs : list Event)
    (shapes : list OutputShape) :
  plan_next rt (w_controller w) = (ANEURALNETWORKS_NO_ERROR, Some ex, controller) ->
  startCompute rt ex = (StartOk stepCallback, evs) ->
  StepExecutor_updateOutputShapes ex (cb_outputShapes stepCallback)
                                  (w_outputShapes w) = (false, shapes) ->
  (forall reported : ErrorStatus,
      reconcile ex (mkCallback reported (cb_outputShapes stepCallback)
                               (cb_timing stepCallback))
                (w_outputShapes w)
      = (GENERAL_FAILURE, shapes))
  /\ reconcile ex stepCallback (w_outputShapes w) = (GENERAL_FAILURE, shapes)
  /\ loopBody rt allowFallback w
     = if allowFallback
       then viaPartialFallback rt controller shapes (w_timing w) evs
       else Return (Completed (evs ++ [EvNotify GENERAL_FAILURE [] kNoTiming])).
Proof.
  intros Hnext Hstart Hupd.
  pose proof (reconcile_failed ex stepCallback _ _ Hupd) as Hrec.
  split; [|split; [exact Hrec|]].
  - intros reported. apply reconcile_failed. exact Hupd.
  - unfold loopBody. rewrite Hnext. simpl negb. cbv iota.
    rewrite Hstart, Hrec. simpl. destruct allowFallback; reflexivity.
Qed.

(** Step 0 reports an insufficient output together with a shape 5x3 for
    an output bound as 2x?: the status is downgraded and, fallback being
    off, delivered as a general failure without shapes. *)
Lemma failed_reconciliation_downgrades_witness :
  loopBody (runtime_two_steps false
              (devices answer_step0_incompatible answer_step1
                       answer_step0 answer_step1 answer_full))
           false walker_start
  = Return (Completed [EvExecute (step_executor 0) kNoTiming;
                       EvNotify GENERAL_FAILURE [] kNoTiming]).
Proof.
  pose proof (failed_reconciliation_downgrades
                (runtime_two_steps false
                   (devices answer_step0_incompatible answer_step1
                            answer_step0 answer_step1 answer_full))
                false walker_start (step_executor 0) 1%nat
                (mkCallback OUTPUT_INSUFFICIENT_SIZE
                            [shape [5; 3]; shape [4]] kNoTiming)
                [EvExecute (step_executor 0) kNoTiming]
                (initializeOutputShapes execution_partitioned)
                eq_refl eq_refl eq_refl) as (_ & _ & H).
  exact H.
Defined.

(** C2, as the code has it.  When a step completes with status
    [OUTPUT_INSUFFICIENT_SIZE] and the shapes it reports reconcile into
    the running table ([StepExecutor::updateOutputShapes] returns [true],
    so the status is not downgraded), no fallback is attempted for it: the
    completion callback is notified with that status, the shape table
    accumulated so far (this step's shapes included) and no timing, and
    the loop returns at once.  The same holds for a step re-run by
    partial fallback: its insufficient output is delivered with the
    table, and full-model fallback is not entered. *)
Theorem insufficient_size_no_fallback {C : Type} (rt : Runtime C)
    (ex : StepExecutor) (cb : ExecutionCallback) (evs : list Event)
    (table shapes : list OutputShape) (controller controller' : C) :
  cb_status cb = OUTPUT_INSUFFICIENT_SIZE ->
  StepExecutor_updateOutputShapes ex (cb_outputShapes cb) table
  = (true, shapes) ->
  (forall (allowFallback : bool) (w : Walker C),
      w_outputShapes w = table ->
      plan_next rt (w_controller w)
      = (ANEURALNETWORKS_NO_ERROR, Some ex, controller') ->
      startCompute rt ex = (StartOk cb, evs) ->
      loopBody rt allowFallback w
      = Return (Completed
                  (evs ++ [EvNotify OUTPUT_INSUFFICIENT_SIZE shapes kNoTiming]))
      /\ no_fallback
           (evs ++ [EvNotify OUTPUT_INSUFFICIENT_SIZE shapes kNoTiming])
      /\ forall fuel : nat,
          stepLoop rt allowFallback (S fuel) w
          = Completed
              (evs ++ [EvNotify OUTPUT_INSUFFICIENT_SIZE shapes kNoTiming]))
  /\ (plan_fallback rt controller
      = (ANEURALNETWORKS_NO_ERROR, Some ex, controller') ->
      isCpu ex = false ->
      startComputeOnCpuFallback rt ex = (StartOk cb, evs) ->
      cpuFallbackPartial rt controller table
      = RunEnded (Completed
                    (EvPartialFallback :: evs ++
                     [EvNotify OUTPUT_INSUFFICIENT_SIZE shapes kNoTiming]))
      /\ count_events isFullFallback
           (EvPartialFallback :: evs ++
            [EvNotify OUTPUT_INSUFFICIENT_SIZE shapes kNoTiming]) = O
      /\ count_events isPartialFallback
           (EvPartialFallback :: evs ++
            [EvNotify OUTPUT_INSUFFICIENT_SIZE shapes kNoTiming]) = 1%nat).
Proof.
  intros Hstatus Hupd.
  assert (reconcile ex cb table = (OUTPUT_INSUFFICIENT_SIZE, shapes)) as Hrec.
  { rewrite (reconcile_ok ex cb table shapes Hupd), Hstatus. reflexivity. }
  split.
  - intros allowFallback w Htable Hnext Hstart.
    assert (loopBody rt allowFallback w
            = Return (Completed
                        (evs ++ [EvNotify OUTPUT_INSUFFICIENT_SIZE shapes
                                          kNoTiming]))) as Hbody.
    { unfold loopBody. rewrite Hnext. simpl negb. cbv iota.
      rewrite Hstart, Htable, Hrec. simpl.
      rewrite andb_false_r. reflexivity. }
    split; [exact Hbody|]. split.
    + pose proof (startCompute_no_fallback rt ex) as [Hp Hf].
      rewrite Hstart in Hp, Hf. simpl in Hp, Hf.
      split; rewrite count_events_app; simpl; lia.
    + intros fuel. apply stepLoop_return. exact Hbody.
  - intros Hfb Hcpu Hstart.
    pose proof (startComputeOnCpuFallback_no_fallback rt ex) as [Hp Hf].
    rewrite Hstart in Hp, Hf. simpl in Hp, Hf.
    split; [|split].
    + unfold cpuFallbackPartial. rewrite Hfb. simpl negb. cbv iota.
      rewrite Hcpu, Hstart, Hrec. simpl.
      rewrite orb_true_r. reflexivity.
    + simpl. rewrite count_events_app. simpl. lia.
    + simpl. rewrite count_events_app. simpl. lia.
Qed.

(** Step 0 of the two-step plan finds the second output too small: on its
    driver, and on the software device after the driver has gone. *)
Lemma insufficient_size_no_fallback_witness :
  (forall fuel : nat,
      stepLoop runtime_insufficient true (S fuel) walker_start
      = Completed [EvExecute (step_executor 0) kNoTiming;
                   EvNotify OUTPUT_INSUFFICIENT_SIZE table_after_step0
                            kNoTiming])
  /\ cpuFallbackPartial runtime_insufficient_on_cpu 1%nat
                        (initializeOutputShapes execution_partitioned)
     = RunEnded (Completed [EvPartialFallback;
                            EvExecute (step_executor_on_cpu 0) kNoTiming;
                            EvNotify OUTPUT_INSUFFICIENT_SIZE table_after_step0
                                     kNoTiming]).
Proof.
  split.
  - pose proof (insufficient_size_no_fallback runtime_insufficient
                  (step_executor 0)
                  (mkCallback OUTPUT_INSUFFICIENT_SIZE
                              [shape [2; 3]; mkOutputShape [4] false] kNoTiming)
                  [EvExecute (step_executor 0) kNoTiming]
                  (initializeOutputShapes execution_partitioned)
                  table_after_step0 O 1%nat eq_refl eq_refl) as [Hloop _].
    destruct (Hloop true walker_start eq_refl eq_refl eq_refl) as (_ & _ & H).
    exact H.
  - pose proof (insufficient_size_no_fallback runtime_insufficient_on_cpu
                  (step_executor 0)
                  (mkCallback OUTPUT_INSUFFICIENT_SIZE
                              [shape [2; 3]; mkOutputShape [4] false] kNoTiming)
                  [EvExecute (step_executor_on_cpu 0) kNoTiming]
                  (initializeOutputShapes execution_partitioned)
                  table_after_step0 1%nat 1%nat eq_refl eq_refl) as [_ Hpartial].
    destruct (Hpartial eq_refl eq_refl eq_refl) as (H & _).
    exact H.
Defined.

(** The whole run in the second situation: the step fails on its driver,
    partial fallback runs it on the software device, and the insufficient
    output ends the run without full-model fallback. *)
Example insufficient_size_after_partial_fallback :
  stepLoop runtime_insufficient_on_cpu true 3 walker_start
  = Completed [EvExecute (step_executor 0) kNoTiming;
               EvPartialFallback;
               EvExecute (step_executor_on_cpu 0) kNoTiming;
               EvNotify OUTPUT_INSUFFICIENT_SIZE table_after_step0 kNoTiming].
Proof. reflexivity. Qed.

(** C2, as stated, fails.  Step 0 completes with status
    [OUTPUT_INSUFFICIENT_SIZE] (its device answers with that code), but
    the shapes it reports do not reconcile, so the status is downgraded
    and, fallback being allowed, partial fallback is attempted: the step
    runs again on the software device, the plan goes on, and the callback
    is notified of success, not of the insufficient size. *)
Lemma insufficient_size_downgraded_falls_back :
  startCompute runtime_insufficient_wrong_shape (step_executor 0)
  = (StartOk (mkCallback OUTPUT_INSUFFICIENT_SIZE
                         [shape [5; 3]; shape [4]] kNoTiming),
     [EvExecute (step_executor 0) kNoTiming])
  /\ stepLoop runtime_insufficient_wrong_shape true 3 walker_start
     = Completed [EvExecute (step_executor 0) kNoTiming;
                  EvPartialFallback;
                  EvExecute (step_executor_on_cpu 0) (mkTiming 50 70);
                  EvExecute (step_executor 1) (mkTiming 10 20);
                  EvNotify NONE [shape [2; 3]; shape [4]; shape [6]]
                           (mkTiming 10 20)]
  /\ ~ no_fallback
        (trace_of (stepLoop runtime_insufficient_wrong_shape true 3
                            walker_start)).
Proof.
  split; [reflexivity|]. split; [reflexivity|].
  intros [H _]. discriminate H.
Qed.

(** With working devices the two steps run in order and the run ends in
    success with the refined table and the timing of the last step. *)
Example two_steps_succeed :
  stepLoop (runtime_two_steps false devices_working) true 3 walker_start
  = Completed [EvExecute (step_executor 0) (mkTiming 50 70);
               EvExecute (step_executor 1) (mkTiming 10 20);
               EvNotify NONE [shape [2; 3]; shape [4]; shape [6]]
                        (mkTiming 10 20)].
Proof. reflexivity. Qed.

Section PartialFallback.

Context {C : Type} (rt : Runtime C).
Implicit Types (controller : C) (table : list OutputShape) (o : Outcome).

Lemma cpuFallbackPartial_failure controller table o :
  cpuFallbackPartial rt controller table = RunEnded o -> partial_failure rt o.
Proof.
  unfold cpuFallbackPartial.
  destruct (plan_fallback rt controller) as [[n exo] c'].
  destruct (negb (n =? ANEURALNETWORKS_NO_ERROR)).
  { intros [= <-]. apply (Escalated rt _ []); [apply no_fallback_nil | reflexivity]. }
  destruct exo as [ex|].
  2:{ intros [= <-]. apply (NoExecutor rt _ []); [apply no_fallback_nil | reflexivity]. }
  destruct (isCpu ex).
  { intros [= <-]. apply (Escalated rt _ []); [apply no_fallback_nil | reflexivity]. }
  pose proof (startComputeOnCpuFallback_no_fallback rt ex) as Hnf.
  destruct (startComputeOnCpuFallback rt ex) as [[| n' | cb] evs]; simpl in Hnf.
  - intros [= <-]. apply (NoExecutor rt _ evs); [exact Hnf | reflexivity].
  - intros [= <-]. apply (Escalated rt _ evs); [exact Hnf | reflexivity].
  - destruct (reconcile ex cb table) as [status shapes].
    case_bool_decide as Hnone; simpl; [discriminate|].
    destruct (plan_isSimple rt) eqn:Hsimple; simpl.
    + intros [= <-].
      apply (Surfaced rt _ evs status shapes); auto.
    + case_bool_decide as Hois.
      * intros [= <-]. apply (Surfaced rt _ evs status shapes); auto.
      * intros [= <-]. apply (Escalated rt _ evs); [exact Hnf | reflexivity].
Qed.

Lemma partial_failure_counts o :
  partial_failure rt o ->
  count_events isPartialFallback (trace_of o) = 1%nat
  /\ (count_events isFullFallback (trace_of o) <= 1)%nat.
Proof.
  pose proof (cpuFallbackFull_counts rt) as [Hfull Hpart].
  intros [evs [Hp Hf] -> | evs st shapes [Hp Hf] _ _ -> | evs [Hp Hf] ->];
    rewrite ?trace_of_after; simpl; rewrite ?count_events_app; simpl; lia.
Qed.

End PartialFallback.

(** C3, as the code has it.  When the partial-fallback attempt for a
    failing step itself fails ([cpuFallbackPartial] returns [false]), the
    step loop returns: partial fallback was entered once and is not
    entered again, and full-model fallback is entered at most once.  If no
    replacement executor can be produced, or it is already on the software
    device, or it cannot be started there, full-model fallback is taken
    (once).  If the replacement ran and its status after reconciliation is
    a failure, then full-model fallback is taken (once) when the plan is
    not simple and the status is not [OUTPUT_INSUFFICIENT_SIZE]; when the
    plan is simple or the status is [OUTPUT_INSUFFICIENT_SIZE], the status
    is delivered directly with the shape table and full-model fallback is
    not entered. *)
Theorem failed_partial_fallback_ends_run {C : Type} (rt : Runtime C)
    (controller : C) (table : list OutputShape) (o : Outcome) :
  cpuFallbackPartial rt controller table = RunEnded o ->
  (forall timing evs,
      viaPartialFallback rt controller table timing evs = Return (after evs o))
  /\ count_events isPartialFallback (trace_of o) = 1%nat
  /\ (count_events isFullFallback (trace_of o) <= 1)%nat
  /\ (forall n exo c',
         plan_fallback rt controller = (n, exo, c') ->
         n <> ANEURALNETWORKS_NO_ERROR
         \/ (exists ex, exo = Some ex /\ isCpu ex = true) ->
         o = after [EvPartialFallback] (cpuFallbackFull rt)
         /\ count_events isFullFallback (trace_of o) = 1%nat)
  /\ (forall ex c' n evs,
         plan_fallback rt controller = (ANEURALNETWORKS_NO_ERROR, Some ex, c') ->
         isCpu ex = false ->
         startComputeOnCpuFallback rt ex = (StartError n, evs) ->
         o = after (EvPartialFallback :: evs) (cpuFallbackFull rt)
         /\ count_events isFullFallback (trace_of o) = 1%nat)
  /\ (forall ex c' cb evs status shapes,
         plan_fallback rt controller = (ANEURALNETWORKS_NO_ERROR, Some ex, c') ->
         isCpu ex = false ->
         startComputeOnCpuFallback rt ex = (StartOk cb, evs) ->
         reconcile ex cb table = (status, shapes) ->
         status <> NONE
         /\ (plan_isSimple rt = false -> status <> OUTPUT_INSUFFICIENT_SIZE ->
             o = after (EvPartialFallback :: evs) (cpuFallbackFull rt)
             /\ count_events isFullFallback (trace_of o) = 1%nat)
         /\ (plan_isSimple rt = true \/ status = OUTPUT_INSUFFICIENT_SIZE ->
             o = Completed (EvPartialFallback :: evs ++
                            [EvNotify status shapes kNoTiming])
             /\ count_events isFullFallback (trace_of o) = O)).
Proof.
  intros Hret.
  pose proof (partial_failure_counts rt o
                (cpuFallbackPartial_failure rt _ _ _ Hret)) as [Hpart Hfull].
  pose proof (cpuFallbackFull_counts rt) as [Hfull1 _].
  assert (forall evs, no_fallback evs ->
            count_events isFullFallback
              (trace_of (after (EvPartialFallback :: evs) (cpuFallbackFull rt)))
            = 1%nat) as Hesc.
  { intros evs [_ Hf]. rewrite trace_of_after. simpl.
    rewrite count_events_app. lia. }
  split; [|split; [exact Hpart|split; [exact Hfull|split; [|split]]]].
  - intros timing evs. unfold viaPartialFallback. rewrite Hret. reflexivity.
  - intros n exo c' Hfb Hcase. unfold cpuFallbackPartial in Hret.
    rewrite Hfb in Hret.
    assert (o = after [EvPartialFallback] (cpuFallbackFull rt)) as ->.
    { destruct (Z.eqb_spec n ANEURALNETWORKS_NO_ERROR) as [Hn|Hn]; simpl in Hret.
      - destruct Hcase as [Hne | (ex & -> & Hcpu)]; [contradiction|].
        rewrite Hcpu in Hret. congruence.
      - congruence. }
    split; [reflexivity | apply (Hesc []); apply no_fallback_nil].
  - intros ex c' n evs Hfb Hcpu Hstart. unfold cpuFallbackPartial in Hret.
    rewrite Hfb in Hret. simpl in Hret. rewrite Hcpu, Hstart in Hret.
    injection Hret as <-.
    pose proof (startComputeOnCpuFallback_no_fallback rt ex) as Hnf.
    rewrite Hstart in Hnf.
    split; [reflexivity | apply Hesc; exact Hnf].
  - intros ex c' cb evs status shapes Hfb Hcpu Hstart Hrec.
    unfold cpuFallbackPartial in Hret.
    rewrite Hfb in Hret. simpl in Hret. rewrite Hcpu, Hstart, Hrec in Hret.
    pose proof (startComputeOnCpuFallback_no_fallback rt ex) as Hnf.
    rewrite Hstart in Hnf. simpl in Hnf.
    case_bool_decide as Hnone; simpl in Hret; [discriminate|].
    split; [exact Hnone|]. split.
    + intros Hsimple Hois. rewrite Hsimple in Hret. simpl in Hret.
      rewrite bool_decide_eq_false_2 in Hret by exact Hois.
      injection Hret as <-. split; [reflexivity | apply Hesc; exact Hnf].
    + intros Hcase.
      assert (plan_isSimple rt
              || bool_decide (status = OUTPUT_INSUFFICIENT_SIZE) = true) as Hb.
      { destruct Hcase as [-> | ->]; [reflexivity|].
        rewrite bool_decide_eq_true_2 by reflexivity. apply orb_true_r. }
      rewrite Hb in Hret. injection Hret as <-.
      split; [reflexivity|].
      destruct Hnf as [_ Hf]. simpl. rewrite count_events_app. simpl. lia.
Qed.

(** The driver of step 0 is gone and the software device returns a shape
    that does not reconcile.  In the compound plan the attempt hands over
    to full-model fallback, which succeeds; in a simple plan the general
    failure is delivered directly. *)
Lemma failed_partial_fallback_ends_run_witness :
  cpuFallbackPartial (runtime_wrong_shape_on_cpu false) 1%nat
                     (initializeOutputShapes execution_partitioned)
  = RunEnded
      (after [EvPartialFallback; EvExecute (step_executor_on_cpu 0) kNoTiming]
             (cpuFallbackFull (runtime_wrong_shape_on_cpu false)))
  /\ count_events isFullFallback
       (trace_of
          (after [EvPartialFallback; EvExecute (step_executor_on_cpu 0) kNoTiming]
                 (cpuFallbackFull (runtime_wrong_shape_on_cpu false)))) = 1%nat
  /\ count_events isFullFallback
       [EvPartialFallback; EvExecute (step_executor_on_cpu 0) kNoTiming;
        EvNotify GENERAL_FAILURE (initializeOutputShapes execution_partitioned)
                 kNoTiming] = O.
Proof.
  split; [reflexivity|].
  pose proof (failed_partial_fallback_ends_run
                (runtime_wrong_shape_on_cpu false) 1%nat
                (initializeOutputShapes execution_partitioned)
                _ eq_refl) as (_ & _ & _ & _ & _ & Hran).
  destruct (Hran (step_executor 0) 1%nat
                 (mkCallback NONE [shape [5; 3]; shape [4]] kNoTiming)
                 [EvExecute (step_executor_on_cpu 0) kNoTiming]
                 GENERAL_FAILURE
                 (initializeOutputShapes execution_partitioned)
                 eq_refl eq_refl eq_refl eq_refl) as (_ & Hcompound & _).
  destruct (Hcompound eq_refl ltac:(discriminate)) as [_ Hone].
  split; [exact Hone|].
  pose proof (failed_partial_fallback_ends_run
                (runtime_wrong_shape_on_cpu true) 1%nat
                (initializeOutputShapes execution_partitioned)
                _ eq_refl) as (_ & _ & _ & _ & _ & Hran').
  destruct (Hran' (step_executor 0) 1%nat
                  (mkCallback NONE [shape [5; 3]; shape [4]] kNoTiming)
                  [EvExecute (step_executor_on_cpu 0) kNoTiming]
                  GENERAL_FAILURE
                  (initializeOutputShapes execution_partitioned)
                  eq_refl eq_refl eq_refl eq_refl) as (_ & _ & Hsimple).
  destruct (Hsimple (or_introl eq_refl)) as [_ Hnone].
  exact Hnone.
Defined.

(** The same two runs, event by event. *)
Example compound_plan_escalates :
  stepLoop (runtime_wrong_shape_on_cpu false) true 3 walker_start
  = Completed [EvExecute (step_executor 0) kNoTiming;
               EvPartialFallback;
               EvExecute (step_executor_on_cpu 0) kNoTiming;
               EvFullFallback;
               EvExecute full_executor_on_cpu kNoTiming;
               EvNotify NONE [shape [2; 3]; shape [4]; shape [6]] kNoTiming].
Proof. reflexivity. Qed.

Example simple_plan_surfaces :
  stepLoop (runtime_wrong_shape_on_cpu true) true 3 walker_start
  = Completed [EvExecute (step_executor 0) kNoTiming;
               EvPartialFallback;
               EvExecute (step_executor_on_cpu 0) kNoTiming;
               EvNotify GENERAL_FAILURE
                        (initializeOutputShapes execution_partitioned)
                        kNoTiming].
Proof. reflexivity. Qed.

(** C3, as stated, fails.  The plan is not simple, the partial-fallback
    attempt for step 0 fails (the software device finds the output buffer
    too small), and yet full-model fallback is not entered: the
    insufficient size is delivered directly. *)
Lemma compound_plan_not_always_escalated :
  plan_isSimple runtime_insufficient_on_cpu = false
  /\ cpuFallbackPartial runtime_insufficient_on_cpu 1%nat
                        (initializeOutputShapes execution_partitioned)
     = RunEnded (Completed [EvPartialFallback;
                            EvExecute (step_executor_on_cpu 0) kNoTiming;
                            EvNotify OUTPUT_INSUFFICIENT_SIZE table_after_step0
                                     kNoTiming])
  /\ ~ In EvFullFallback
         [EvPartialFallback;
          EvExecute (step_executor_on_cpu 0) kNoTiming;
          EvNotify OUTPUT_INSUFFICIENT_SIZE table_after_step0 kNoTiming].
Proof.
  split; [reflexivity|]. split; [reflexivity|].
  simpl. intros [H | [H | [H | []]]]; discriminate H.
Qed.

(* ===================================================================== *)
(** * Part X -- Rejected shapes and the single notification              *)
(* ===================================================================== *)

Section Rejection.

Implicit Types (from to : list OutputShape) (mapping : list nat).

(** Reconciliation rejects every violation: if some slot of the table is
    not updatable by the shape that a step reports for it, the update
    fails.  For a whole-model executor slot [k] receives entry [k]. *)
Lemma step_update_direct_rejects from :
  forall (i k : nat) to (t f : OutputShape),
    to !! (i + k)%nat = Some t ->
    from !! k = Some f ->
    isUpdatable (os_dimensions t) (os_dimensions f) = false ->
    fst (step_update_direct i from to) = false.
Proof.
  induction from as [|f0 from IH]; intros i k to t f Hto Hfrom Hbad.
  - destruct k; discriminate Hfrom.
  - simpl. destruct k as [|k].
    + simpl in Hfrom. injection Hfrom as ->.
      rewrite Nat.add_0_r in Hto. rewrite Hto, Hbad. reflexivity.
    + simpl in Hfrom.
      destruct (to !! i) as [t0|] eqn:Hi; [|reflexivity].
      destruct (isUpdatable (os_dimensions t0) (os_dimensions f0));
        [|reflexivity].
      apply (IH (S i) k _ t f); [|exact Hfrom|exact Hbad].
      rewrite list_lookup_insert_ne by lia.
      replace (S i + k)%nat with (i + S k)%nat by lia. exact Hto.
Qed.

(** For a step of a partitioned plan entry [k] goes to slot
    [mapping[k]]; the outputs of a step are distinct. *)
Lemma step_update_mapped_rejects mapping :
  forall from to (k j : nat) (t f : OutputShape),
    NoDup mapping ->
    mapping !! k = Some j ->
    to !! j = Some t ->
    from !! k = Some f ->
    isUpdatable (os_dimensions t) (os_dimensions f) = false ->
    fst (step_update_mapped mapping from to) = false.
Proof.
  induction mapping as [|m0 mapping IH];
    intros from to k j t f Hnd Hmap Hto Hfrom Hbad.
  - destruct k; discriminate Hmap.
  - destruct from as [|f0 from]; [destruct k; discriminate Hfrom|].
    simpl. apply NoDup_cons in Hnd as [Hnotin Hnd].
    destruct k as [|k]; simpl in Hmap, Hfrom.
    + injection Hmap as ->. injection Hfrom as ->.
      rewrite Hto, Hbad. reflexivity.
    + destruct (to !! m0) as [t0|] eqn:Hm0; [|reflexivity].
      destruct (isUpdatable (os_dimensions t0) (os_dimensions f0));
        [|reflexivity].
      apply (IH from _ k j t f Hnd Hmap); [|exact Hfrom|exact Hbad].
      rewrite list_lookup_insert_ne; [exact Hto|].
      intros ->. apply Hnotin. eapply list_elem_of_lookup_2. exact Hmap.
Qed.

(** X10. Reconciliation rejects every violation.  If the table holds,
    in the slot a step (or the whole-model executor) reports entry [k]
    for, dimensions that are not updatable by that entry -- a fixed
    dimension would change, or the ranks differ --
    [StepExecutor::updateOutputShapes] returns [false]. *)
Lemma StepExecutor_updateOutputShapes_rejects (ex : StepExecutor) from to
    (k j : nat) (t f : OutputShape) :
  match mExecutionStep ex with
  | Some mapping => NoDup mapping /\ mapping !! k = Some j
  | None => j = k
  end ->
  to !! j = Some t ->
  from !! k = Some f ->
  isUpdatable (os_dimensions t) (os_dimensions f) = false ->
  fst (StepExecutor_updateOutputShapes ex from to) = false.
Proof.
  intros Hslot Hto Hfrom Hbad. unfold StepExecutor_updateOutputShapes.
  destruct from as [|f0 from]; [destruct k; discriminate Hfrom|].
  replace (length (f0 :: from) =? 0)%nat with false by reflexivity.
  destruct (mExecutionStep ex) as [mapping|].
  - destruct Hslot as [Hnd Hmap].
    destruct (negb _); [reflexivity|].
    exact (step_update_mapped_rejects mapping _ _ k j t f Hnd Hmap Hto Hfrom Hbad).
  - subst j. destruct (negb _); [reflexivity|].
    exact (step_update_direct_rejects _ 0 k _ t f Hto Hfrom Hbad).
Qed.

(** The classified status is an insufficient size exactly when the step
    reported it and its shapes reconciled. *)
Lemma reconcile_insufficient (ex : StepExecutor) (cb : ExecutionCallback)
    table shapes :
  reconcile ex cb table = (OUTPUT_INSUFFICIENT_SIZE, shapes) <->
  cb_status cb = OUTPUT_INSUFFICIENT_SIZE
  /\ StepExecutor_updateOutputShapes ex (cb_outputShapes cb) table
     = (true, shapes).
Proof.
  unfold reconcile.
  destruct (StepExecutor_updateOutputShapes ex (cb_outputShapes cb) table)
    as [[|] shapes0].
  - split; [intros [= -> ->]; split; reflexivity|].
    intros [-> [= ->]]. reflexivity.
  - split; [discriminate|]. intros [_ H]. discriminate H.
Qed.

End Rejection.

Section Notification.

Context {C : Type} (rt : Runtime C).
Implicit Types (w : Walker C) (tr evs : list Event).

Lemma ends_with_notify_single status shapes timing :
  ends_with_notify [EvNotify status shapes timing].
Proof. exists [], status, shapes, timing. split; reflexivity. Qed.

Lemma ends_with_notify_app evs tr :
  count_events isNotify evs = O ->
  ends_with_notify tr -> ends_with_notify (evs ++ tr).
Proof.
  intros Hevs (tr0 & st & sh & t & -> & H0).
  exists (evs ++ tr0), st, sh, t. split.
  - rewrite app_assoc. reflexivity.
  - rewrite count_events_app. lia.
Qed.

Lemma ends_with_notify_snoc evs status shapes timing :
  count_events isNotify evs = O ->
  ends_with_notify (evs ++ [EvNotify status shapes timing]).
Proof.
  intros H. apply ends_with_notify_app;
    [exact H | apply ends_with_notify_single].
Qed.

Lemma startCompute_no_notify ex :
  count_events isNotify (snd (startCompute rt ex)) = O.
Proof.
  unfold startCompute. destruct (mPreparedModel ex); [|reflexivity].
  destruct (execute rt ex) as [[n shapes] t].
  destruct (_ && _); reflexivity.
Qed.

Lemma startComputeOnCpuFallback_no_notify ex :
  count_events isNotify (snd (startComputeOnCpuFallback rt ex)) = O.
Proof.
  unfold startComputeOnCpuFallback.
  destruct (prepareModel rt CpuDevice (mModel ex)) as [n pm].
  destruct (negb _); [reflexivity | apply startCompute_no_notify].
Qed.

(** [cpuFallbackFull] "ensures that [notify] is called". *)
Lemma cpuFallbackFull_notifies tr :
  cpuFallbackFull rt = Completed tr -> ends_with_notify tr.
Proof.
  unfold cpuFallbackFull.
  pose proof (startComputeOnCpuFallback_no_notify
                (mkStepExecutor None (getModel rt) CpuDevice None)) as Hn.
  destruct (startComputeOnCpuFallback rt _) as [[| n | cb] evs];
    simpl in Hn; [discriminate| |]; intros [= <-];
    apply (ends_with_notify_snoc (EvFullFallback :: evs)); simpl; exact Hn.
Qed.

Lemma after_completed evs o tr :
  after evs o = Completed tr -> exists tr', o = Completed tr' /\ tr = evs ++ tr'.
Proof. destruct o; simpl; intros [= <-]. eexists; split; reflexivity. Qed.

(** [cpuFallbackPartial] notifies exactly when it returns [false]. *)
Lemma cpuFallbackPartial_notifies controller table :
  match cpuFallbackPartial rt controller table with
  | RunEnded (Completed tr) => ends_with_notify tr
  | RunEnded _ => True
  | StepRecovered _ _ tr => count_events isNotify tr = O
  end.
Proof.
  assert (forall evs, count_events isNotify evs = O ->
            match after (EvPartialFallback :: evs) (cpuFallbackFull rt) with
            | Completed tr => ends_with_notify tr
            | _ => True
            end) as Hfull.
  { intros evs Hevs. pose proof (cpuFallbackFull_notifies) as H.
    destruct (cpuFallbackFull rt) as [tr|tr|tr]; simpl; try exact I.
    apply (ends_with_notify_app (EvPartialFallback :: evs));
      [exact Hevs | apply H; reflexivity]. }
  unfold cpuFallbackPartial.
  destruct (plan_fallback rt controller) as [[n exo] c'].
  destruct (negb (n =? ANEURALNETWORKS_NO_ERROR)); [apply (Hfull []); reflexivity|].
  destruct exo as [ex|]; [|exact I].
  destruct (isCpu ex); [apply (Hfull []); reflexivity|].
  pose proof (startComputeOnCpuFallback_no_notify ex) as Hn.
  destruct (startComputeOnCpuFallback rt ex) as [[| n' | cb] evs]; simpl in Hn.
  - exact I.
  - apply Hfull. exact Hn.
  - destruct (reconcile ex cb table) as [status shapes].
    destruct (negb (bool_decide (status = NONE))); [|exact Hn].
    destruct (plan_isSimple rt || bool_decide (status = OUTPUT_INSUFFICIENT_SIZE)).
    + apply (ends_with_notify_snoc (EvPartialFallback :: evs)). exact Hn.
    + apply Hfull. exact Hn.
Qed.

(** An iteration notifies exactly when it returns. *)
Lemma loopBody_notifies allowFallback w :
  match loopBody rt allowFallback w with
  | Return (Completed tr) => ends_with_notify tr
  | Return _ => True
  | Continue _ tr => count_events isNotify tr = O
  end.
Proof.
  assert (forall controller table timing evs,
            count_events isNotify evs = O ->
            match viaPartialFallback rt controller table timing evs with
            | Return (Completed tr) => ends_with_notify tr
            | Return _ => True
            | Continue _ tr => count_events isNotify tr = O
            end) as Hvia.
  { intros controller table timing evs Hevs. unfold viaPartialFallback.
    pose proof (cpuFallbackPartial_notifies controller table) as H.
    destruct (cpuFallbackPartial rt controller table) as [c' sh tr|[tr|tr|tr]];
      simpl; try exact I.
    - rewrite count_events_app. lia.
    - apply ends_with_notify_app; assumption. }
  unfold loopBody.
  destruct (plan_next rt (w_controller w)) as [[n exo] c'].
  destruct (negb (n =? ANEURALNETWORKS_NO_ERROR)).
  { destruct allowFallback; [|apply ends_with_notify_single].
    pose proof cpuFallbackFull_notifies as H.
    destruct (cpuFallbackFull rt); try exact I. apply H. reflexivity. }
  destruct exo as [ex|]; [|apply ends_with_notify_single].
  pose proof (startCompute_no_notify ex) as Hn.
  destruct (startCompute rt ex) as [[| n' | cb] evs]; simpl in Hn.
  - exact I.
  - destruct allowFallback; [apply Hvia; exact Hn|].
    apply ends_with_notify_snoc. exact Hn.
  - destruct (reconcile ex cb (w_outputShapes w)) as [status shapes].
    destruct (bool_decide (status = NONE)); [exact Hn|].
    destruct (allowFallback && _); [apply Hvia; exact Hn|].
    destruct (bool_decide (status = OUTPUT_INSUFFICIENT_SIZE));
      apply ends_with_notify_snoc; exact Hn.
Qed.

(** Every run of the walker that returns has notified the completion
    callback exactly once, as its last act. *)
Lemma stepLoop_notifies_once allowFallback fuel :
  forall w tr,
    stepLoop rt allowFallback fuel w = Completed tr -> ends_with_notify tr.
Proof.
  induction fuel as [|fuel IH]; intros w tr; simpl; [discriminate|].
  pose proof (loopBody_notifies allowFallback w) as Hbody.
  destruct (loopBody rt allowFallback w) as [w' evs|o].
  - intros H. apply after_completed in H as (tr' & Hrun & ->).
    apply ends_with_notify_app; [exact Hbody | exact (IH _ _ Hrun)].
  - intros ->. exact Hbody.
Qed.

End Notification.

(* ===================================================================== *)
(** * Part XI -- The update order on dimension vectors                    *)
(* ===================================================================== *)

(** [isUpdatable] without the case split on the ranks. *)
Lemma isUpdatable_true (to from : list Z) :
  isUpdatable to from = true <->
  to = [] \/
  (length to = length from
   /\ forall (i : nat) (t : Z), to !! i = Some t -> t <> 0 -> from !! i = Some t).
Proof.
  unfold isUpdatable. destruct to as [|t to]; [simpl; tauto|].
  replace (length (t :: to) =? 0)%nat with false by reflexivity.
  destruct (Nat.eqb_spec (length (t :: to)) (length from)) as [Hlen|Hlen];
    simpl negb; cbv iota.
  - rewrite (isUpdatable_loop_true (t :: to) from Hlen).
    split; [intros H; right; split; [exact Hlen | exact H]|].
    intros [H | [_ H]]; [discriminate H | exact H].
  - split; [discriminate|]. intros [H | [H _]]; [discriminate H | contradiction].
Qed.

Lemma isUpdatable_refl (d : list Z) : isUpdatable d d = true.
Proof.
  apply isUpdatable_true. destruct d as [|x d]; [left; reflexivity|].
  right. split; [reflexivity|]. intros i t H _. exact H.
Qed.

Lemma isUpdatable_trans (a b c : list Z) :
  isUpdatable a b = true -> isUpdatable b c = true -> isUpdatable a c = true.
Proof.
  rewrite !isUpdatable_true.
  intros [-> | [Hab Hpos]]; [left; reflexivity|].
  intros [-> | [Hbc Hpos']].
  - destruct a; [left; reflexivity | discriminate Hab].
  - right. split; [congruence|].
    intros i t Ha Hnz. apply Hpos'; [|exact Hnz]. apply Hpos; assumption.
Qed.

Lemma isUpdatable_antisym (a b : list Z) :
  isUpdatable a b = true -> isUpdatable b a = true -> a = b.
Proof.
  rewrite !isUpdatable_true.
  intros [-> | [Hab Hpos]] [Hb | [Hba Hpos']]; subst; try reflexivity.
  - destruct b; [reflexivity | discriminate Hba].
  - destruct a; [reflexivity | discriminate Hab].
  - apply list_eq. intros i.
    destruct (a !! i) as [x|] eqn:Ha.
    + destruct (lookup_lt_is_Some_2 b i) as [y Hb].
      { rewrite <- Hab. eapply lookup_lt_Some. exact Ha. }
      rewrite Hb. f_equal.
      destruct (Z.eq_dec x 0) as [Hx|Hx].
      * destruct (Z.eq_dec y 0) as [Hy|Hy]; [congruence|].
        pose proof (Hpos' i y Hb Hy). congruence.
      * pose proof (Hpos i x Ha Hx). congruence.
    + symmetry. apply lookup_ge_None. rewrite <- Hab.
      apply lookup_ge_None. exact Ha.
Qed.

(** X1. [isUpdatable] is a partial order on dimension vectors: every
    vector updates itself, updates compose, and two vectors that update
    each other are equal. *)
Theorem isUpdatable_partial_order :
  (forall d : list Z, isUpdatable d d = true)
  /\ (forall a b c : list Z,
         isUpdatable a b = true -> isUpdatable b c = true ->
         isUpdatable a c = true)
  /\ (forall a b : list Z,
         isUpdatable a b = true -> isUpdatable b a = true -> a = b).
Proof.
  split; [exact isUpdatable_refl|].
  split; [exact isUpdatable_trans | exact isUpdatable_antisym].
Qed.

Lemma isUpdatable_partial_order_witness :
  isUpdatable [0; 0] [2; 3] = true
  /\ [2; 0] = [2; 0].
Proof.
  destruct isUpdatable_partial_order as (_ & Htrans & Hanti).
  split.
  - exact (Htrans [0; 0] [0; 3] [2; 3] eq_refl eq_refl).
  - exact (Hanti [2; 0] [2; 0] eq_refl eq_refl).
Defined.

(** X2. A fully specified, non-empty dimension vector is final: the only
    vector that may update it is itself. *)
Theorem fully_specified_is_final (to from : list Z) :
  to <> [] ->
  Forall (fun d => d <> 0) to ->
  (isUpdatable to from = true <-> from = to).
Proof.
  intros Hne Hfull. split; [|intros ->; apply isUpdatable_refl].
  rewrite isUpdatable_true. intros [H | [Hlen Hpos]]; [contradiction|].
  apply list_eq. intros i. destruct (to !! i) as [t|] eqn:Ht.
  - apply Hpos; [exact Ht|].
    rewrite Forall_forall in Hfull. apply Hfull.
    eapply list_elem_of_lookup_2. exact Ht.
  - apply lookup_ge_None. rewrite <- Hlen. apply lookup_ge_None. exact Ht.
Qed.

Lemma fully_specified_is_final_witness :
  isUpdatable [2; 3] [2; 3] = true <-> [2; 3] = [2; 3].
Proof.
  apply (fully_specified_is_final [2; 3] [2; 3]); [discriminate|].
  repeat constructor; discriminate.
Defined.

(** The dimension loop of [checkDimensionInfo] is the loop of
    [isUpdatable], negated. *)
Lemma overrides_fixed_dimension_loop (a : list Z) :
  forall b, negb (overrides_fixed_dimension a b) = isUpdatable_loop a b.
Proof.
  induction a as [|d a IH]; intros [|n b]; simpl; try reflexivity.
  destruct (d =? n), (d =? 0); simpl; try apply IH; reflexivity.
Qed.

(** X3. Binding and reconciliation apply one rule.  With a type override,
    [checkDimensionInfo] accepts exactly when the extension information of
    the operand is available, [validateOperandType] accepts the override,
    and the operand's dimensions are updatable (in the sense of
    [isUpdatable]) by those of the override. *)
Theorem checkDimensionInfo_override (b : Binder) (operand : Operand)
    (newType : OperandType) (allowUnspecified : bool) :
  checkDimensionInfo b operand (Some newType) allowUnspecified = true <->
  exists info : option nat,
    typeInformation b operand = Some info
    /\ validateOperandType b newType info allowUnspecified
       = ANEURALNETWORKS_NO_ERROR
    /\ isUpdatable (op_dimensions operand) (ot_dimensions newType) = true.
Proof.
  unfold checkDimensionInfo, typeInformation.
  set (lookup := if isExtensionOperandType b (op_type operand) then _ else _).
  destruct lookup as [info|].
  2:{ split; [discriminate|]. intros (info & H & _). discriminate H. }
  assert ((if negb (validateOperandType b newType info allowUnspecified
                    =? ANEURALNETWORKS_NO_ERROR) then false
           else isUpdatable (op_dimensions operand) (ot_dimensions newType))
          = true <->
          validateOperandType b newType info allowUnspecified
          = ANEURALNETWORKS_NO_ERROR
          /\ isUpdatable (op_dimensions operand) (ot_dimensions newType) = true)
    as Hiff.
  { destruct (Z.eqb_spec (validateOperandType b newType info allowUnspecified)
                         ANEURALNETWORKS_NO_ERROR) as [Hv|Hv]; simpl.
    - tauto.
    - split; [discriminate | intros [H _]; contradiction]. }
  unfold isUpdatable in Hiff. rewrite overrides_fixed_dimension_loop.
  rewrite Hiff. split.
  - intros [Hv Hu]. exists info. unfold isUpdatable. auto.
  - intros (info' & [= <-] & Hv & Hu). unfold isUpdatable in Hu. auto.
Qed.

(* ===================================================================== *)
(** * Part XII -- The outputs of the execution under reconciliation       *)
(* ===================================================================== *)

Lemma outputs_assign_length outs :
  forall shapes, length (outputs_assign outs shapes) = length outs.
Proof.
  induction outs as [|o outs IH]; intros [|s shapes]; simpl; auto.
Qed.

Lemma outputs_assign_sameBinding outs :
  forall shapes, Forall2 sameBinding outs (outputs_assign outs shapes).
Proof.
  assert (forall l, Forall2 sameBinding l l) as Hrefl.
  { induction l; constructor; [repeat split | assumption]. }
  induction outs as [|o outs IH]; intros [|s shapes]; simpl;
    try apply Hrefl.
  constructor; [repeat split | apply IH].
Qed.

Lemma outputs_assign_lookup outs :
  forall shapes (i : nat) (s : OutputShape),
    length shapes = length outs ->
    shapes !! i = Some s ->
    exists o', outputs_assign outs shapes !! i = Some o'
               /\ dimensions o' = os_dimensions s
               /\ isSufficient o' = os_isSufficient s.
Proof.
  induction outs as [|o outs IH]; intros [|s0 shapes] i s Hlen Hs;
    simpl in Hlen; try lia.
  - destruct i; discriminate Hs.
  - destruct i as [|i]; simpl in *.
    + injection Hs as ->. eexists. split; [reflexivity|]. split; reflexivity.
    + apply IH; [lia | exact Hs].
Qed.

(** X4. [ExecutionBuilder::updateOutputShapes] touches nothing but the
    dimensions and sufficiency flags of the outputs: inputs, pools, flags
    and timing are the same afterwards, there are as many outputs, and
    each output keeps its kind of binding, its buffer and its location.
    After a successful call with a non-empty proposal, output [i] holds
    the dimensions and the flag of shape [i]. *)
Theorem updateOutputShapes_frame (shapes : list OutputShape) (e : ExecutionBuilder) :
  let e' := snd (updateOutputShapes shapes e) in
  (mCompilation e' = mCompilation e /\ mInputs e' = mInputs e
   /\ mMemories e' = mMemories e /\ mMeasureTiming e' = mMeasureTiming e
   /\ mTiming e' = mTiming e /\ mStarted e' = mStarted e
   /\ mFinished e' = mFinished e)
  /\ length (mOutputs e') = length (mOutputs e)
  /\ Forall2 sameBinding (mOutputs e) (mOutputs e')
  /\ (shapes <> [] -> fst (updateOutputShapes shapes e) = true ->
      forall (i : nat) (s : OutputShape),
        shapes !! i = Some s ->
        exists o', mOutputs e' !! i = Some o'
                   /\ dimensions o' = os_dimensions s
                   /\ isSufficient o' = os_isSufficient s).
Proof.
  assert (forall l, Forall2 sameBinding l l) as Hrefl.
  { induction l; constructor; [repeat split | assumption]. }
  unfold updateOutputShapes.
  destruct shapes as [|s0 shapes].
  { simpl. repeat split; auto. intros H; contradiction. }
  replace (length (s0 :: shapes) =? 0)%nat with false by reflexivity.
  destruct (Nat.eqb_spec (length (s0 :: shapes)) (length (mOutputs e)))
    as [Hlen|Hlen]; simpl negb; cbv iota.
  2:{ simpl. repeat split; auto. intros _ H; discriminate H. }
  destruct (outputs_updatable (mOutputs e) (s0 :: shapes)); simpl negb; cbv iota.
  2:{ simpl. repeat split; auto. intros _ H; discriminate H. }
  simpl fst; simpl snd. unfold set_mOutputs; simpl.
  split; [repeat split|]. split; [apply outputs_assign_length|].
  split; [apply outputs_assign_sameBinding|].
  intros _ _ i s Hs. apply outputs_assign_lookup; assumption.
Qed.

Lemma updateOutputShapes_frame_witness :
  exists o',
    mOutputs (snd (updateOutputShapes [shape [2; 4]; mkOutputShape [3] false]
                                      two_outputs)) !! 1%nat = Some o'
    /\ dimensions o' = [3] /\ isSufficient o' = false.
Proof.
  pose proof (updateOutputShapes_frame [shape [2; 4]; mkOutputShape [3] false]
                                       two_outputs) as (_ & _ & _ & H).
  exact (H ltac:(discriminate) eq_refl 1%nat (mkOutputShape [3] false) eq_refl).
Defined.

Lemma outputs_updatable_assign outs :
  forall shapes, length shapes = length outs ->
    outputs_updatable (outputs_assign outs shapes) shapes = true
    /\ outputs_assign (outputs_assign outs shapes) shapes
       = outputs_assign outs shapes.
Proof.
  induction outs as [|o outs IH]; intros [|s shapes] Hlen;
    simpl in Hlen; try lia; simpl.
  - split; reflexivity.
  - rewrite isUpdatable_refl.
    destruct (IH shapes ltac:(lia)) as [H1 H2]. rewrite H1, H2.
    split; reflexivity.
Qed.

(** X5. Reconciling the same shapes again is harmless: after a successful
    [ExecutionBuilder::updateOutputShapes], a second call with the same
    proposal succeeds and changes nothing. *)
Theorem updateOutputShapes_again (shapes : list OutputShape) (e : ExecutionBuilder) :
  fst (updateOutputShapes shapes e) = true ->
  updateOutputShapes shapes (snd (updateOutputShapes shapes e))
  = (true, snd (updateOutputShapes shapes e)).
Proof.
  unfold updateOutputShapes at 1 3 4.
  destruct shapes as [|s0 shapes]; [intros _; reflexivity|].
  replace (length (s0 :: shapes) =? 0)%nat with false by reflexivity.
  destruct (Nat.eqb_spec (length (s0 :: shapes)) (length (mOutputs e)))
    as [Hlen|Hlen]; simpl negb; cbv iota; [|discriminate].
  destruct (outputs_updatable (mOutputs e) (s0 :: shapes));
    simpl negb; cbv iota; [|discriminate].
  intros _. simpl snd. unfold updateOutputShapes.
  replace (length (s0 :: shapes) =? 0)%nat with false by reflexivity.
  destruct (outputs_updatable_assign (mOutputs e) (s0 :: shapes) Hlen)
    as [Hu Ha].
  unfold set_mOutputs at 1 2. simpl mOutputs.
  rewrite outputs_assign_length, <- Hlen, Nat.eqb_refl, Hu, Ha. simpl.
  reflexivity.
Qed.

Lemma updateOutputShapes_again_witness :
  updateOutputShapes [shape [2; 4]; shape [3]]
    (snd (updateOutputShapes [shape [2; 4]; shape [3]] two_outputs))
  = (true, snd (updateOutputShapes [shape [2; 4]; shape [3]] two_outputs)).
Proof.
  apply (updateOutputShapes_again [shape [2; 4]; shape [3]] two_outputs).
  reflexivity.
Defined.

Lemma outputs_updatable_initial outs :
  outputs_updatable outs (map (fun o => mkOutputShape (dimensions o) true) outs)
  = true.
Proof.
  induction outs as [|o outs IH]; simpl; [reflexivity|].
  rewrite isUpdatable_refl. exact IH.
Qed.

Lemma outputs_assign_initial outs :
  map dimensions
      (outputs_assign outs (map (fun o => mkOutputShape (dimensions o) true) outs))
  = map dimensions outs
  /\ Forall (fun o => isSufficient o = true)
            (outputs_assign outs
               (map (fun o => mkOutputShape (dimensions o) true) outs)).
Proof.
  induction outs as [|o outs [IH1 IH2]]; simpl.
  - split; [reflexivity | constructor].
  - split; [f_equal; exact IH1 | constructor; [reflexivity | exact IH2]].
Qed.

(** X6. The table [initializeOutputShapes] builds has one sufficient
    entry per output, and reconciling it back into the execution (what
    [finish] does when no step changed the table) succeeds, leaves every
    output's dimensions as bound and marks every output sufficient. *)
Theorem initializeOutputShapes_reconciles (e : ExecutionBuilder) :
  length (initializeOutputShapes e) = length (mOutputs e)
  /\ Forall (fun s => os_isSufficient s = true) (initializeOutputShapes e)
  /\ fst (updateOutputShapes (initializeOutputShapes e) e) = true
  /\ map dimensions
         (mOutputs (snd (updateOutputShapes (initializeOutputShapes e) e)))
     = map dimensions (mOutputs e)
  /\ (mOutputs e <> [] ->
      Forall (fun o => isSufficient o = true)
             (mOutputs (snd (updateOutputShapes (initializeOutputShapes e) e)))).
Proof.
  unfold initializeOutputShapes.
  split; [apply length_map|].
  split; [apply Forall_map, Forall_forall; intros; reflexivity|].
  unfold updateOutputShapes. rewrite length_map.
  destruct (mOutputs e) as [|o outs] eqn:Hout.
  { simpl. rewrite Hout. repeat split. intros H; contradiction. }
  replace (length (o :: outs) =? 0)%nat with false by reflexivity.
  rewrite Nat.eqb_refl, outputs_updatable_initial. simpl negb. cbv iota.
  simpl fst; simpl snd. unfold set_mOutputs. simpl mOutputs.
  destruct (outputs_assign_initial (o :: outs)) as [Hd Hs].
  split; [reflexivity|]. split; [exact Hd | intros _; exact Hs].
Qed.

Lemma initializeOutputShapes_reconciles_witness :
  Forall (fun o => isSufficient o = true)
         (mOutputs (snd (updateOutputShapes
                           (initializeOutputShapes execution_partitioned)
                           execution_partitioned))).
Proof.
  apply (initializeOutputShapes_reconciles execution_partitioned).
  discriminate.
Defined.

(* ===================================================================== *)
(** * Part XIII -- The walker's shape table under reconciliation          *)
(* ===================================================================== *)

Lemma shapes_refine_refl (t : list OutputShape) : shapes_refine t t.
Proof.
  unfold shapes_refine. induction t; constructor;
    [apply isUpdatable_refl | assumption].
Qed.

Lemma shapes_refine_trans (a b c : list OutputShape) :
  shapes_refine a b -> shapes_refine b c -> shapes_refine a c.
Proof.
  unfold shapes_refine. intros Hab. revert c.
  induction Hab as [|x y a b Hxy Hab IH]; intros c Hbc; inversion Hbc; subst.
  - constructor.
  - constructor; [eapply isUpdatable_trans; eassumption | apply IH; assumption].
Qed.

Lemma shapes_refine_length (a b : list OutputShape) :
  shapes_refine a b -> length a = length b.
Proof. apply Forall2_length. Qed.

(** Overwriting a slot with a shape that updates it refines the table. *)
Lemma shapes_refine_insert (to : list OutputShape) (j : nat) (t f : OutputShape) :
  to !! j = Some t ->
  isUpdatable (os_dimensions t) (os_dimensions f) = true ->
  shapes_refine to (<[j := f]> to).
Proof.
  intros Ht Hu. unfold shapes_refine.
  rewrite <- (list_insert_id to j t Ht) at 1.
  apply Forall2_insert; [apply shapes_refine_refl | exact Hu].
Qed.

Lemma step_update_mapped_refines mapping :
  forall from to,
    length (snd (step_update_mapped mapping from to)) = length to
    /\ shapes_refine to (snd (step_update_mapped mapping from to)).
Proof.
  induction mapping as [|j mapping IH]; intros from to.
  - simpl. split; [reflexivity | apply shapes_refine_refl].
  - destruct from as [|f from];
      [simpl; split; [reflexivity | apply shapes_refine_refl]|].
    simpl. destruct (to !! j) as [t|] eqn:Ht;
      [|simpl; split; [reflexivity | apply shapes_refine_refl]].
    destruct (isUpdatable (os_dimensions t) (os_dimensions f)) eqn:Hu;
      [|simpl; split; [reflexivity | apply shapes_refine_refl]].
    destruct (IH from (<[j := f]> to)) as [Hlen Href].
    split; [rewrite Hlen; apply length_insert|].
    eapply shapes_refine_trans; [|exact Href].
    eapply shapes_refine_insert; eassumption.
Qed.

Lemma step_update_direct_refines from :
  forall (i : nat) to,
    length (snd (step_update_direct i from to)) = length to
    /\ shapes_refine to (snd (step_update_direct i from to)).
Proof.
  induction from as [|f from IH]; intros i to.
  - simpl. split; [reflexivity | apply shapes_refine_refl].
  - simpl. destruct (to !! i) as [t|] eqn:Ht;
      [|simpl; split; [reflexivity | apply shapes_refine_refl]].
    destruct (isUpdatable (os_dimensions t) (os_dimensions f)) eqn:Hu;
      [|simpl; split; [reflexivity | apply shapes_refine_refl]].
    destruct (IH (S i) (<[i := f]> to)) as [Hlen Href].
    split; [rewrite Hlen; apply length_insert|].
    eapply shapes_refine_trans; [|exact Href].
    eapply shapes_refine_insert; eassumption.
Qed.

Lemma StepExecutor_updateOutputShapes_refines (ex : StepExecutor)
    (from to : list OutputShape) :
  length (snd (StepExecutor_updateOutputShapes ex from to)) = length to
  /\ shapes_refine to (snd (StepExecutor_updateOutputShapes ex from to)).
Proof.
  unfold StepExecutor_updateOutputShapes.
  destruct (length from =? 0)%nat;
    [simpl; split; [reflexivity | apply shapes_refine_refl]|].
  destruct (mExecutionStep ex) as [mapping|].
  - destruct (negb _);
      [simpl; split; [reflexivity | apply shapes_refine_refl]|].
    apply step_update_mapped_refines.
  - destruct (negb _);
      [simpl; split; [reflexivity | apply shapes_refine_refl]|].
    apply step_update_direct_refines.
Qed.

(** X7. Whatever [StepExecutor::updateOutputShapes] returns, and for
    every index mapping, the table keeps its size and each of its slots
    is an update (in the sense of [isUpdatable]) of what it held before:
    a dimension the table has fixed is never changed, also not by the
    assignments made before a failing check. *)
Theorem step_reconciliation_refines (ex : StepExecutor)
    (from to : list OutputShape) :
  length (snd (StepExecutor_updateOutputShapes ex from to)) = length to
  /\ shapes_refine to (snd (StepExecutor_updateOutputShapes ex from to))
  /\ forall (j : nat) (old new : OutputShape) (i : nat) (d : Z),
      to !! j = Some old ->
      snd (StepExecutor_updateOutputShapes ex from to) !! j = Some new ->
      os_dimensions old !! i = Some d -> d <> 0 ->
      os_dimensions new !! i = Some d.
Proof.
  destruct (StepExecutor_updateOutputShapes_refines ex from to) as [Hlen Href].
  split; [exact Hlen|]. split; [exact Href|].
  intros j old new i d Hold Hnew Hd Hnz.
  unfold shapes_refine in Href.
  pose proof (Forall2_lookup_lr _ _ _ _ _ _ Href Hold Hnew) as Hu.
  apply isUpdatable_true in Hu as [Hempty | [_ Hpos]].
  - rewrite Hempty in Hd. destruct i; discriminate Hd.
  - exact (Hpos i d Hd Hnz).
Qed.

Lemma step_reconciliation_refines_witness :
  List.length (snd (StepExecutor_updateOutputShapes (step_executor 0)
                      [shape [2; 3]; shape [4]]
                      (initializeOutputShapes execution_partitioned)))
  = 3%nat
  /\ os_dimensions (shape [2; 3]) !! 0%nat = Some 2.
Proof.
  pose proof (step_reconciliation_refines (step_executor 0)
                [shape [2; 3]; shape [4]]
                (initializeOutputShapes execution_partitioned))
    as (Hlen & _ & H).
  split; [exact Hlen|].
  apply (H 0%nat (shape [2; 0]) (shape [2; 3]) 0%nat 2 eq_refl eq_refl eq_refl).
  discriminate.
Defined.

Lemma step_update_direct_result from :
  forall (i : nat) to,
    length to = (i + length from)%nat ->
    fst (step_update_direct i from to) = true ->
    snd (step_update_direct i from to) = take i to ++ from.
Proof.
  induction from as [|f from IH]; intros i to Hlen; simpl.
  - intros _. rewrite app_nil_r. symmetry. apply take_ge. simpl in Hlen. lia.
  - simpl in Hlen. destruct (to !! i) as [t|] eqn:Ht; [|discriminate].
    destruct (isUpdatable (os_dimensions t) (os_dimensions f)); [|discriminate].
    intros Hok. rewrite (IH (S i) (<[i := f]> to)); [|rewrite length_insert; lia|exact Hok].
    rewrite (take_S_r _ _ f).
    + rewrite take_insert_ge by lia. rewrite <- app_assoc. reflexivity.
    + apply list_lookup_insert_eq. lia.
Qed.

(** X8. For an executor of the whole model, a successful
    [StepExecutor::updateOutputShapes] with a non-empty report replaces
    the table by the report: every slot holds the reported shape,
    sufficiency flag included. *)
Theorem whole_model_reconciliation_result (ex : StepExecutor)
    (from to : list OutputShape) :
  mExecutionStep ex = None ->
  from <> [] ->
  fst (StepExecutor_updateOutputShapes ex from to) = true ->
  snd (StepExecutor_updateOutputShapes ex from to) = from.
Proof.
  intros Hstep Hne. unfold StepExecutor_updateOutputShapes. rewrite Hstep.
  destruct from as [|f from]; [contradiction|].
  replace (length (f :: from) =? 0)%nat with false by reflexivity.
  destruct (Nat.eqb_spec (length (f :: from)) (length to)) as [Hlen|Hlen];
    simpl negb; cbv iota; [|discriminate].
  intros Hok.
  rewrite (step_update_direct_result (f :: from) 0 to); [reflexivity| |exact Hok].
  simpl. simpl in Hlen. lia.
Qed.

Lemma whole_model_reconciliation_result_witness :
  snd (StepExecutor_updateOutputShapes full_executor_on_cpu
         [shape [2; 3]; mkOutputShape [4] false; shape [6]]
         (initializeOutputShapes execution_partitioned))
  = [shape [2; 3]; mkOutputShape [4] false; shape [6]].
Proof.
  apply (whole_model_reconciliation_result full_executor_on_cpu);
    [reflexivity | discriminate | reflexivity].
Defined.

Lemma step_update_mapped_other mapping :
  forall from to (j : nat),
    j ∉ mapping ->
    snd (step_update_mapped mapping from to) !! j = to !! j.
Proof.
  induction mapping as [|m mapping IH]; intros from to j Hj; [reflexivity|].
  destruct from as [|f from]; [reflexivity|]. simpl.
  apply not_elem_of_cons in Hj as [Hne Hj].
  destruct (to !! m) as [t|]; [|reflexivity].
  destruct (isUpdatable (os_dimensions t) (os_dimensions f)); [|reflexivity].
  rewrite IH by exact Hj. apply list_lookup_insert_ne. congruence.
Qed.

Lemma step_update_mapped_slot mapping :
  forall from to (k j : nat),
    NoDup mapping ->
    (length mapping <= length from)%nat ->
    fst (step_update_mapped mapping from to) = true ->
    mapping !! k = Some j ->
    snd (step_update_mapped mapping from to) !! j = from !! k.
Proof.
  induction mapping as [|m mapping IH]; intros from to k j Hnd Hlen Hok Hk.
  - destruct k; discriminate Hk.
  - destruct from as [|f from]; [simpl in Hlen; lia|].
    simpl in Hok |- *. apply NoDup_cons in Hnd as [Hnotin Hnd].
    destruct (to !! m) as [t|] eqn:Hm; [|discriminate].
    destruct (isUpdatable (os_dimensions t) (os_dimensions f)); [|discriminate].
    destruct k as [|k]; simpl in Hk |- *.
    + injection Hk as ->.
      rewrite step_update_mapped_other by exact Hnotin.
      apply list_lookup_insert_eq. eapply lookup_lt_Some. exact Hm.
    + apply IH; [exact Hnd | simpl in Hlen; lia | exact Hok | exact Hk].
Qed.

(** X9. For a step of a partitioned plan, [StepExecutor::updateOutputShapes]
    leaves every slot the step does not write as it was; and when the call
    succeeds and the step's outputs are distinct, slot [indexMapping[k]]
    holds entry [k] of the report. *)
Theorem step_reconciliation_result (ex : StepExecutor) (mapping : list nat)
    (from to : list OutputShape) :
  mExecutionStep ex = Some mapping ->
  (forall j : nat,
      j ∉ mapping ->
      snd (StepExecutor_updateOutputShapes ex from to) !! j = to !! j)
  /\ (from <> [] -> NoDup mapping ->
      fst (StepExecutor_updateOutputShapes ex from to) = true ->
      forall k j : nat,
        mapping !! k = Some j ->
        snd (StepExecutor_updateOutputShapes ex from to) !! j = from !! k).
Proof.
  intros Hstep. unfold StepExecutor_updateOutputShapes. rewrite Hstep.
  split.
  - intros j Hj. destruct (length from =? 0)%nat; [reflexivity|].
    destruct (negb _); [reflexivity|].
    apply step_update_mapped_other. exact Hj.
  - intros Hne Hnd. destruct from as [|f from]; [contradiction|].
    replace (length (f :: from) =? 0)%nat with false by reflexivity.
    destruct (Nat.leb_spec (length mapping) (length (f :: from))) as [Hle|Hgt];
      simpl negb; cbv iota; [|discriminate].
    intros Hok k j Hk.
    apply step_update_mapped_slot; assumption.
Qed.

Lemma NoDup_outputs_of_step0 : NoDup [0%nat; 1%nat].
Proof.
  apply NoDup_cons. split; [|apply NoDup_singleton].
  intros H. apply list_elem_of_singleton in H. discriminate H.
Qed.

Lemma step_reconciliation_result_witness :
  snd (StepExecutor_updateOutputShapes (step_executor 0)
         [shape [2; 3]; mkOutputShape [4] false]
         (initializeOutputShapes execution_partitioned)) !! 2%nat
  = Some (shape [6])
  /\ snd (StepExecutor_updateOutputShapes (step_executor 0)
            [shape [2; 3]; mkOutputShape [4] false]
            (initializeOutputShapes execution_partitioned)) !! 1%nat
     = Some (mkOutputShape [4] false).
Proof.
  destruct (step_reconciliation_result (step_executor 0) [0%nat; 1%nat]
              [shape [2; 3]; mkOutputShape [4] false]
              (initializeOutputShapes execution_partitioned) eq_refl)
    as [Hother Hslot].
  split.
  - apply (Hother 2%nat). intros H.
    apply elem_of_cons in H as [H | H]; [discriminate H|].
    apply elem_of_cons in H as [H | H]; [discriminate H|].
    inversion H.
  - apply (Hslot ltac:(discriminate)
                 NoDup_outputs_of_step0
                 eq_refl 1%nat 1%nat eq_refl).
Defined.

(** Output 0 is bound as 2x?, and step 0 reports 5x3 for it. *)
Lemma StepExecutor_updateOutputShapes_rejects_witness :
  fst (StepExecutor_updateOutputShapes (step_executor 0)
         [shape [5; 3]; shape [4]]
         (initializeOutputShapes execution_partitioned)) = false.
Proof.
  apply (StepExecutor_updateOutputShapes_rejects (step_executor 0)
           [shape [5; 3]; shape [4]]
           (initializeOutputShapes execution_partitioned)
           0%nat 0%nat (shape [2; 0]) (shape [5; 3])).
  - split; [exact NoDup_outputs_of_step0 | reflexivity].
  - reflexivity.
  - reflexivity.
  - reflexivity.
Defined.

(* ===================================================================== *)
(** * Part XIV -- What the binding calls change                           *)
(* ===================================================================== *)

(** Everything of an execution except its bindings and its pool table. *)
Lemma untouched_by_set_mInputs v e :
  mCompilation (set_mInputs v e) = mCompilation e
  /\ mMeasureTiming (set_mInputs v e) = mMeasureTiming e
  /\ mTiming (set_mInputs v e) = mTiming e
  /\ mStarted (set_mInputs v e) = mStarted e
  /\ mFinished (set_mInputs v e) = mFinished e.
Proof. repeat split. Qed.

(** X11. [setInput] changes at most the binding of input [index]: the
    other inputs, the number of inputs, all outputs, the pool table, the
    flags and the timing are as before, whatever the call returns.
    [setOutput] likewise changes at most the binding of output [index]. *)
Theorem pointer_binding_frame (b : Binder) (index : Z)
    (type : option OperandType) (buffer length : Z) (e : ExecutionBuilder) :
  (let e' := snd (setInput b index type buffer length e) in
   mOutputs e' = mOutputs e /\ mMemories e' = mMemories e
   /\ mCompilation e' = mCompilation e
   /\ mMeasureTiming e' = mMeasureTiming e /\ mTiming e' = mTiming e
   /\ mStarted e' = mStarted e /\ mFinished e' = mFinished e
   /\ List.length (mInputs e') = List.length (mInputs e)
   /\ forall k : nat, k <> Z.to_nat index -> mInputs e' !! k = mInputs e !! k)
  /\ (let e' := snd (setOutput b index type buffer length e) in
      mInputs e' = mInputs e /\ mMemories e' = mMemories e
      /\ mCompilation e' = mCompilation e
      /\ mMeasureTiming e' = mMeasureTiming e /\ mTiming e' = mTiming e
      /\ mStarted e' = mStarted e /\ mFinished e' = mFinished e
      /\ List.length (mOutputs e') = List.length (mOutputs e)
      /\ forall k : nat, k <> Z.to_nat index -> mOutputs e' !! k = mOutputs e !! k).
Proof.
  split.
  - unfold setInput.
    destruct (mStarted e) eqn:Hs; [simpl; repeat split; auto|].
    destruct (count32 (mInputs e) <=? index); [simpl; repeat split; auto|].
    destruct (negb (checkDimensionInfo _ _ _ _)); [simpl; repeat split; auto|].
    destruct (4294967295 <? length); [simpl; repeat split; auto|].
    destruct (setFromPointer _ _ _ _ _ _) as [n info].
    simpl. repeat split; auto.
    + apply length_insert.
    + intros k Hk. apply list_lookup_insert_ne. congruence.
  - unfold setOutput.
    destruct (mStarted e) eqn:Hs; [simpl; repeat split; auto|].
    destruct (count32 (mOutputs e) <=? index); [simpl; repeat split; auto|].
    destruct (negb (checkDimensionInfo _ _ _ _)); [simpl; repeat split; auto|].
    destruct (4294967295 <? length); [simpl; repeat split; auto|].
    destruct (setFromPointer _ _ _ _ _ _) as [n info].
    simpl. repeat split; auto.
    + apply length_insert.
    + intros k Hk. apply list_lookup_insert_ne. congruence.
Qed.

(** X12. [setInputFromMemory] and [setOutputFromMemory] change at most
    the binding of the slot [index] and the pool table: the other slots
    of the same kind, their number, the bindings of the other kind, the
    flags and the timing are as before, whatever the call returns. *)
Theorem pool_binding_frame (b : Binder) (index : Z)
    (type : option OperandType) (memory : Memory) (offset length : Z)
    (e : ExecutionBuilder) :
  (let e' := snd (setInputFromMemory b index type memory offset length e) in
   mOutputs e' = mOutputs e
   /\ mCompilation e' = mCompilation e
   /\ mMeasureTiming e' = mMeasureTiming e /\ mTiming e' = mTiming e
   /\ mStarted e' = mStarted e /\ mFinished e' = mFinished e
   /\ List.length (mInputs e') = List.length (mInputs e)
   /\ forall k : nat, k <> Z.to_nat index -> mInputs e' !! k = mInputs e !! k)
  /\ (let e' := snd (setOutputFromMemory b index type memory offset length e) in
      mInputs e' = mInputs e
      /\ mCompilation e' = mCompilation e
      /\ mMeasureTiming e' = mMeasureTiming e /\ mTiming e' = mTiming e
      /\ mStarted e' = mStarted e /\ mFinished e' = mFinished e
      /\ List.length (mOutputs e') = List.length (mOutputs e)
      /\ forall k : nat, k <> Z.to_nat index -> mOutputs e' !! k = mOutputs e !! k).
Proof.
  split.
  - unfold setInputFromMemory.
    destruct (mStarted e) eqn:Hs; [simpl; repeat split; auto|].
    destruct (count32 (mInputs e) <=? index); [simpl; repeat split; auto|].
    destruct (negb (checkDimensionInfo _ _ _ _)); [simpl; repeat split; auto|].
    destruct (_ && _); [simpl; repeat split; auto|].
    destruct (negb (validateSize _ _ _ _)); [simpl; repeat split; auto|].
    destruct (memories_add memory (mMemories e)) as [pool memories].
    destruct (setFromMemory _ _ _ _ _ _ _) as [n info].
    simpl. repeat split; auto.
    + apply length_insert.
    + intros k Hk. apply list_lookup_insert_ne. congruence.
  - unfold setOutputFromMemory.
    destruct (mStarted e) eqn:Hs; [simpl; repeat split; auto|].
    destruct (count32 (mOutputs e) <=? index); [simpl; repeat split; auto|].
    destruct (negb (checkDimensionInfo _ _ _ _)); [simpl; repeat split; auto|].
    destruct (_ && _); [simpl; repeat split; auto|].
    destruct (negb (validateSize _ _ _ _)); [simpl; repeat split; auto|].
    destruct (memories_add memory (mMemories e)) as [pool memories].
    destruct (setFromMemory _ _ _ _ _ _ _) as [n info].
    simpl. repeat split; auto.
    + apply length_insert.
    + intros k Hk. apply list_lookup_insert_ne. congruence.
Qed.

(** An index below the number of slots passes the range check when the
    number of slots fits 32 bits. *)
Lemma count32_in_range {A : Type} (v : list A) (index : Z) :
  Z.of_nat (List.length v) < UINT32_MODULUS ->
  index < Z.of_nat (List.length v) ->
  (count32 v <=? index) = false.
Proof.
  intros Hfit Hidx. unfold count32.
  rewrite Z.mod_small by lia. apply Z.leb_gt. exact Hidx.
Qed.

(** X13. The length check of [setInput] makes the conversion to
    [uint32_t] exact: on an execution that has not started,
    for a slot in range whose type passes [checkDimensionInfo], a length
    above [0xFFFFFFFF] is rejected with [ANEURALNETWORKS_BAD_DATA] and the
    execution is unchanged, and any other length reaches
    [setFromPointer] as it was given, whose result code is returned and
    whose binding is stored in the slot. *)
Theorem pointer_binding_length (b : Binder) (index : Z)
    (type : option OperandType) (buffer length : Z) (e : ExecutionBuilder) :
  mStarted e = false ->
  Z.of_nat (List.length (mInputs e)) < UINT32_MODULUS ->
  0 <= index < Z.of_nat (List.length (mInputs e)) ->
  checkDimensionInfo b (operandAt (inputOperands (mCompilation e)) index)
                     type (buffer =? 0) = true ->
  (4294967295 < length ->
   setInput b index type buffer length e = (ANEURALNETWORKS_BAD_DATA, e))
  /\ (0 <= length <= 4294967295 ->
      setInput b index type buffer length e
      = (fst (setFromPointer b (operandAt (inputOperands (mCompilation e)) index)
                             type buffer length (argAt (mInputs e) index)),
         set_mInputs
           (<[Z.to_nat index :=
                snd (setFromPointer b
                       (operandAt (inputOperands (mCompilation e)) index)
                       type buffer length (argAt (mInputs e) index))]>
              (mInputs e)) e)).
Proof.
  intros Hs Hfit [H0 Hidx] Hcheck. unfold setInput.
  rewrite Hs, (count32_in_range _ _ Hfit Hidx), Hcheck. simpl negb. cbv iota.
  split.
  - intros Hbig. apply Z.ltb_lt in Hbig. rewrite Hbig. reflexivity.
  - intros [Hl0 Hl]. pose proof Hl as Hl'. apply Z.ltb_ge in Hl'. rewrite Hl'.
    change UINT32_MODULUS with 4294967296.
    rewrite Z.mod_small by lia.
    destruct (setFromPointer _ _ _ _ _ _) as [n info]. reflexivity.
Qed.

Lemma pointer_binding_length_witness :
  setInput binder_accepting 0 None 4096 4294967296
           (execution_bound compilation_one_device)
  = (ANEURALNETWORKS_BAD_DATA, execution_bound compilation_one_device)
  /\ fst (setInput binder_accepting 0 None 4096 4294967295
                   (execution_bound compilation_one_device))
     = ANEURALNETWORKS_NO_ERROR.
Proof.
  destruct (pointer_binding_length binder_accepting 0 None 4096 4294967296
              (execution_bound compilation_one_device)
              eq_refl eq_refl (conj (Z.le_refl 0) eq_refl) eq_refl) as [Hbig _].
  destruct (pointer_binding_length binder_accepting 0 None 4096 4294967295
              (execution_bound compilation_one_device)
              eq_refl eq_refl (conj (Z.le_refl 0) eq_refl) eq_refl) as [_ Hfits].
  split; [apply Hbig; reflexivity|].
  rewrite Hfits by lia. reflexivity.
Defined.

Lemma existsb_isUnspecified (args : list ModelArgumentInfo) (i : nat)
    (p : ModelArgumentInfo) :
  args !! i = Some p -> state p = UNSPECIFIED ->
  existsb isUnspecified args = true.
Proof.
  intros Hp Hst. apply existsb_exists. exists p. split.
  - apply list_elem_of_In. eapply list_elem_of_lookup_2. exact Hp.
  - unfold isUnspecified. rewrite Hst. reflexivity.
Qed.

(** X14. [compute] on an execution that has not started and has an input
    or an output still [UNSPECIFIED] returns [ANEURALNETWORKS_BAD_DATA]
    at once -- on every path, synchronous or not -- and leaves the
    execution as it was, not started: the missing binding can still be
    supplied. *)
Theorem compute_unbound {C : Type} (rt : Runtime C) (synchronous : bool)
    (fuel : nat) (e : ExecutionBuilder) (i : nat) (p : ModelArgumentInfo) :
  mStarted e = false ->
  mInputs e !! i = Some p \/ mOutputs e !! i = Some p ->
  state p = UNSPECIFIED ->
  compute rt synchronous fuel e = ComputeReturns ANEURALNETWORKS_BAD_DATA e.
Proof.
  intros Hs Hslot Hst. unfold compute. rewrite Hs.
  destruct Hslot as [Hin | Hout].
  - rewrite (existsb_isUnspecified _ _ _ Hin Hst). reflexivity.
  - rewrite (existsb_isUnspecified _ _ _ Hout Hst).
    destruct (existsb isUnspecified (mInputs e)); reflexivity.
Qed.

Lemma compute_unbound_witness :
  compute (runtime_two_steps false devices_working) false 0
          (set_mOutputs [defaultArg] (execution_bound compilation_one_device))
  = ComputeReturns ANEURALNETWORKS_BAD_DATA
      (set_mOutputs [defaultArg] (execution_bound compilation_one_device)).
Proof.
  apply (compute_unbound (runtime_two_steps false devices_working) false 0
           (set_mOutputs [defaultArg] (execution_bound compilation_one_device))
           0%nat defaultArg eq_refl (or_intror eq_refl) eq_refl).
Defined.

(* ===================================================================== *)
(** * Part XV -- The result queries                                       *)
(* ===================================================================== *)

Lemma argAt_lookup (args : list ModelArgumentInfo) (index : Z)
    (a : ModelArgumentInfo) :
  args !! Z.to_nat index = Some a -> argAt args index = a.
Proof. intros H. unfold argAt. rewrite H. reflexivity. Qed.

Lemma lookup_in_range (args : list ModelArgumentInfo) (index : Z)
    (a : ModelArgumentInfo) :
  0 <= index -> args !! Z.to_nat index = Some a ->
  index < Z.of_nat (List.length args).
Proof. intros H0 H. apply lookup_lt_Some in H. lia. Qed.

(** X15. On a finished execution, [getOutputOperandDimensions] for an
    output in range with recorded dimensions [dims] (not empty) writes
    [dims] over the first cells of the caller's buffer and leaves the
    cells after them as they were; it returns
    [ANEURALNETWORKS_NO_ERROR] when the output was sufficient and
    [ANEURALNETWORKS_OUTPUT_INSUFFICIENT_SIZE] otherwise -- the
    dimensions are delivered in both cases. *)
Theorem getOutputOperandDimensions_tensor_result (e : ExecutionBuilder)
    (index : Z) (dimensionsBuf : list Z) (out : ModelArgumentInfo) :
  mFinished e = true ->
  Z.of_nat (List.length (mOutputs e)) < UINT32_MODULUS ->
  0 <= index ->
  mOutputs e !! Z.to_nat index = Some out ->
  dimensions out <> [] ->
  (List.length (dimensions out) <= List.length dimensionsBuf)%nat ->
  let r := getOutputOperandDimensions index dimensionsBuf e in
  fst r = (if isSufficient out then ANEURALNETWORKS_NO_ERROR
           else ANEURALNETWORKS_OUTPUT_INSUFFICIENT_SIZE)
  /\ take (List.length (dimensions out)) (snd r) = dimensions out
  /\ drop (List.length (dimensions out)) (snd r)
     = drop (List.length (dimensions out)) dimensionsBuf
  /\ List.length (snd r) = List.length dimensionsBuf.
Proof.
  intros Hf Hfit H0 Hout Hne Hbuf r. subst r.
  unfold getOutputOperandDimensions.
  rewrite Hf, (count32_in_range _ _ Hfit (lookup_in_range _ _ _ H0 Hout)).
  rewrite (argAt_lookup _ _ _ Hout). simpl negb. cbv iota.
  destruct (dimensions out) as [|d dims] eqn:Hd; [contradiction|].
  replace (List.length (d :: dims) =? 0)%nat with false by reflexivity.
  cbv iota. simpl fst. simpl snd. unfold copy_into.
  split; [reflexivity|]. split; [|split].
  - rewrite take_app_length. reflexivity.
  - rewrite drop_app_length. reflexivity.
  - rewrite length_app, length_drop. lia.
Qed.

Lemma getOutputOperandDimensions_tensor_result_witness :
  fst (getOutputOperandDimensions 0 [7; 7; 7]
         (execution_finished [boundArg [2; 3] false] false kNoTiming))
  = ANEURALNETWORKS_OUTPUT_INSUFFICIENT_SIZE
  /\ take 2 (snd (getOutputOperandDimensions 0 [7; 7; 7]
                    (execution_finished [boundArg [2; 3] false] false kNoTiming)))
     = [2; 3].
Proof.
  destruct (getOutputOperandDimensions_tensor_result
              (execution_finished [boundArg [2; 3] false] false kNoTiming)
              0 [7; 7; 7] (boundArg [2; 3] false)
              eq_refl eq_refl (Z.le_refl 0) eq_refl
              ltac:(discriminate) ltac:(simpl; lia)) as (Hc & Ht & _).
  split; [exact Hc | exact Ht].
Defined.

(** X16. On a finished execution, [getOutputOperandRank] for an output
    in range stores the number of recorded dimensions and returns the code
    of the output's sufficiency.  It does so for a scalar too (rank 0),
    for which [getOutputOperandDimensions] fails; for a tensor the two
    queries return the same code and the rank is the number of cells the
    dimension query writes. *)
Theorem getOutputOperandRank_result (e : ExecutionBuilder) (index : Z)
    (rank : Z) (dimensionsBuf : list Z) (out : ModelArgumentInfo) :
  mFinished e = true ->
  Z.of_nat (List.length (mOutputs e)) < UINT32_MODULUS ->
  0 <= index ->
  mOutputs e !! Z.to_nat index = Some out ->
  Z.of_nat (List.length (dimensions out)) < UINT32_MODULUS ->
  getOutputOperandRank index rank e
  = (if isSufficient out then ANEURALNETWORKS_NO_ERROR
     else ANEURALNETWORKS_OUTPUT_INSUFFICIENT_SIZE,
     Z.of_nat (List.length (dimensions out)))
  /\ (dimensions out <> [] ->
      fst (getOutputOperandDimensions index dimensionsBuf e)
      = fst (getOutputOperandRank index rank e)
      /\ snd (getOutputOperandDimensions index dimensionsBuf e)
         = dimensions out
           ++ drop (Z.to_nat (snd (getOutputOperandRank index rank e)))
                   dimensionsBuf).
Proof.
  intros Hf Hfit H0 Hout Hrank.
  assert (getOutputOperandRank index rank e
          = (if isSufficient out then ANEURALNETWORKS_NO_ERROR
             else ANEURALNETWORKS_OUTPUT_INSUFFICIENT_SIZE,
             Z.of_nat (List.length (dimensions out)))) as Hr.
  { unfold getOutputOperandRank.
    rewrite Hf, (count32_in_range _ _ Hfit (lookup_in_range _ _ _ H0 Hout)).
    rewrite (argAt_lookup _ _ _ Hout). simpl negb. cbv iota.
    unfold count32. rewrite Z.mod_small by lia. reflexivity. }
  split; [exact Hr|]. intros Hne. rewrite Hr. simpl fst. simpl snd.
  rewrite Nat2Z.id.
  unfold getOutputOperandDimensions.
  rewrite Hf, (count32_in_range _ _ Hfit (lookup_in_range _ _ _ H0 Hout)).
  rewrite (argAt_lookup _ _ _ Hout). simpl negb. cbv iota.
  destruct (dimensions out) as [|d dims] eqn:Hd; [contradiction|].
  replace (List.length (d :: dims) =? 0)%nat with false by reflexivity.
  split; reflexivity.
Qed.

Lemma getOutputOperandRank_result_witness :
  getOutputOperandRank 1 99
    (execution_finished [boundArg [2; 3] true; boundArg [] true] false kNoTiming)
  = (ANEURALNETWORKS_NO_ERROR, 0).
Proof.
  apply (getOutputOperandRank_result
           (execution_finished [boundArg [2; 3] true; boundArg [] true]
                               false kNoTiming)
           1 99 [] (boundArg [] true) eq_refl eq_refl ltac:(lia) eq_refl eq_refl).
Defined.

Lemma updateOutputShapes_mFinished shapes e :
  mFinished (snd (updateOutputShapes shapes e)) = mFinished e.
Proof.
  unfold updateOutputShapes.
  repeat match goal with |- context [if ?c then _ else _] => destruct c end;
    reflexivity.
Qed.

Lemma updateOutputShapes_rejected shapes e :
  fst (updateOutputShapes shapes e) = false ->
  snd (updateOutputShapes shapes e) = e.
Proof.
  unfold updateOutputShapes.
  repeat match goal with |- context [if ?c then _ else _] => destruct c end;
    simpl; congruence.
Qed.

(** X17. [finish] runs once.  When it returns, the execution is finished
    and a further call trips the [CHECK]; and when it returns
    [GENERAL_FAILURE] (the final shapes did not reconcile) the execution
    is finished all the same, with inputs and outputs as they were
    bound. *)
Theorem finish_once (shapes : list OutputShape) (e e' : ExecutionBuilder)
    (status : ErrorStatus) :
  finish shapes e = Returns (status, e') ->
  mFinished e = false
  /\ mFinished e' = true
  /\ (forall shapes', finish shapes' e' = CheckFailed)
  /\ (status = NONE \/ status = GENERAL_FAILURE)
  /\ (status = GENERAL_FAILURE -> e' = set_mFinished true e).
Proof.
  unfold finish. destruct (mFinished e) eqn:Hf; [discriminate|].
  pose proof (updateOutputShapes_mFinished shapes (set_mFinished true e)) as Hfin.
  pose proof (updateOutputShapes_rejected shapes (set_mFinished true e)) as Hat.
  destruct (updateOutputShapes shapes (set_mFinished true e)) as [ok e1].
  simpl in Hfin. intros [= <- <-].
  split; [reflexivity|]. split; [exact Hfin|].
  split; [intros shapes'; rewrite Hfin; reflexivity|].
  split; [destruct ok; auto|].
  destruct ok; [discriminate|]. intros _. exact (Hat eq_refl).
Qed.

Lemma finish_once_witness :
  finish [shape [2; 4]; shape [9]]
         (set_mFinished false two_outputs)
  = Returns (GENERAL_FAILURE, two_outputs)
  /\ finish [] two_outputs = CheckFailed.
Proof.
  split; [reflexivity|].
  destruct (finish_once [shape [2; 4]; shape [9]]
              (set_mFinished false two_outputs) two_outputs GENERAL_FAILURE
              eq_refl) as (_ & _ & Hcheck & _).
  apply Hcheck.
Defined.

(** X18. What the shapes of the final notification say is what the
    queries return.  When [finish] accepts the final shapes, the
    dimension query for output [i] writes the dimensions of shape [i] and
    both queries return [ANEURALNETWORKS_OUTPUT_INSUFFICIENT_SIZE] exactly
    when shape [i] was reported insufficient. *)
Theorem finish_then_query (shapes : list OutputShape) (e e' : ExecutionBuilder)
    (i : nat) (s : OutputShape) (dimensionsBuf : list Z) (rank : Z) :
  finish shapes e = Returns (NONE, e') ->
  Z.of_nat (List.length (mOutputs e)) < UINT32_MODULUS ->
  shapes !! i = Some s ->
  os_dimensions s <> [] ->
  getOutputOperandDimensions (Z.of_nat i) dimensionsBuf e'
  = (if os_isSufficient s then ANEURALNETWORKS_NO_ERROR
     else ANEURALNETWORKS_OUTPUT_INSUFFICIENT_SIZE,
     os_dimensions s ++ drop (List.length (os_dimensions s)) dimensionsBuf)
  /\ fst (getOutputOperandRank (Z.of_nat i) rank e')
     = (if os_isSufficient s then ANEURALNETWORKS_NO_ERROR
        else ANEURALNETWORKS_OUTPUT_INSUFFICIENT_SIZE).
Proof.
  intros Hfin Hfit Hs Hne.
  unfold finish in Hfin. destruct (mFinished e) eqn:Hf; [discriminate|].
  unfold updateOutputShapes in Hfin.
  destruct shapes as [|s0 shapes]; [destruct i; discriminate Hs|].
  replace (List.length (s0 :: shapes) =? 0)%nat with false in Hfin
    by reflexivity.
  simpl mOutputs in Hfin.
  destruct (Nat.eqb_spec (List.length (s0 :: shapes)) (List.length (mOutputs e)))
    as [Hlen|Hlen]; simpl negb in Hfin; cbv iota in Hfin; [|discriminate].
  destruct (outputs_updatable (mOutputs e) (s0 :: shapes));
    simpl negb in Hfin; cbv iota in Hfin; [|discriminate].
  injection Hfin as <-.
  destruct (outputs_assign_lookup (mOutputs e) (s0 :: shapes) i s Hlen Hs)
    as (o' & Ho' & Hd & Hsuf).
  assert ((count32 (outputs_assign (mOutputs e) (s0 :: shapes)) <=? Z.of_nat i)
          = false) as Hrange.
  { apply count32_in_range.
    - rewrite outputs_assign_length. exact Hfit.
    - apply lookup_lt_Some in Ho'. lia. }
  unfold getOutputOperandDimensions, getOutputOperandRank, argAt.
  simpl mFinished. simpl mOutputs. rewrite Hrange, Nat2Z.id, Ho'.
  simpl negb. cbv iota. simpl default. rewrite Hd, Hsuf.
  destruct (os_dimensions s) as [|d ds] eqn:Hds; [contradiction|].
  replace (List.length (d :: ds) =? 0)%nat with false by reflexivity.
  split; reflexivity.
Qed.

Lemma finish_then_query_witness :
  getOutputOperandDimensions 1 [0; 0]
    (snd (updateOutputShapes [shape [2; 4]; mkOutputShape [3] false]
                             two_outputs))
  = (ANEURALNETWORKS_OUTPUT_INSUFFICIENT_SIZE, [3; 0]).
Proof.
  apply (finish_then_query [shape [2; 4]; mkOutputShape [3] false]
           (set_mFinished false two_outputs) _ 1%nat
           (mkOutputShape [3] false) [0; 0] 0 eq_refl eq_refl eq_refl).
  discriminate.
Defined.

(* ===================================================================== *)
(** * Part XVI -- Runs of the walker                                      *)
(* ===================================================================== *)

Section Runs.

Context {C : Type} (rt : Runtime C).
Implicit Types (w : Walker C) (tr evs : list Event) (o : Outcome)
               (T table : list OutputShape).

Lemma reconcile_refines (ex : StepExecutor) (cb : ExecutionCallback) table :
  shapes_refine table (snd (reconcile ex cb table)).
Proof.
  unfold reconcile.
  pose proof (StepExecutor_updateOutputShapes_refines ex (cb_outputShapes cb)
                table) as [_ H].
  destruct (StepExecutor_updateOutputShapes ex (cb_outputShapes cb) table).
  exact H.
Qed.

Lemma startCompute_notification_ok T ex :
  Forall (notification_ok T) (snd (startCompute rt ex)).
Proof.
  unfold startCompute. destruct (mPreparedModel ex); [|constructor].
  destruct (execute rt ex) as [[n shapes] t].
  destruct (_ && _); repeat constructor.
Qed.

Lemma startComputeOnCpuFallback_notification_ok T ex :
  Forall (notification_ok T) (snd (startComputeOnCpuFallback rt ex)).
Proof.
  unfold startComputeOnCpuFallback.
  destruct (prepareModel rt CpuDevice (mModel ex)) as [n pm].
  destruct (negb _); [constructor | apply startCompute_notification_ok].
Qed.

Lemma count_full_after_full evs :
  count_events isFullFallback (trace_of (after evs (cpuFallbackFull rt))) <> O.
Proof.
  rewrite trace_of_after, count_events_app.
  destruct (cpuFallbackFull_counts rt) as [H _]. lia.
Qed.

Lemma notification_ok_failure T evs status shapes :
  Forall (notification_ok T) evs ->
  shapes = [] \/ shapes_refine T shapes ->
  Forall (notification_ok T) (evs ++ [EvNotify status shapes kNoTiming]).
Proof.
  intros Hevs Hsh. apply Forall_app. split; [exact Hevs|].
  constructor; [|constructor]. split; [exact Hsh|].
  intros H. contradiction.
Qed.

(** Partial fallback keeps the table an update of [T], and whatever it
    notifies without going to full-model fallback is in order. *)
Lemma cpuFallbackPartial_invariant T controller table :
  shapes_refine T table ->
  match cpuFallbackPartial rt controller table with
  | StepRecovered _ shapes tr =>
      shapes_refine T shapes
      /\ Forall (notification_ok T) tr
      /\ count_events isFullFallback tr = O
      /\ count_events isNotify tr = O
  | RunEnded o =>
      count_events isFullFallback (trace_of o) = O ->
      Forall (notification_ok T) (trace_of o)
  end.
Proof.
  intros HT. unfold cpuFallbackPartial.
  destruct (plan_fallback rt controller) as [[n exo] c'].
  destruct (negb (n =? ANEURALNETWORKS_NO_ERROR)).
  { intros H. exfalso. exact (count_full_after_full _ H). }
  destruct exo as [ex|]; [|intros _; repeat constructor].
  destruct (isCpu ex).
  { intros H. exfalso. exact (count_full_after_full _ H). }
  pose proof (startComputeOnCpuFallback_notification_ok T ex) as Hok.
  pose proof (startComputeOnCpuFallback_no_fallback rt ex) as [_ Hnf].
  pose proof (startComputeOnCpuFallback_no_notify rt ex) as Hnn.
  destruct (startComputeOnCpuFallback rt ex) as [[| n' | cb] evs];
    simpl in Hok, Hnf, Hnn.
  - intros _. constructor; [exact I | exact Hok].
  - intros H. exfalso. exact (count_full_after_full _ H).
  - pose proof (reconcile_refines ex cb table) as Href.
    destruct (reconcile ex cb table) as [status shapes]. simpl in Href.
    assert (shapes_refine T shapes) as HTT
      by (eapply shapes_refine_trans; eassumption).
    destruct (negb (bool_decide (status = NONE))).
    + destruct (plan_isSimple rt
                || bool_decide (status = OUTPUT_INSUFFICIENT_SIZE)).
      * intros _. simpl.
        apply (notification_ok_failure T (EvPartialFallback :: evs)).
        -- constructor; [exact I | exact Hok].
        -- right. exact HTT.
      * intros H. exfalso. exact (count_full_after_full _ H).
    + split; [exact HTT|]. split; [constructor; [exact I | exact Hok]|].
      split; simpl; assumption.
Qed.

Lemma loopBody_invariant T allowFallback w :
  shapes_refine T (w_outputShapes w) ->
  match loopBody rt allowFallback w with
  | Continue w' evs =>
      shapes_refine T (w_outputShapes w')
      /\ Forall (notification_ok T) evs
      /\ count_events isFullFallback evs = O
  | Return o =>
      count_events isFullFallback (trace_of o) = O ->
      Forall (notification_ok T) (trace_of o)
  end.
Proof.
  intros HT.
  assert (forall controller table timing evs,
            shapes_refine T table ->
            Forall (notification_ok T) evs ->
            count_events isFullFallback evs = O ->
            match viaPartialFallback rt controller table timing evs with
            | Continue w' evs' =>
                shapes_refine T (w_outputShapes w')
                /\ Forall (notification_ok T) evs'
                /\ count_events isFullFallback evs' = O
            | Return o =>
                count_events isFullFallback (trace_of o) = O ->
                Forall (notification_ok T) (trace_of o)
            end) as Hvia.
  { intros controller table timing evs Htab Hevs Hnf.
    unfold viaPartialFallback.
    pose proof (cpuFallbackPartial_invariant T controller table Htab) as H.
    destruct (cpuFallbackPartial rt controller table) as [c' sh tr|o].
    - destruct H as (H1 & H2 & H3 & _). simpl.
      split; [exact H1|]. split; [apply Forall_app; split; assumption|].
      rewrite count_events_app. lia.
    - rewrite trace_of_after, count_events_app. intros Hz.
      apply Forall_app. split; [exact Hevs | apply H; lia]. }
  unfold loopBody.
  destruct (plan_next rt (w_controller w)) as [[n exo] c'].
  destruct (negb (n =? ANEURALNETWORKS_NO_ERROR)).
  { destruct allowFallback.
    - intros H. exfalso. destruct (cpuFallbackFull_counts rt) as [H1 _]. lia.
    - intros _. simpl. constructor; [|constructor].
      split; [left; reflexivity | intros H; contradiction]. }
  destruct exo as [ex|].
  2:{ intros _. simpl. constructor; [|constructor].
      split; [right; exact HT|].
      intros _. reflexivity. }
  pose proof (startCompute_notification_ok T ex) as Hok.
  pose proof (startCompute_no_fallback rt ex) as [_ Hnf].
  destruct (startCompute rt ex) as [[| n' | cb] evs]; simpl in Hok, Hnf.
  - intros _. exact Hok.
  - destruct allowFallback; [apply Hvia; assumption|].
    intros _. simpl. apply notification_ok_failure; [exact Hok | left; reflexivity].
  - pose proof (reconcile_refines ex cb (w_outputShapes w)) as Href.
    destruct (reconcile ex cb (w_outputShapes w)) as [status shapes].
    simpl in Href.
    assert (shapes_refine T shapes) as HTT
      by (eapply shapes_refine_trans; eassumption).
    destruct (bool_decide (status = NONE)); [simpl; auto|].
    destruct (allowFallback && _); [apply Hvia; assumption|].
    destruct (bool_decide (status = OUTPUT_INSUFFICIENT_SIZE));
      intros _; simpl; apply notification_ok_failure; auto.
Qed.

Lemma stepLoop_invariant T allowFallback fuel :
  forall w,
    shapes_refine T (w_outputShapes w) ->
    count_events isFullFallback (trace_of (stepLoop rt allowFallback fuel w)) = O ->
    Forall (notification_ok T) (trace_of (stepLoop rt allowFallback fuel w)).
Proof.
  induction fuel as [|fuel IH]; intros w HT; simpl; [constructor|].
  pose proof (loopBody_invariant T allowFallback w HT) as Hbody.
  destruct (loopBody rt allowFallback w) as [w' evs|o]; [|exact Hbody].
  destruct Hbody as (HTT & Hevs & _).
  rewrite trace_of_after, count_events_app. intros Hz.
  apply Forall_app. split; [exact Hevs | apply IH; [exact HTT | lia]].
Qed.

(** The shapes of the table are acceptable to
    [ExecutionBuilder::updateOutputShapes] as long as they update the
    initial table. *)
Lemma updateOutputShapes_accepts (e : ExecutionBuilder) (shapes : list OutputShape) :
  shapes = [] \/ shapes_refine (initializeOutputShapes e) shapes ->
  fst (updateOutputShapes shapes e) = true.
Proof.
  intros [-> | Href]; [reflexivity|].
  unfold updateOutputShapes.
  destruct (List.length shapes =? 0)%nat; [reflexivity|].
  pose proof (shapes_refine_length _ _ Href) as Hlen.
  unfold initializeOutputShapes in Hlen, Href. rewrite length_map in Hlen.
  rewrite <- Hlen, Nat.eqb_refl. simpl negb. cbv iota.
  assert (outputs_updatable (mOutputs e) shapes = true) as ->.
  { apply outputs_updatable_true; [exact Hlen|].
    unfold all_updatable. unfold shapes_refine in Href.
    apply Forall2_fmap_l in Href. exact Href. }
  reflexivity.
Qed.

End Runs.

(** X19. In every run of [asyncStartComputePartitioned] that does not go
    to full-model fallback, the shapes passed to the completion callback
    are either none or, slot by slot, an update of the dimensions the
    outputs were bound with; so [ExecutionBuilder::updateOutputShapes]
    (hence [finish]) accepts them.  This holds for every status, also
    after a failed reconciliation, and after any number of steps and
    partial fallbacks. *)
Theorem walker_notifies_refined_shapes {C : Type} (rt : Runtime C)
    (e : ExecutionBuilder) (controller : C) (allowFallback : bool)
    (fuel : nat) (status : ErrorStatus) (shapes : list OutputShape)
    (timing : Timing) :
  let tr := trace_of (asyncStartComputePartitioned rt e controller
                                                   allowFallback fuel) in
  count_events isFullFallback tr = O ->
  EvNotify status shapes timing ∈ tr ->
  (shapes = [] \/ shapes_refine (initializeOutputShapes e) shapes)
  /\ fst (updateOutputShapes shapes e) = true.
Proof.
  intros tr Hnf Hin. subst tr. unfold asyncStartComputePartitioned in *.
  pose proof (stepLoop_invariant rt (initializeOutputShapes e) _ fuel
                (mkWalker controller (initializeOutputShapes e) kNoTiming)
                (shapes_refine_refl _) Hnf) as Hall.
  rewrite Forall_forall in Hall. specialize (Hall _ Hin) as [Hsh _].
  split; [exact Hsh | apply updateOutputShapes_accepts; exact Hsh].
Qed.

Lemma walker_notifies_refined_shapes_witness :
  EvNotify OUTPUT_INSUFFICIENT_SIZE table_after_step0 kNoTiming
  ∈ trace_of (asyncStartComputePartitioned runtime_insufficient_on_cpu
                execution_partitioned O true 3)
  /\ fst (updateOutputShapes table_after_step0 execution_partitioned) = true.
Proof.
  assert (EvNotify OUTPUT_INSUFFICIENT_SIZE table_after_step0 kNoTiming
          ∈ trace_of (asyncStartComputePartitioned runtime_insufficient_on_cpu
                        execution_partitioned O true 3)) as Hin.
  { vm_compute. do 3 apply list_elem_of_further. apply list_elem_of_here. }
  split; [exact Hin|].
  apply (walker_notifies_refined_shapes runtime_insufficient_on_cpu
           execution_partitioned O true 3 OUTPUT_INSUFFICIENT_SIZE
           table_after_step0 kNoTiming eq_refl Hin).
Defined.

(** X20. In a run that does not go to full-model fallback, a
    notification that carries a timing other than [kNoTiming] is a
    notification of success: every failure is delivered without timing. *)
Theorem walker_timing_only_with_success {C : Type} (rt : Runtime C)
    (e : ExecutionBuilder) (controller : C) (allowFallback : bool)
    (fuel : nat) (status : ErrorStatus) (shapes : list OutputShape)
    (timing : Timing) :
  let tr := trace_of (asyncStartComputePartitioned rt e controller
                                                   allowFallback fuel) in
  count_events isFullFallback tr = O ->
  EvNotify status shapes timing ∈ tr ->
  timing <> kNoTiming ->
  status = NONE.
Proof.
  intros tr Hnf Hin. subst tr. unfold asyncStartComputePartitioned in *.
  pose proof (stepLoop_invariant rt (initializeOutputShapes e) _ fuel
                (mkWalker controller (initializeOutputShapes e) kNoTiming)
                (shapes_refine_refl _) Hnf) as Hall.
  rewrite Forall_forall in Hall. specialize (Hall _ Hin) as [_ Ht].
  exact Ht.
Qed.

Lemma walker_timing_only_with_success_witness :
  EvNotify NONE [shape [2; 3]; shape [4]; shape [6]] (mkTiming 10 20)
  ∈ trace_of (asyncStartComputePartitioned
                (runtime_two_steps false devices_working)
                execution_partitioned O true 3)
  /\ mkTiming 10 20 <> kNoTiming
  /\ NONE = NONE.
Proof.
  assert (EvNotify NONE [shape [2; 3]; shape [4]; shape [6]] (mkTiming 10 20)
          ∈ trace_of (asyncStartComputePartitioned
                        (runtime_two_steps false devices_working)
                        execution_partitioned O true 3)) as Hin.
  { vm_compute. do 2 apply list_elem_of_further. apply list_elem_of_here. }
  assert (mkTiming 10 20 <> kNoTiming) as Hne by discriminate.
  split; [exact Hin|]. split; [exact Hne|].
  exact (walker_timing_only_with_success
           (runtime_two_steps false devices_working)
           execution_partitioned O true 3 NONE
           [shape [2; 3]; shape [4]; shape [6]] (mkTiming 10 20)
           eq_refl Hin Hne).
Defined.

Section FallbackBudget.

Context {C : Type} (rt : Runtime C).
Implicit Types (w : Walker C) (tr evs : list Event) (o : Outcome).

Lemma no_fallback_app evs tr :
  no_fallback evs -> no_fallback tr -> no_fallback (evs ++ tr).
Proof.
  intros [H1 H2] [H3 H4]. split; rewrite count_events_app; lia.
Qed.

Lemma no_fallback_notify evs status shapes timing :
  no_fallback evs -> no_fallback (evs ++ [EvNotify status shapes timing]).
Proof.
  intros H. apply no_fallback_app; [exact H | split; reflexivity].
Qed.

(** With fallback off an iteration attempts none. *)
Lemma loopBody_no_fallback w :
  match loopBody rt false w with
  | Continue _ evs => no_fallback evs
  | Return o => no_fallback (trace_of o)
  end.
Proof.
  unfold loopBody.
  destruct (plan_next rt (w_controller w)) as [[n exo] c'].
  destruct (negb (n =? ANEURALNETWORKS_NO_ERROR)); [split; reflexivity|].
  destruct exo as [ex|]; [|split; reflexivity].
  pose proof (startCompute_no_fallback rt ex) as Hnf.
  destruct (startCompute rt ex) as [[| n' | cb] evs]; simpl in Hnf.
  - exact Hnf.
  - simpl. apply no_fallback_notify. exact Hnf.
  - destruct (reconcile ex cb (w_outputShapes w)) as [status shapes].
    destruct (bool_decide (status = NONE)); [exact Hnf|].
    simpl andb. cbv iota.
    destruct (bool_decide (status = OUTPUT_INSUFFICIENT_SIZE));
      simpl; apply no_fallback_notify; exact Hnf.
Qed.

Lemma stepLoop_no_fallback fuel :
  forall w, no_fallback (trace_of (stepLoop rt false fuel w)).
Proof.
  induction fuel as [|fuel IH]; intros w; simpl; [split; reflexivity|].
  pose proof (loopBody_no_fallback w) as Hbody.
  destruct (loopBody rt false w) as [w' evs|o]; [|exact Hbody].
  rewrite trace_of_after. apply no_fallback_app; [exact Hbody | apply IH].
Qed.

(** An iteration that continues has not entered full-model fallback, and
    one that returns has entered it at most once. *)
Lemma cpuFallbackPartial_full_once controller table :
  match cpuFallbackPartial rt controller table with
  | StepRecovered _ _ tr => count_events isFullFallback tr = O
  | RunEnded o => (count_events isFullFallback (trace_of o) <= 1)%nat
  end.
Proof.
  pose proof (cpuFallbackPartial_invariant rt table controller table
                (shapes_refine_refl table)) as Hinv.
  pose proof (cpuFallbackPartial_failure rt controller table) as Hfail.
  destruct (cpuFallbackPartial rt controller table) as [c' sh tr|o].
  - destruct Hinv as (_ & _ & H & _). exact H.
  - exact (proj2 (partial_failure_counts rt o (Hfail o eq_refl))).
Qed.

Lemma loopBody_full_once allowFallback w :
  match loopBody rt allowFallback w with
  | Continue _ evs => count_events isFullFallback evs = O
  | Return o => (count_events isFullFallback (trace_of o) <= 1)%nat
  end.
Proof.
  assert (forall controller table timing evs,
            count_events isFullFallback evs = O ->
            match viaPartialFallback rt controller table timing evs with
            | Continue _ evs' => count_events isFullFallback evs' = O
            | Return o => (count_events isFullFallback (trace_of o) <= 1)%nat
            end) as Hvia.
  { intros controller table timing evs Hevs. unfold viaPartialFallback.
    pose proof (cpuFallbackPartial_full_once controller table) as H.
    destruct (cpuFallbackPartial rt controller table) as [c' sh tr|o].
    - rewrite count_events_app. lia.
    - rewrite trace_of_after, count_events_app. lia. }
  destruct (cpuFallbackFull_counts rt) as [Hfull _].
  unfold loopBody.
  destruct (plan_next rt (w_controller w)) as [[n exo] c'].
  destruct (negb (n =? ANEURALNETWORKS_NO_ERROR)).
  { destruct allowFallback; [lia | simpl; lia]. }
  destruct exo as [ex|]; [|simpl; lia].
  pose proof (startCompute_no_fallback rt ex) as [_ Hnf].
  destruct (startCompute rt ex) as [[| n' | cb] evs]; simpl in Hnf.
  - simpl. lia.
  - destruct allowFallback; [apply Hvia; exact Hnf|].
    simpl. rewrite count_events_app. simpl. lia.
  - destruct (reconcile ex cb (w_outputShapes w)) as [status shapes].
    destruct (bool_decide (status = NONE)); [exact Hnf|].
    destruct (allowFallback && _); [apply Hvia; exact Hnf|].
    destruct (bool_decide (status = OUTPUT_INSUFFICIENT_SIZE));
      simpl; rewrite count_events_app; simpl; lia.
Qed.

Lemma stepLoop_full_once allowFallback fuel :
  forall w,
    (count_events isFullFallback (trace_of (stepLoop rt allowFallback fuel w))
     <= 1)%nat.
Proof.
  induction fuel as [|fuel IH]; intros w; simpl; [lia|].
  pose proof (loopBody_full_once allowFallback w) as Hbody.
  destruct (loopBody rt allowFallback w) as [w' evs|o]; [|exact Hbody].
  rewrite trace_of_after, count_events_app. specialize (IH w'). lia.
Qed.

End FallbackBudget.

(** X21. With fallback not allowed, or with a plan that is simple on the
    software device, a run of [asyncStartComputePartitioned] attempts no
    fallback of either kind, whatever the plan and the devices answer. *)
Theorem walker_without_fallback {C : Type} (rt : Runtime C)
    (e : ExecutionBuilder) (controller : C) (allowFallback : bool)
    (fuel : nat) :
  allowFallback = false \/ plan_isSimpleCpu rt = true ->
  no_fallback
    (trace_of (asyncStartComputePartitioned rt e controller allowFallback fuel)).
Proof.
  intros Hoff. unfold asyncStartComputePartitioned.
  assert (allowFallback && negb (plan_isSimpleCpu rt) = false) as ->.
  { destruct Hoff as [-> | ->]; [reflexivity | apply andb_false_r]. }
  apply stepLoop_no_fallback.
Qed.

Lemma walker_without_fallback_witness :
  asyncStartComputePartitioned runtime_insufficient_on_cpu
    execution_partitioned O false 3
  = Completed [EvExecute (step_executor 0) kNoTiming;
               EvNotify DEVICE_UNAVAILABLE [] kNoTiming]
  /\ no_fallback
       (trace_of (asyncStartComputePartitioned runtime_insufficient_on_cpu
                    execution_partitioned O false 3)).
Proof.
  split; [reflexivity|].
  apply (walker_without_fallback runtime_insufficient_on_cpu
           execution_partitioned O false 3 (or_introl eq_refl)).
Defined.

(** X22. Full-model fallback is entered at most once in a run of
    [asyncStartComputePartitioned]. *)
Theorem walker_full_fallback_at_most_once {C : Type} (rt : Runtime C)
    (e : ExecutionBuilder) (controller : C) (allowFallback : bool)
    (fuel : nat) :
  (count_events isFullFallback
     (trace_of (asyncStartComputePartitioned rt e controller allowFallback fuel))
   <= 1)%nat.
Proof. unfold asyncStartComputePartitioned. apply stepLoop_full_once. Qed.

(** X23. A run of [asyncStartComputePartitioned] that returns has
    notified the completion callback exactly once, and that was the last
    thing it did. *)
Theorem walker_notifies_once {C : Type} (rt : Runtime C)
    (e : ExecutionBuilder) (controller : C) (allowFallback : bool)
    (fuel : nat) (tr : list Event) :
  asyncStartComputePartitioned rt e controller allowFallback fuel = Completed tr ->
  ends_with_notify tr /\ count_events isNotify tr = 1%nat.
Proof.
  unfold asyncStartComputePartitioned. intros H.
  apply stepLoop_notifies_once in H.
  split; [exact H|].
  destruct H as (tr0 & st & sh & t & -> & H0).
  rewrite count_events_app. simpl. lia.
Qed.

Lemma walker_notifies_once_witness :
  count_events isNotify
    [EvExecute (step_executor 0) kNoTiming;
     EvPartialFallback;
     EvExecute (step_executor_on_cpu 0) kNoTiming;
     EvFullFallback;
     EvExecute full_executor_on_cpu kNoTiming;
     EvNotify NONE [shape [2; 3]; shape [4]; shape [6]] kNoTiming] = 1%nat.
Proof.
  apply (walker_notifies_once (runtime_wrong_shape_on_cpu false)
           execution_partitioned O true 3 _ eq_refl).
Defined.

Section Termination.

Context {C : Type} (rt : Runtime C) (mu : C -> nat).
Implicit Types (w : Walker C) (o : Outcome).

(** Every step the plan hands out brings the controller closer to the
    end of the plan, and asking for a replacement executor does not take
    it back. *)
Hypothesis next_decreases :
  forall c ex c',
    plan_next rt c = (ANEURALNETWORKS_NO_ERROR, Some ex, c') ->
    (mu c' < mu c)%nat.
Hypothesis fallback_bounded :
  forall c n exo c',
    plan_fallback rt c = (n, exo, c') -> (mu c' <= mu c)%nat.

Lemma ended_after evs o : ended o -> ended (after evs o).
Proof. destruct o; simpl; auto. Qed.

Lemma cpuFallbackFull_ended : ended (cpuFallbackFull rt).
Proof.
  unfold cpuFallbackFull.
  destruct (startComputeOnCpuFallback rt _) as [[| n | cb] evs]; exact I.
Qed.

Lemma cpuFallbackPartial_measure controller table :
  match cpuFallbackPartial rt controller table with
  | StepRecovered c' _ _ => (mu c' <= mu controller)%nat
  | RunEnded o => ended o
  end.
Proof.
  unfold cpuFallbackPartial.
  pose proof (fallback_bounded controller) as Hb.
  destruct (plan_fallback rt controller) as [[n exo] c'].
  specialize (Hb n exo c' eq_refl).
  destruct (negb (n =? ANEURALNETWORKS_NO_ERROR));
    [apply ended_after, cpuFallbackFull_ended|].
  destruct exo as [ex|]; [|exact I].
  destruct (isCpu ex); [apply ended_after, cpuFallbackFull_ended|].
  destruct (startComputeOnCpuFallback rt ex) as [[| n' | cb] evs].
  - exact I.
  - apply ended_after, cpuFallbackFull_ended.
  - destruct (reconcile ex cb table) as [status shapes].
    destruct (negb (bool_decide (status = NONE))); [|exact Hb].
    destruct (plan_isSimple rt || _);
      [exact I | apply ended_after, cpuFallbackFull_ended].
Qed.

Lemma loopBody_measure allowFallback w :
  match loopBody rt allowFallback w with
  | Continue w' _ => (mu (w_controller w') < mu (w_controller w))%nat
  | Return o => ended o
  end.
Proof.
  assert (forall controller table timing evs,
            (mu controller < mu (w_controller w))%nat ->
            match viaPartialFallback rt controller table timing evs with
            | Continue w' _ => (mu (w_controller w') < mu (w_controller w))%nat
            | Return o => ended o
            end) as Hvia.
  { intros controller table timing evs Hlt. unfold viaPartialFallback.
    pose proof (cpuFallbackPartial_measure controller table) as H.
    destruct (cpuFallbackPartial rt controller table) as [c' sh tr|o].
    - simpl. lia.
    - apply ended_after. exact H. }
  unfold loopBody.
  pose proof (next_decreases (w_controller w)) as Hn.
  destruct (plan_next rt (w_controller w)) as [[n exo] c'].
  destruct (Z.eqb_spec n ANEURALNETWORKS_NO_ERROR) as [-> | Hne]; simpl negb;
    cbv iota.
  2:{ destruct allowFallback; [apply cpuFallbackFull_ended | exact I]. }
  destruct exo as [ex|]; [|exact I].
  specialize (Hn ex c' eq_refl).
  destruct (startCompute rt ex) as [[| n' | cb] evs].
  - exact I.
  - destruct allowFallback; [apply Hvia; exact Hn | exact I].
  - destruct (reconcile ex cb (w_outputShapes w)) as [status shapes].
    destruct (bool_decide (status = NONE)); [exact Hn|].
    destruct (allowFallback && _); [apply Hvia; exact Hn|].
    destruct (bool_decide (status = OUTPUT_INSUFFICIENT_SIZE)); exact I.
Qed.

Lemma stepLoop_ends allowFallback fuel :
  forall w, (mu (w_controller w) < fuel)%nat ->
            ended (stepLoop rt allowFallback fuel w).
Proof.
  induction fuel as [|fuel IH]; intros w Hlt; [lia|]. simpl.
  pose proof (loopBody_measure allowFallback w) as Hbody.
  destruct (loopBody rt allowFallback w) as [w' evs|o]; [|exact Hbody].
  apply ended_after, IH. lia.
Qed.

End Termination.

(** X24. The walker's loop ends whenever the plan is finite: if some
    measure of the controller decreases with every step [plan->next]
    hands out and is not increased by [plan->fallback], then a run from a
    controller of measure below [fuel] returns (or stops on a [CHECK])
    within [fuel] iterations, whatever the devices answer; the loop has
    no other way of going on. *)
Theorem walker_terminates {C : Type} (rt : Runtime C) (mu : C -> nat)
    (e : ExecutionBuilder) (controller : C) (allowFallback : bool)
    (fuel : nat) :
  (forall c ex c',
      plan_next rt c = (ANEURALNETWORKS_NO_ERROR, Some ex, c') ->
      (mu c' < mu c)%nat) ->
  (forall c n exo c',
      plan_fallback rt c = (n, exo, c') -> (mu c' <= mu c)%nat) ->
  (mu controller < fuel)%nat ->
  ended (asyncStartComputePartitioned rt e controller allowFallback fuel).
Proof.
  intros Hnext Hfb Hlt. unfold asyncStartComputePartitioned.
  apply (stepLoop_ends rt mu Hnext Hfb). exact Hlt.
Qed.

Lemma walker_terminates_witness :
  ended (asyncStartComputePartitioned (runtime_wrong_shape_on_cpu false)
           execution_partitioned O true 3).
Proof.
  apply (walker_terminates (runtime_wrong_shape_on_cpu false)
           (fun c => (2 - c)%nat) execution_partitioned O true 3).
  - intros c ex c'. simpl. unfold two_step_next.
    destruct (Nat.ltb_spec c 2) as [Hc|Hc]; intros [= <- <-]. lia.
  - intros c n exo c'. simpl. unfold two_step_fallback.
    destruct c; intros [= <- <- <-]; lia.
  - simpl. lia.
Defined.

(* ===================================================================== *)
(** * Part XVII -- [compute] and [finish]                                 *)
(* ===================================================================== *)

Section ComputeFinishes.

Context {C : Type} (rt : Runtime C).
Implicit Types (e : ExecutionBuilder) (tr : list Event)
               (cbo : option ExecutionCallback).

Lemma applyEvents_app tr1 tr2 (s : ExecutionBuilder * option ExecutionCallback) :
  applyEvents rt (tr1 ++ tr2) s
  = match applyEvents rt tr1 s with
    | Returns s' => applyEvents rt tr2 s'
    | CheckFailed => CheckFailed
    end.
Proof.
  revert s. induction tr1 as [|ev tr1 IH]; intros s; simpl; [reflexivity|].
  destruct (applyEvent rt ev s); [apply IH | reflexivity].
Qed.

(** Before the notification nothing finishes the execution. *)
Lemma applyEvents_before_notify tr :
  forall e cbo,
    count_events isNotify tr = O ->
    exists e1, applyEvents rt tr (e, cbo) = Returns (e1, cbo)
               /\ mFinished e1 = mFinished e /\ mStarted e1 = mStarted e.
Proof.
  induction tr as [|ev tr IH]; intros e cbo Hn; simpl.
  - exists e. repeat split.
  - destruct ev as [ex t| | |st sh t]; simpl in Hn; try lia; simpl.
    + destruct (IH (reportTiming t e) cbo Hn) as (e1 & H1 & H2 & H3).
      exists e1. repeat split; assumption.
    + apply IH. exact Hn.
    + apply IH. exact Hn.
Qed.

End ComputeFinishes.

(** X25. A synchronous [compute] on an execution that is not started,
    not finished and fully bound leaves it started and finished whenever
    it returns: the [finish] handler has run exactly once.  The call
    stops on a [CHECK] only if the walker did (never on the [CHECK] of
    [finish]), and fails to return only if the walker's loop does. *)
Theorem synchronous_compute_finishes {C : Type} (rt : Runtime C) (fuel : nat)
    (e : ExecutionBuilder) :
  mStarted e = false ->
  mFinished e = false ->
  existsb isUnspecified (mInputs e) = false ->
  existsb isUnspecified (mOutputs e) = false ->
  let walk :=
    asyncStartComputePartitioned rt (set_mStarted true e)
      (plan_makeController rt (set_mStarted true e))
      (partitioningAllowsFallback rt (mPartitioning (mCompilation e))) fuel in
  match compute rt true fuel e with
  | ComputeReturns n e' =>
      mStarted e' = true /\ mFinished e' = true
      /\ exists tr, walk = Completed tr
  | ComputeCrashed => exists tr, walk = Crashed tr
  | ComputeDiverges => exists tr, walk = OutOfFuel tr
  end.
Proof.
  intros Hs Hf Hin Hout walk. unfold compute. rewrite Hs, Hin, Hout.
  change (asyncStartComputePartitioned rt (set_mStarted true e)
            (plan_makeController rt (set_mStarted true e))
            (partitioningAllowsFallback rt
               (mPartitioning (mCompilation (set_mStarted true e)))) fuel)
    with walk.
  destruct walk as [tr|tr|tr] eqn:Hwalk; [|eexists; reflexivity..].
  unfold walk, asyncStartComputePartitioned in Hwalk.
  apply stepLoop_notifies_once in Hwalk as (tr0 & st & sh & t & -> & Hn).
  rewrite applyEvents_app.
  destruct (applyEvents_before_notify rt tr0 (set_mStarted true e) None Hn)
    as (e1 & -> & Hf1 & Hs1).
  simpl in Hf1, Hs1. rewrite Hf in Hf1.
  simpl. unfold finish. rewrite Hf1.
  pose proof (updateOutputShapes_mFinished
                (cb_outputShapes (callback_notify rt st sh t))
                (set_mFinished true e1)) as Hfin.
  pose proof (updateOutputShapes_mStarted
                (cb_outputShapes (callback_notify rt st sh t))
                (set_mFinished true e1)) as Hst.
  destruct (updateOutputShapes _ (set_mFinished true e1)) as [ok e2].
  simpl in Hfin, Hst. rewrite Hs1 in Hst.
  destruct (mMeasureTiming e2); simpl;
    (split; [exact Hst | split; [exact Hfin | eexists; reflexivity]]).
Qed.

Lemma synchronous_compute_finishes_witness :
  match compute (runtime_two_steps false devices_working) true 3
                execution_partitioned with
  | ComputeReturns n e' => mStarted e' = true /\ mFinished e' = true
  | _ => False
  end.
Proof.
  pose proof (synchronous_compute_finishes
                (runtime_two_steps false devices_working) 3
                execution_partitioned eq_refl eq_refl eq_refl eq_refl) as H.
  destruct (compute (runtime_two_steps false devices_working) true 3
                    execution_partitioned) as [n e'| |] eqn:Hc.
  - destruct H as (H1 & H2 & _). split; assumption.
  - vm_compute in Hc. discriminate Hc.
  - vm_compute in Hc. discriminate Hc.
Defined.

(* ===================================================================== *)
(** * Part XVIII -- The operation resolver                                *)
(* ===================================================================== *)

Section Resolver.

Variable kNumberOfOperationTypes : Z.
Implicit Types (regs : list (option OperationRegistration))
               (r : OperationRegistration).

Lemma registerOperation_returns r regs regs' :
  registerOperation kNumberOfOperationTypes (Some r) regs = Returns regs' ->
  0 <= reg_type r < kNumberOfOperationTypes
  /\ findOperation kNumberOfOperationTypes (reg_type r) regs = None
  /\ regs' = <[Z.to_nat (reg_type r) := Some r]> regs.
Proof.
  unfold registerOperation, findOperation.
  destruct (Z.leb_spec 0 (reg_type r)) as [H0|H0]; simpl negb; cbv iota;
    [|discriminate].
  destruct (Z.ltb_spec (reg_type r) kNumberOfOperationTypes) as [Hn|Hn];
    simpl negb; cbv iota; [|discriminate].
  assert ((reg_type r <? 0) || (kNumberOfOperationTypes <=? reg_type r) = false)
    as ->.
  { apply orb_false_iff. split; [apply Z.ltb_ge | apply Z.leb_gt]; lia. }
  destruct (regs !! Z.to_nat (reg_type r)) as [[r0|]|];
    [discriminate| |]; intros [= <-]; repeat split; lia.
Qed.

Lemma findOperation_insert r regs (t : Z) :
  0 <= reg_type r ->
  findOperation kNumberOfOperationTypes t
                (<[Z.to_nat (reg_type r) := Some r]> regs)
  = if bool_decide (t = reg_type r /\ (Z.to_nat t < List.length regs)%nat
                    /\ t < kNumberOfOperationTypes)
    then Some r
    else findOperation kNumberOfOperationTypes t regs.
Proof.
  intros H0. unfold findOperation.
  destruct (Z.ltb_spec t 0) as [Ht0|Ht0]; simpl orb.
  { rewrite bool_decide_eq_false_2; [reflexivity|]. intros (-> & _). lia. }
  destruct (Z.leb_spec kNumberOfOperationTypes t) as [HtN|HtN].
  { rewrite bool_decide_eq_false_2; [reflexivity|]. intros (_ & _ & H). lia. }
  destruct (decide (t = reg_type r)) as [-> | Hne].
  - destruct (decide (Z.to_nat (reg_type r) < List.length regs)%nat) as [Hl|Hl].
    + rewrite bool_decide_eq_true_2 by auto.
      rewrite list_lookup_insert_eq by exact Hl. reflexivity.
    + rewrite bool_decide_eq_false_2 by (intros (_ & H & _); contradiction).
      rewrite list_insert_ge by lia. reflexivity.
  - rewrite bool_decide_eq_false_2 by (intros (H & _); contradiction).
    rewrite list_lookup_insert_ne by lia. reflexivity.
Qed.

End Resolver.

(** X26. Registration and lookup.  When [registerOperation] returns (no
    [CHECK] fails), the type of the registration was in range and not
    registered before, [findOperation] now returns the registration for
    its type and what it returned before for every other type, and
    registering anything of the same type again trips the [CHECK]: a
    registered operation is never replaced. *)
Theorem register_then_find (kNumberOfOperationTypes : Z)
    (r : OperationRegistration)
    (regs regs' : list (option OperationRegistration)) :
  List.length regs = Z.to_nat kNumberOfOperationTypes ->
  registerOperation kNumberOfOperationTypes (Some r) regs = Returns regs' ->
  0 <= reg_type r < kNumberOfOperationTypes
  /\ findOperation kNumberOfOperationTypes (reg_type r) regs = None
  /\ findOperation kNumberOfOperationTypes (reg_type r) regs' = Some r
  /\ (forall t : Z,
         t <> reg_type r ->
         findOperation kNumberOfOperationTypes t regs'
         = findOperation kNumberOfOperationTypes t regs)
  /\ List.length regs' = List.length regs
  /\ (forall r' : OperationRegistration,
         reg_type r' = reg_type r ->
         registerOperation kNumberOfOperationTypes (Some r') regs'
         = CheckFailed).
Proof.
  intros Hlen Hreg.
  apply registerOperation_returns in Hreg as (Hrange & Hnew & ->).
  assert (Z.to_nat (reg_type r) < List.length regs)%nat as Hidx by lia.
  split; [exact Hrange|]. split; [exact Hnew|]. split; [|split; [|split]].
  - rewrite findOperation_insert by lia.
    rewrite bool_decide_eq_true_2; [reflexivity|].
    split; [reflexivity|]. split; [exact Hidx | lia].
  - intros t Hne. rewrite findOperation_insert by lia.
    rewrite bool_decide_eq_false_2; [reflexivity|].
    intros (H & _). contradiction.
  - apply length_insert.
  - intros r' Hty. unfold registerOperation. rewrite Hty.
    destruct (negb (0 <=? reg_type r)); [reflexivity|].
    destruct (negb (reg_type r <? kNumberOfOperationTypes)); [reflexivity|].
    rewrite list_lookup_insert_eq by exact Hidx. reflexivity.
Qed.

Lemma register_then_find_witness :
  findOperation 106 38 (<[38%nat := Some registration_ABS]> (noRegistrations 106))
  = Some registration_ABS
  /\ registerOperation 106 (Some (mkRegistration 38 "ABS again"))
       (<[38%nat := Some registration_ABS]> (noRegistrations 106))
     = CheckFailed.
Proof.
  destruct (register_then_find 106 registration_ABS (noRegistrations 106)
              (<[38%nat := Some registration_ABS]> (noRegistrations 106))
              eq_refl eq_refl) as (_ & _ & Hfind & _ & _ & Hagain).
  split; [exact Hfind | apply Hagain; reflexivity].
Defined.

Section ResolverConstruction.

Variable kNumberOfOperationTypes : Z.
Implicit Types (regs : list (option OperationRegistration))
               (rs : list (option OperationRegistration))
               (r : OperationRegistration).

Lemma elem_of_registeredTypes rs (t : Z) :
  t ∈ registeredTypes rs <-> exists r, Some r ∈ rs /\ reg_type r = t.
Proof.
  unfold registeredTypes. rewrite list_elem_of_omap. split.
  - intros ([r|] & Hin & Hr); simpl in Hr; [|discriminate].
    injection Hr as <-. exists r. split; [exact Hin | reflexivity].
  - intros (r & Hin & <-). exists (Some r). split; [exact Hin | reflexivity].
Qed.

Lemma findOperation_noRegistrations (t : Z) :
  findOperation kNumberOfOperationTypes t (noRegistrations kNumberOfOperationTypes) = None.
Proof.
  unfold findOperation, noRegistrations.
  destruct (_ || _); [reflexivity|].
  destruct (replicate _ _ !! Z.to_nat t) as [cell|] eqn:H; [|reflexivity].
  apply lookup_replicate in H as [-> _]. reflexivity.
Qed.

(** A cell that is empty for [findOperation] can be registered. *)
Lemma registerOperation_fresh r regs :
  List.length regs = Z.to_nat kNumberOfOperationTypes ->
  0 <= reg_type r < kNumberOfOperationTypes ->
  findOperation kNumberOfOperationTypes (reg_type r) regs = None ->
  registerOperation kNumberOfOperationTypes (Some r) regs = Returns (<[Z.to_nat (reg_type r) := Some r]> regs).
Proof.
  intros Hlen [H0 Hn] Hfind. unfold registerOperation, findOperation in *.
  assert ((reg_type r <? 0) || (kNumberOfOperationTypes <=? reg_type r) = false)
    as Hr.
  { apply orb_false_iff. split; [apply Z.ltb_ge | apply Z.leb_gt]; lia. }
  rewrite Hr in Hfind.
  assert ((0 <=? reg_type r) = true) as -> by (apply Z.leb_le; lia).
  assert ((reg_type r <? kNumberOfOperationTypes) = true) as ->
    by (apply Z.ltb_lt; lia).
  simpl. destruct (regs !! Z.to_nat (reg_type r)) as [[r0|]|];
    [discriminate Hfind | reflexivity | reflexivity].
Qed.

Lemma registerOperation_other r regs regs' (t : Z) :
  registerOperation kNumberOfOperationTypes (Some r) regs = Returns regs' ->
  t <> reg_type r ->
  findOperation kNumberOfOperationTypes t regs' = findOperation kNumberOfOperationTypes t regs.
Proof.
  intros Hreg Hne. apply registerOperation_returns in Hreg as (Hrange & _ & ->).
  rewrite findOperation_insert by lia.
  rewrite bool_decide_eq_false_2; [reflexivity|]. intros (H & _). contradiction.
Qed.

Lemma registerOperation_same r regs regs' :
  List.length regs = Z.to_nat kNumberOfOperationTypes ->
  registerOperation kNumberOfOperationTypes (Some r) regs = Returns regs' ->
  findOperation kNumberOfOperationTypes (reg_type r) regs' = Some r
  /\ List.length regs' = Z.to_nat kNumberOfOperationTypes.
Proof.
  intros Hlen Hreg. apply registerOperation_returns in Hreg as (Hrange & _ & ->).
  split; [|rewrite length_insert; exact Hlen].
  rewrite findOperation_insert by lia.
  rewrite bool_decide_eq_true_2; [reflexivity|].
  split; [reflexivity|]. split; lia.
Qed.

(** The sequence of registrations goes through exactly when every
    registration is acceptable, the types are pairwise distinct and none
    of them is registered in the table already. *)
Lemma registerOperations_returns rs :
  forall regs,
    List.length regs = Z.to_nat kNumberOfOperationTypes ->
    (exists regs', registerOperations kNumberOfOperationTypes rs regs = Returns regs') <->
    Forall (registrable kNumberOfOperationTypes) rs
    /\ NoDup (registeredTypes rs)
    /\ forall t, t ∈ registeredTypes rs -> findOperation kNumberOfOperationTypes t regs = None.
Proof.
  induction rs as [|x rs IH]; intros regs Hlen.
  - simpl. split.
    + intros _. split; [constructor|]. split; [constructor|].
      intros t H. inversion H.
    + intros _. eexists. reflexivity.
  - split.
    + intros [regs' Hall]. simpl in Hall.
      destruct x as [r|]; [|discriminate Hall].
      destruct (registerOperation kNumberOfOperationTypes (Some r) regs) as [regs1|] eqn:Hreg; [|discriminate].
      destruct (registerOperation_same r regs regs1 Hlen Hreg) as [Hsame Hlen1].
      pose proof (registerOperation_returns _ _ _ _ Hreg) as (Hrange & Hnew & _).
      destruct (proj1 (IH regs1 Hlen1) (ex_intro _ regs' Hall))
        as (Hok & Hnd & Hfresh).
      assert (reg_type r ∉ registeredTypes rs) as Hnotin.
      { intros Hin. specialize (Hfresh _ Hin). congruence. }
      split; [constructor; [exists r; split; [reflexivity | exact Hrange]
                           | exact Hok]|].
      split; [simpl; apply NoDup_cons; split; assumption|].
      intros t Ht. simpl in Ht. apply elem_of_cons in Ht as [-> | Ht];
        [exact Hnew|].
      rewrite <- (registerOperation_other r regs regs1 t Hreg);
        [apply Hfresh; exact Ht|].
      intros ->. contradiction.
    + intros (Hok & Hnd & Hfresh).
      apply Forall_cons in Hok as [(r & -> & Hrange) Hok].
      simpl in Hnd, Hfresh. apply NoDup_cons in Hnd as [Hnotin Hnd].
      pose proof (registerOperation_fresh r regs Hlen Hrange
                    (Hfresh _ (list_elem_of_here _ _))) as Hreg.
      destruct (registerOperation_same r regs _ Hlen Hreg) as [_ Hlen1].
      cbn [registerOperations]. rewrite Hreg.
      apply (IH _ Hlen1). split; [exact Hok|]. split; [exact Hnd|].
      intros t Ht.
      rewrite (registerOperation_other r regs _ t Hreg).
      * apply Hfresh. apply list_elem_of_further. exact Ht.
      * intros ->. contradiction.
Qed.

(** After the sequence, a type has the registration of the sequence
    that carries it, and otherwise what the table had before. *)
Lemma registerOperations_find rs :
  forall regs regs',
    List.length regs = Z.to_nat kNumberOfOperationTypes ->
    registerOperations kNumberOfOperationTypes rs regs = Returns regs' ->
    (forall r, Some r ∈ rs -> findOperation kNumberOfOperationTypes (reg_type r) regs' = Some r)
    /\ (forall t, t ∉ registeredTypes rs -> findOperation kNumberOfOperationTypes t regs' = findOperation kNumberOfOperationTypes t regs)
    /\ List.length regs' = Z.to_nat kNumberOfOperationTypes.
Proof.
  induction rs as [|x rs IH]; intros regs regs' Hlen Hall.
  - simpl in Hall. injection Hall as <-.
    split; [intros r H; inversion H|]. split; [reflexivity | exact Hlen].
  - pose proof (proj1 (registerOperations_returns (x :: rs) regs Hlen)
                  (ex_intro _ regs' Hall)) as (_ & Hnd & _).
    simpl in Hall. destruct x as [r0|]; [|discriminate Hall].
    destruct (registerOperation kNumberOfOperationTypes (Some r0) regs) as [regs1|] eqn:Hreg; [|discriminate].
    destruct (registerOperation_same r0 regs regs1 Hlen Hreg) as [Hsame Hlen1].
    destruct (IH regs1 regs' Hlen1 Hall) as (Hin & Hout & Hlen').
    simpl in Hnd. apply NoDup_cons in Hnd as [Hnotin _].
    split; [|split; [|exact Hlen']].
    + intros r Hr. apply elem_of_cons in Hr as [[= ->] | Hr];
        [|apply Hin; exact Hr].
      rewrite (Hout _ Hnotin). exact Hsame.
    + intros t Ht. simpl in Ht. apply not_elem_of_cons in Ht as [Hne Ht].
      rewrite (Hout _ Ht). exact (registerOperation_other _ _ _ _ Hreg Hne).
Qed.

End ResolverConstruction.

(** X27. The resolver after construction.  When the registrations the
    constructor makes on the empty table all go through, [findOperation]
    returns a registration for a type exactly when that registration is
    one of those made and carries the type: each registered operation is
    found under its own type, and a type nobody registered -- or one out
    of range -- yields the null result. *)
Theorem resolver_finds_what_was_registered (kNumberOfOperationTypes : Z)
    (registrations regs : list (option OperationRegistration)) :
  registerOperations kNumberOfOperationTypes registrations
                     (noRegistrations kNumberOfOperationTypes)
  = Returns regs ->
  forall (t : Z) (r : OperationRegistration),
    findOperation kNumberOfOperationTypes t regs = Some r <->
    Some r ∈ registrations /\ reg_type r = t.
Proof.
  intros Hall t r.
  assert (List.length (noRegistrations kNumberOfOperationTypes)
          = Z.to_nat kNumberOfOperationTypes) as Hlen
    by apply length_replicate.
  destruct (registerOperations_find kNumberOfOperationTypes registrations
              _ regs Hlen Hall) as (Hin & Hout & _).
  split.
  - intros Hfind.
    destruct (decide (t ∈ registeredTypes registrations)) as [Ht|Ht].
    + apply elem_of_registeredTypes in Ht as (r0 & Hr0 & <-).
      rewrite (Hin r0 Hr0) in Hfind. injection Hfind as <-.
      split; [exact Hr0 | reflexivity].
    + rewrite (Hout t Ht), findOperation_noRegistrations in Hfind.
      discriminate Hfind.
  - intros [Hr <-]. apply Hin. exact Hr.
Qed.

Lemma resolver_finds_what_was_registered_witness :
  exists regs,
    registerOperations 106
      [Some registration_ABS; Some registration_EQUAL; Some registration_SQRT]
      (noRegistrations 106) = Returns regs
    /\ findOperation 106 48 regs = Some registration_EQUAL.
Proof.
  eexists. split; [reflexivity|].
  apply (resolver_finds_what_was_registered 106
           [Some registration_ABS; Some registration_EQUAL;
            Some registration_SQRT] _ eq_refl 48 registration_EQUAL).
  split; [|reflexivity].
  apply list_elem_of_further, list_elem_of_here.
Defined.

(** X28. The constructor's registrations go through -- no [CHECK] of
    [registerOperation] fails -- exactly when none of the registrations
    is null, each type is below [kNumberOfOperationTypes] and not
    negative, and no two registrations carry the same type. *)
Theorem resolver_construction_succeeds (kNumberOfOperationTypes : Z)
    (registrations : list (option OperationRegistration)) :
  (exists regs,
      registerOperations kNumberOfOperationTypes registrations
                         (noRegistrations kNumberOfOperationTypes)
      = Returns regs) <->
  Forall (registrable kNumberOfOperationTypes) registrations
  /\ NoDup (registeredTypes registrations).
Proof.
  rewrite (registerOperations_returns kNumberOfOperationTypes registrations
             (noRegistrations kNumberOfOperationTypes)
             (length_replicate _ _)).
  split; [intros (H1 & H2 & _); split; assumption|].
  intros [H1 H2]. split; [exact H1|]. split; [exact H2|].
  intros t _. apply findOperation_noRegistrations.
Qed.

(** Two operations registered under one type stop the process. *)
Example resolver_duplicate_type :
  registerOperations 106
    [Some registration_ABS; Some (mkRegistration 38 "ABS again")]
    (noRegistrations 106) = CheckFailed.
Proof. reflexivity. Qed.

(** The [size_t] offset and length of a pool binding reach
    [setFromMemory] as [uint32_t] values. *)
Example pool_binding_narrows :
  mInputs (snd (setInputFromMemory binder_accepting 0 None 7%nat
                  4294967296 4294967320 execution_unbound))
  = [mkArg MEMORY [2; 3] true 0 (mkDataLocation 0 0 24)].
Proof. reflexivity. Qed.
